(** * Alarm configuration resolution of asiaq ([disco_alarm_config.py])

    A shallow embedding of [DiscoAlarmConfig], [DiscoAlarmsConfig] and of
    the helpers of [disco_elb.py] they call, with the naming functions and
    the port configuration [DiscoELBPortConfig] of that module, followed by
    the properties of the alarm resolution engine and of these helpers.

    Python dictionaries of options are [gmap string string]; the dictionaries
    the resolver shares between calls (the memoized defaults, the copy a
    resolution works on) live in an explicit store of dictionary objects, so
    that [copy.copy], [dict.update] and item assignment are modelled as the
    mutations they are.  Exceptions are values of [exn]; resolver methods run
    in a state-and-exception monad over the resolver's attributes. *)

From Stdlib Require Import ZArith Ascii String Lia.
From stdpp Require Import base option list gmap strings fin_maps.

Local Open Scope string_scope.

(** ** Python string primitives *)

Module PyStr.

  (** [s.split(sep)] for a one-character separator: never returns an empty
      list, [''.split('_') == ['']]. *)
Fixpoint split (sep : ascii) (s : string) : list string :=
    match s with
    | EmptyString => [EmptyString]
    | String c s' =>
        if decide (c = sep) then EmptyString :: split sep s'
        else match split sep s' with
             | [] => [String c EmptyString]
             | p :: ps => String c p :: ps
             end
    end.

  (** [sep.join(parts)]. *)
Fixpoint join (sep : string) (parts : list string) : string :=
    match parts with
    | [] => EmptyString
    | [p] => p
    | p :: ps => p ++ sep ++ join sep ps
    end.

  (** [c in s] for a character [c]. *)
Fixpoint contains (c : ascii) (s : string) : bool :=
    match s with
    | EmptyString => false
    | String c' s' => bool_decide (c' = c) || contains c s'
    end.

Definition is_digit (c : ascii) : bool :=
    let n := nat_of_ascii c in (48 <=? n)%nat && (n <=? 57)%nat.

Definition is_upper (c : ascii) : bool :=
    let n := nat_of_ascii c in (65 <=? n)%nat && (n <=? 90)%nat.

Definition is_lower (c : ascii) : bool :=
    let n := nat_of_ascii c in (97 <=? n)%nat && (n <=? 122)%nat.

  (** The characters [str.strip()] and [int()] skip: space, \t \n \v \f \r. *)
Definition is_space (c : ascii) : bool :=
    let n := nat_of_ascii c in (n =? 32)%nat || ((9 <=? n)%nat && (n <=? 13)%nat).

Fixpoint all_chars (p : ascii → bool) (s : string) : bool :=
    match s with
    | EmptyString => true
    | String c s' => p c && all_chars p s'
    end.

  (** [s.isdigit()]: at least one character, all of them decimal digits. *)
Definition isdigit (s : string) : bool :=
    match s with
    | EmptyString => false
    | _ => all_chars is_digit s
    end.

Definition lower_char (c : ascii) : ascii :=
    if is_upper c then ascii_of_nat (nat_of_ascii c + 32) else c.

  (** [s.lower()]. *)
Fixpoint lower (s : string) : string :=
    match s with
    | EmptyString => EmptyString
    | String c s' => String (lower_char c) (lower s')
    end.

  (** [re.sub(r'[^...]', '', s)] for a character class given as a predicate:
      the characters outside the class are dropped. *)
Fixpoint keep (p : ascii → bool) (s : string) : string :=
    match s with
    | EmptyString => EmptyString
    | String c s' => if p c then String c (keep p s') else keep p s'
    end.

Fixpoint lstrip (s : string) : string :=
    match s with
    | String c s' => if is_space c then lstrip s' else s
    | EmptyString => EmptyString
    end.

Fixpoint rstrip (s : string) : string :=
    match s with
    | EmptyString => EmptyString
    | String c s' =>
        match rstrip s' with
        | EmptyString => if is_space c then EmptyString else String c EmptyString
        | r => String c r
        end
    end.

Definition digit_value (c : ascii) : Z := Z.of_nat (nat_of_ascii c) - 48.

  (** Value of a run of decimal digits, most significant first; [None] when
      a character is not a digit. *)
Fixpoint digits_value (acc : Z) (s : string) : option Z :=
    match s with
    | EmptyString => Some acc
    | String c s' =>
        if is_digit c then digits_value (10 * acc + digit_value c) s' else None
    end.

Definition unsigned_value (s : string) : option Z :=
    match s with
    | EmptyString => None
    | _ => digits_value 0 s
    end.

  (** [int(s)] on a string, base 10: surrounding white space is skipped, one
      optional sign, then one or more digits; [None] stands for the
      [ValueError] of every other literal.  The result is unbounded, as
      Python promotes to [long]. *)
Definition int (s : string) : option Z :=
    match rstrip (lstrip s) with
    | String "-" r => Z.opp <$> unsigned_value r
    | String "+" r => unsigned_value r
    | t => unsigned_value t
    end.

  (** [s[:n]]. *)
Fixpoint prefix (n : nat) (s : string) : string :=
    match n, s with
    | S n', String c s' => String c (prefix n' s')
    | _, _ => EmptyString
    end.

(** [s.strip()] *)
Definition strip (s : string) : string := rstrip (lstrip s).

Definition upper_char (c : ascii) : ascii :=
  if is_lower c then ascii_of_nat (nat_of_ascii c - 32) else c.

(** [s.upper()]. *)
Fixpoint upper (s : string) : string :=
  match s with
  | EmptyString => EmptyString
  | String c s' => String (upper_char c) (upper s')
  end.

(** [s.replace(old, new)] for one-character [old] and [new]. *)
Fixpoint replace_char (old new : ascii) (s : string) : string :=
  match s with
  | EmptyString => EmptyString
  | String c s' => String (if decide (c = old) then new else c) (replace_char old new s')
  end.

End PyStr.

(** [parts[i:-1]]: from index [i] up to, not including, the last element. *)
Definition slice_to_last {A} (i : nat) (parts : list A) : list A :=
  drop i (take (length parts - 1) parts).

(** ** Exceptions, results and the log *)

(** An argument of a formatted message ([str.format], [%]). *)
Inductive fmt_arg :=
| FStr (s : string)
| FOpt (o : option string)
| FList (l : list string)
| FDict (d : gmap string string).

(** The exceptions the modelled code raises.  A message is kept as its
    template and the arguments formatted into it. *)
Inductive exn :=
| AlarmConfigError (template : string) (args : list fmt_arg)
| KeyError (key : string)
| ValueError (literal : string)
| NoSectionError (section : string)
| CommandError (message : string)
| LookupFailure (what : string).

Inductive result (A : Type) :=
| Ok (a : A)
| Raise (e : exn).
Arguments Ok {A} a.
Arguments Raise {A} e.

Definition result_bind {A B} (r : result A) (k : A → result B) : result B :=
  match r with
  | Ok a => k a
  | Raise e => Raise e
  end.

Definition is_ok {A} (r : result A) : bool :=
  match r with Ok _ => true | Raise _ => false end.

Inductive log_level := DEBUG | INFO | WARNING.

Record log_record := LogRecord {
  log_lvl : log_level;
  log_template : string;
  log_args : list fmt_arg
}.

(** ** Dictionaries and truthiness *)

Abbreviation dict := (gmap string string).

(** [dict(items)]: a key given twice keeps its last value. *)
Definition dict_of_items (items : list (string * string)) : dict :=
  foldl (λ d kv, <[kv.1 := kv.2]> d) ∅ items.

(** [d[key]]. *)
Definition getitem (d : dict) (key : string) : result string :=
  match d !! key with
  | Some v => Ok v
  | None => Raise (KeyError key)
  end.

(** [target.update(other)]: the entries of [other] win. *)
Definition dict_update (target other : dict) : dict := other ∪ target.

Definition dict_truthy (d : dict) : bool := negb (bool_decide (d = ∅)).

Definition str_truthy (s : string) : bool := negb (bool_decide (s = EmptyString)).

(** Truth value of an optional string: [None] and [''] are false. *)
Definition opt_truthy (o : option string) : bool :=
  match o with
  | Some s => str_truthy s
  | None => false
  end.

(** ** Module constants *)

Definition NOTIFICATION_LEVELS : list string := ["critical"; "info"].
Definition NOTIFICATION_SECTION_NAME : string := "notifications".
Definition DEFAULT_SECTION_NAME : string := "defaults".

(** ** Collaborators *)

(** The configuration object returned by [read_config]: named sections of
    key/value pairs, in file order. *)
Definition ConfigStore := list (string * list (string * string)).

Definition sections (cfg : ConfigStore) : list string := cfg.*1.

Definition has_section (cfg : ConfigStore) (name : string) : bool :=
  bool_decide (name ∈ sections cfg).

Fixpoint items (cfg : ConfigStore) (name : string) : result (list (string * string)) :=
  match cfg with
  | [] => Raise (NoSectionError name)
  | (n, kvs) :: cfg' => if decide (n = name) then Ok kvs else items cfg' name
  end.

(** The autoscaling collaborator: [get_existing_group(hostclass).name], or
    the exception of a failed lookup. *)
Record Autoscale := {
  get_existing_group_name : string → result string
}.

(** The Elasticsearch collaborator. *)
Record Elasticsearch := {
  get_domain_name : string → result string;
  get_client_id : string → result string
}.

(** Functions the modelled modules take from outside the sources at hand:
    [is_truthy] of [disco_aws_util] (applied to a string, or to the [None] of
    [options.get]), [hashlib.sha256(...).hexdigest()], the constructor
    [DiscoAutoscale(environment_name=...)], and the order in which
    [dict.iteritems()] enumerates a dictionary, of which only that it
    enumerates every entry once is known. *)
Class Externals := {
  is_truthy : option string → bool;
  sha256_hexdigest : string → string;
  DiscoAutoscale : string → Autoscale;
  iteritems : gmap string string → list (string * string);
  iteritems_perm : ∀ d, iteritems d ≡ₚ map_to_list d
}.

(** ** The resolver object, the store and the monad *)

Definition loc := positive.

(** Attributes of a [DiscoAlarmsConfig] instance.  [_defaults] is [None] or
    a reference to a dictionary object; [_autoscale] is [None] until the
    collaborator is supplied or lazily created. *)
Record resolver := Resolver {
  config : ConfigStore;
  environment : string;
  elasticsearch : option Elasticsearch;
  _autoscale : option Autoscale;
  _defaults : option loc
}.

Record world := World {
  heap : gmap loc (gmap string string);
  log : list log_record;
  self : resolver
}.

Definition M (A : Type) : Type := world → result A * world.

Definition raise {A} (e : exn) : M A := λ w, (Raise e, w).

Definition lift {A} (r : result A) : M A := λ w, (r, w).

#[global] Instance M_ret : MRet M := λ A a w, (Ok a, w).

#[global] Instance M_bind : MBind M := λ A B k m w,
  match m w with
  | (Ok a, w') => k a w'
  | (Raise e, w') => (Raise e, w')
  end.

#[global] Instance result_ret : MRet result := λ A a, Ok a.

#[global] Instance result_bind_inst : MBind result := λ A B k r, result_bind r k.

Definition get_self : M resolver := λ w, (Ok (self w), w).

Definition set_self (r : resolver) : M unit :=
  λ w, (Ok tt, World (heap w) (log w) r).

Definition logger (lvl : log_level) (template : string) (args : list fmt_arg) : M unit :=
  λ w, (Ok tt, World (heap w) (log w ++ [LogRecord lvl template args]) (self w)).

(** A new dictionary object with the given content. *)
Definition new_dict (d : dict) : M loc :=
  λ w, let l := fresh (dom (heap w)) in
       (Ok l, World (<[l := d]> (heap w)) (log w) (self w)).

(** The content of a dictionary object. *)
Definition deref (l : loc) : M dict :=
  λ w, (Ok (default ∅ (heap w !! l)), w).

(** In-place change of a dictionary object. *)
Definition mutate (l : loc) (f : dict → dict) : M unit :=
  λ w, (Ok tt, World (<[l := f (default ∅ (heap w !! l))]> (heap w)) (log w) (self w)).

(** [copy.copy(d)] of a dictionary: a new object with the same entries. *)
Definition copy (l : loc) : M loc := d ← deref l; new_dict d.

(** [target.update(other)] *)
Definition update (target : loc) (other : dict) : M unit :=
  mutate target (λ d, dict_update d other).

(** [target[key] = value] *)
Definition setitem (target : loc) (key value : string) : M unit :=
  mutate target (<[key := value]>).

(** ** [disco_elb.py]: load balancer names *)

Module DiscoELB.
Section elb.
Context `{!Externals}.

Definition name_char (c : ascii) : bool :=
      PyStr.is_lower c || PyStr.is_upper c || PyStr.is_digit c || bool_decide (c = "-"%char).

Definition get_elb_name (environment_name hostclass : string) (testing : bool)
      : result string :=
      let name := environment_name ++ "-" ++ hostclass in
      let name := if testing then name ++ "-test" else name in
      let elb_name := PyStr.keep name_char name in
      if (255 <? String.length elb_name)%nat
      then Raise (CommandError ("ELB name " ++ elb_name ++ " is over 255 characters"))
      else Ok elb_name.

Definition get_elb_id (environment_name hostclass : string) (testing : bool)
      : result string :=
      human_elb_name ← get_elb_name environment_name hostclass testing;
      Ok (PyStr.prefix 32 (sha256_hexdigest human_elb_name)).

(** [get_target_group_name]: at most 32 characters, underscores replaced
    by dashes; a longer name is cut to 27 characters and completed with the
    first 5 of its digest. *)
Definition get_target_group_name (environment_name hostclass : string) : string :=
  let target_group_name := environment_name ++ "-" ++ hostclass in
  let target_group_name := PyStr.replace_char "_" "-" target_group_name in
  if (32 <? String.length target_group_name)%nat then
    let truncated_group_name := PyStr.prefix 27 target_group_name in
    let hashed_name := PyStr.prefix 5 (sha256_hexdigest target_group_name) in
    truncated_group_name ++ hashed_name
  else target_group_name.
End elb.
End DiscoELB.

(** ** Python list indexing, guarded by a length test in the source *)

(** [parts[i]] *)
Definition item (parts : list string) (i : nat) : string :=
  default EmptyString (parts !! i).

(** [parts[-1]] *)
Definition last_item (parts : list string) : string :=
  default EmptyString (last parts).

(** [int(s)], raising [ValueError] on a bad literal. *)
Definition to_int (s : string) : result Z :=
  match PyStr.int s with
  | Some z => Ok z
  | None => Raise (ValueError s)
  end.

(** ** [disco_elb.py]: port and protocol configuration of a load balancer *)

Module DiscoELBPortConfig.

Record DiscoELBPortMapping := Mapping {
  internal_port : Z;
  internal_protocol : string;
  external_port : Z;
  external_protocol : string
}.

Record t := Build {
  port_mappings : list DiscoELBPortMapping
}.

(** An element of [izip_longest(xs, ys, fillvalue=None)] for lists that hold
    no [None]: both values, or the one of the longer list. *)
Inductive zipped (X Y : Type) :=
| Both (x : X) (y : Y)
| OnlyX (x : X)
| OnlyY (y : Y).
Arguments Both {X Y} x y.
Arguments OnlyX {X Y} x.
Arguments OnlyY {X Y} y.

Fixpoint izip_longest {X Y} (xs : list X) (ys : list Y) : list (zipped X Y) :=
  match xs with
  | [] => OnlyY <$> ys
  | x :: xs' =>
      match ys with
      | [] => OnlyX <$> xs
      | y :: ys' => Both x y :: izip_longest xs' ys'
      end
  end.

(** A list comprehension whose element expression may raise. *)
Fixpoint comprehension {A B} (f : A → result B) (l : list A) : result (list B) :=
  match l with
  | [] => Ok []
  | a :: l' => b ← f a; bs ← comprehension f l'; Ok (b :: bs)
  end.

Definition _zip_with_defaults {X Y} (x_things : list X) (y_things : list Y)
    (default_x : Y → result X) (default_y : X → result Y) : result (list (X * Y)) :=
  comprehension
    (λ xy, match xy with
           | Both x y => Ok (x, y)
           | OnlyX x => y ← default_y x; Ok (x, y)
           | OnlyY y => x ← default_x y; Ok (x, y)
           end)
    (izip_longest x_things y_things).

Definition _default_protocol_for_port (port : Z) : string :=
  if (port =? 80)%Z then "HTTP" else if (port =? 443)%Z then "HTTPS" else "TCP".

Definition _default_port_for_protocol (protocol : string) : result Z :=
  if bool_decide (protocol = "HTTP") then Ok 80%Z
  else if bool_decide (protocol = "HTTPS") then Ok 443%Z
  else Raise (KeyError protocol).

(** [disco_aws] is represented by its method
    [hostclass_option_default(hostclass, option, default)]. *)
Definition _list_from_hostclass_option (disco_aws : string → string → string → string)
    (hostclass option : string) : list string :=
  let values := disco_aws hostclass option EmptyString in
  if str_truthy values then PyStr.split "," values else [].

Definition _protocols_by_port (disco_aws : string → string → string → string)
    (hostclass config_prefix : string) : result (list (Z * string)) :=
  ports ← comprehension to_int
             (_list_from_hostclass_option disco_aws hostclass (config_prefix ++ "_port"));
  let protocols :=
    _list_from_hostclass_option disco_aws hostclass (config_prefix ++ "_protocol") in
  let protocols := (λ protocol, PyStr.upper (PyStr.strip protocol)) <$> protocols in
  pairs ← _zip_with_defaults ports protocols _default_port_for_protocol
             (λ port, Ok (_default_protocol_for_port port));
  Ok (match pairs with
      | [] => [(80%Z, "HTTP")]
      | _ => pairs
      end).

Definition from_config (disco_aws : string → string → string → string)
    (hostclass : string) : result t :=
  internal_ports_by_protocol ← _protocols_by_port disco_aws hostclass "elb_instance";
  external_ports_by_protocol ← _protocols_by_port disco_aws hostclass "elb";
  combined ←
    match internal_ports_by_protocol with
    | [first] =>
        _zip_with_defaults internal_ports_by_protocol external_ports_by_protocol
          (λ _, Ok first) (λ _, Ok first)
    | _ =>
        _zip_with_defaults internal_ports_by_protocol external_ports_by_protocol
          (λ x, Ok x) (λ x, Ok x)
    end;
  Ok (Build ((λ p, Mapping p.1.1 p.1.2 p.2.1 p.2.2) <$> combined)).

End DiscoELBPortConfig.

(** ** [DiscoAlarmConfig]: one alarm and its options *)

Module DiscoAlarmConfig.

Record t := Build {
    namespace : string;
    metric_name : string;
    hostclass : string;
    environment : string;
    team : string;
    duration : Z;
    period : Z;
    statistic : string;
    custom_metric : bool;
    log_pattern_metric : bool;
    autoscaling_group_name : option string;
    es_domain_name : option string;
    es_client_id : option string;
    _level : string;
    threshold : Z;
    threshold_type : string
  }.

Section methods.
Context `{!Externals}.

Definition __init__ (options : dict) (maximum : bool) : M t :=
      namespace ← lift (getitem options "namespace");
      metric_name ← lift (getitem options "metric_name");
      hostclass ← lift (getitem options "hostclass");
      environment ← lift (getitem options "environment");
      team ← lift (getitem options "team");
      duration ← lift (getitem options "duration" ≫= to_int);
      period ← lift (getitem options "period" ≫= to_int);
      statistic ← lift (getitem options "statistic");
      custom ← lift (getitem options "custom_metric");
      let custom_metric := bool_decide (PyStr.lower custom = "true") in
      let log_pattern_metric :=
        is_truthy (Some (default EmptyString (options !! "log_pattern_metric"))) in
      let autoscaling_group_name := options !! "autoscaling_group_name" in
      let es_domain_name := options !! "es_domain_name" in
      let es_client_id := options !! "es_client_id" in
      level ← lift (getitem options "level");
      (if bool_decide (level ∈ NOTIFICATION_LEVELS) then mret tt
       else raise (AlarmConfigError "Level for {0} must be one of {1}"
                     [FStr metric_name; FList NOTIFICATION_LEVELS]));;
      level ← lift (getitem options "level");
      if maximum then
        v ← lift (getitem options "threshold_max");
        logger DEBUG "threshold_max: %s" [FStr v];;
        v ← lift (getitem options "threshold_max");
        threshold ← lift (to_int v);
        mret (Build namespace metric_name hostclass environment team duration period
                statistic custom_metric log_pattern_metric autoscaling_group_name
                es_domain_name es_client_id level threshold "max")
      else
        v ← lift (getitem options "threshold_min");
        logger DEBUG "threshold_min: %s" [FStr v];;
        v ← lift (getitem options "threshold_min");
        threshold ← lift (to_int v);
        mret (Build namespace metric_name hostclass environment team duration period
                statistic custom_metric log_pattern_metric autoscaling_group_name
                es_domain_name es_client_id level threshold "min").

    (** The [dimensions] property.  A value is [None] where the attribute it
        is read from is [None]. *)
Definition dimensions (a : t) : result (gmap string (option string)) :=
      if log_pattern_metric a then Ok ∅
      else if bool_decide (namespace a = "AWS/RDS") then
        let key := "DBInstanceIdentifier" in
        let value := PyStr.join "-" [environment a; hostclass a] in
        Ok {[key := Some value]}
      else if bool_decide (namespace a = "AWS/ELB") then
        elb_id ← DiscoELB.get_elb_id (environment a) (hostclass a) false;
        Ok {["LoadBalancerName" := Some elb_id]}
      else if bool_decide (namespace a = "AWS/ES") then
        Ok (<["DomainName" := es_domain_name a]> {["ClientId" := es_client_id a]})
      else if custom_metric a then
        Ok {["env_hostclass" := Some (PyStr.join "_" [environment a; hostclass a])]}
      else
        Ok {["AutoScalingGroupName" := autoscaling_group_name a]}.

Definition notification_topic (a : t) : string :=
      PyStr.join "_" [team a; environment a; _level a].

Definition name (a : t) : string :=
      PyStr.join "_" [team a; environment a; hostclass a; metric_name a; threshold_type a].

Definition decode_alarm_name (name : string) : M (gmap string (option string)) :=
      let parts := PyStr.split "_" name in
      if (5 <=? length parts)%nat then
        mret (<["team" := Some (item parts 0)]>
             (<["env" := Some (item parts 1)]>
             (<["hostclass" := Some (item parts 2)]>
             (<["metric_name" := Some (PyStr.join "_" (slice_to_last 3 parts))]>
             (<["threshold_type" := Some (last_item parts)]> ∅)))))
      else if (length parts =? 4)%nat then
        mret (<["team" := None]>
             (<["env" := Some (item parts 0)]>
             (<["hostclass" := Some (item parts 1)]>
             (<["metric_name" := Some (item parts 2)]>
             (<["threshold_type" := Some (item parts 3)]> ∅)))))
      else
        logger WARNING "Skipping unparsable alarm name: %s" [FStr name];;
        mret ∅.
End methods.

End DiscoAlarmConfig.

(** ** [DiscoNotification] *)

Record DiscoNotification := Notification {
  notification_name : string;
  endpoints : list string
}.

(** ** [DiscoAlarmsConfig]: all alarms of the configuration file *)

Module DiscoAlarmsConfig.

  (** [DiscoAlarmsConfig.__init__]: the attributes of a new resolver, with the
      configuration already read. *)
Definition __init__ (environment : string) (config : ConfigStore)
      (autoscale : option Autoscale) (elasticsearch : option Elasticsearch) : resolver :=
    Resolver config environment elasticsearch autoscale None.

Definition set__defaults (l : loc) : M unit :=
    s ← get_self;
    set_self (Resolver (config s) (environment s) (elasticsearch s) (_autoscale s) (Some l)).

Definition set__autoscale (a : Autoscale) : M unit :=
    s ← get_self;
    set_self (Resolver (config s) (environment s) (elasticsearch s) (Some a) (_defaults s)).

  (** [self.config.items(section)] *)
Definition config_items (section : string) : M (list (string * string)) :=
    s ← get_self; lift (items (config s) section).

  (** [self.config.has_section(section)] *)
Definition config_has_section (section : string) : M bool :=
    s ← get_self; mret (has_section (config s) section).

Section methods.
Context `{!Externals}.

    (** [dict(self.config.items(DEFAULT_SECTION_NAME)) or {}] *)
Definition get_defaults : M loc :=
      kvs ← config_items DEFAULT_SECTION_NAME;
      l ← new_dict (dict_of_items kvs);
      d ← deref l;
      if dict_truthy d then mret l else new_dict ∅.

    (** The [defaults] property:
        [self._defaults = self._defaults or self.get_defaults()]. *)
Definition defaults : M loc :=
      s ← get_self;
      memo ← match _defaults s with
             | Some l => d ← deref l; mret (if dict_truthy d then Some l else None)
             | None => mret None
             end;
      l ← match memo with
          | Some l => mret l
          | None => get_defaults
          end;
      set__defaults l;;
      mret l.

    (** The [autoscale] property. *)
Definition autoscale : M Autoscale :=
      s ← get_self;
      match _autoscale s with
      | Some a => mret a
      | None =>
          let a := DiscoAutoscale (environment s) in
          set__autoscale a;;
          mret a
      end.

Definition _decode_section_name (section : string)
      : result (string * string * string * option string) :=
      let section_segments := PyStr.split "." section in
      if (4 <=? length section_segments)%nat then
        let team := item section_segments 0 in
        let namespace := item section_segments 1 in
        let metric_name := PyStr.join "." (slice_to_last 2 section_segments) in
        let section_hostclass := last_item section_segments in
        Ok (team, namespace, metric_name, Some section_hostclass)
      else if (length section_segments =? 3)%nat then
        Ok (item section_segments 0, item section_segments 1, item section_segments 2, None)
      else
        Raise (AlarmConfigError "Skipping non-alarm like config section {0}." [FStr section]).

    (** Lines 266-291 of [_get_alarm_specification_dict], reached from both
        branches once the sections are merged into [options]. *)
Definition _finish_specification (team namespace metric_name hostclass : string)
        (autoscaling_group_name : option string) (options : loc) : M (option loc) :=
      s ← get_self;
      setitem options "team" team;;
      setitem options "namespace" namespace;;
      setitem options "metric_name" metric_name;;
      setitem options "hostclass" hostclass;;
      setitem options "environment" (environment s);;
      (if opt_truthy autoscaling_group_name then
         setitem options "autoscaling_group_name" (default EmptyString autoscaling_group_name)
       else if bool_decide (namespace = "AWS/EC2") then
         a ← autoscale;
         group_name ← lift (get_existing_group_name a hostclass);
         setitem options "autoscaling_group_name" group_name
       else mret tt);;
      (match elasticsearch s with
       | Some es =>
           if bool_decide (namespace = "AWS/ES") then
             domain_name ← lift (get_domain_name es hostclass);
             setitem options "es_domain_name" domain_name;;
             client_id ← lift (get_client_id es domain_name);
             setitem options "es_client_id" client_id
           else mret tt
       | None => mret tt
       end);;
      o ← deref options;
      (if is_truthy (o !! "log_pattern_metric") then
         setitem options "namespace" (namespace ++ "/" ++ environment s);;
         setitem options "metric_name" (hostclass ++ "-" ++ metric_name)
       else mret tt);;
      mret (Some options).

Definition _get_alarm_specification_dict (team namespace metric_name hostclass : string)
        (hostclass_specific : bool) (autoscaling_group_name : option string)
      : M (option loc) :=
      d ← defaults;
      options ← copy d;
      let parent_section_name := PyStr.join "." [team; namespace; metric_name] in
      let child_section_name := PyStr.join "." [team; namespace; metric_name; hostclass] in
      if hostclass_specific then
        has_parent ← config_has_section parent_section_name;
        (if has_parent : bool then
           parent_options ← config_items parent_section_name;
           update options (dict_of_items parent_options)
         else mret tt : M unit);;
        child_options ← config_items child_section_name;
        update options (dict_of_items child_options);;
        _finish_specification team namespace metric_name hostclass autoscaling_group_name options
      else
        has_child ← config_has_section child_section_name;
        if has_child : bool then mret None
        else
          parent_options ← config_items parent_section_name;
          update options (dict_of_items parent_options);;
          _finish_specification team namespace metric_name hostclass autoscaling_group_name
            options.

    (** The loop over [["threshold_max", "threshold_min"]] of [get_alarms]. *)
Fixpoint thresholds_loop (keys : list string) (options : loc)
        (alarms : list DiscoAlarmConfig.t) : M (list DiscoAlarmConfig.t) :=
      match keys with
      | [] => mret alarms
      | threshold :: keys' =>
          o ← deref options;
          match o !! threshold with
          | Some v =>
              if PyStr.isdigit v then
                a ← DiscoAlarmConfig.__init__ o (bool_decide (threshold = "threshold_max"));
                thresholds_loop keys' options (alarms ++ [a])
              else
                raise (AlarmConfigError "Not a valid threshold value for {0}: {1}"
                         [FStr threshold; FDict o])
          | None => thresholds_loop keys' options alarms
          end
      end.

    (** One iteration of the loop over [self.config.sections()] of
        [get_alarms]; [continue] returns the alarms collected so far. *)
Definition get_alarms_section (hostclass : string)
        (autoscaling_group_name : option string) (section : string)
        (alarms : list DiscoAlarmConfig.t) : M (list DiscoAlarmConfig.t) :=
      match _decode_section_name section with
      | Raise (AlarmConfigError template args) =>
          if bool_decide (section ∈ [NOTIFICATION_SECTION_NAME; DEFAULT_SECTION_NAME])
          then mret alarms
          else raise (AlarmConfigError template args)
      | Raise e => raise e
      | Ok (team, namespace, metric_name, section_hostclass) =>
          if opt_truthy section_hostclass && negb (bool_decide (section_hostclass = Some hostclass))
          then mret alarms
          else
            s ← get_self;
            if bool_decide (namespace = "AWS/ES") && negb (bool_decide (is_Some (elasticsearch s)))
            then
              logger INFO
                "Skipping creation of %s.%s.%s.%s because no Elasticsearch object was provided"
                [FStr team; FStr namespace; FStr metric_name; FOpt section_hostclass];;
              mret alarms
            else
              options ← _get_alarm_specification_dict team namespace metric_name hostclass
                          (bool_decide (section_hostclass = Some hostclass))
                          autoscaling_group_name;
              match options with
              | None => mret alarms
              | Some l =>
                  o ← deref l;
                  if negb (dict_truthy o) then mret alarms
                  else thresholds_loop ["threshold_max"; "threshold_min"] l alarms
              end
      end.

Fixpoint for_sections (body : string → list DiscoAlarmConfig.t → M (list DiscoAlarmConfig.t))
        (ss : list string) (alarms : list DiscoAlarmConfig.t) : M (list DiscoAlarmConfig.t) :=
      match ss with
      | [] => mret alarms
      | section :: ss' => alarms' ← body section alarms; for_sections body ss' alarms'
      end.

Definition get_alarms (hostclass : string) (autoscaling_group_name : option string)
      : M (list DiscoAlarmConfig.t) :=
      s ← get_self;
      for_sections (get_alarms_section hostclass autoscaling_group_name)
        (sections (config s)) [].

    (** The loop of [get_notifications] over the entries of the section. *)
Fixpoint notifications_loop (environment : string) (entries : list (string * string))
        (notifications : list DiscoNotification) : result (list DiscoNotification) :=
      match entries with
      | [] => Ok notifications
      | (notification_name, endpoint_str) :: entries' =>
          let notification_parts := PyStr.split "_" notification_name in
          if (length notification_parts <? 3)%nat then
            Raise (AlarmConfigError
                     "Underscores must separate team name, env name and notification level: %s"
                     [FStr notification_name])
          else
            let level := last_item notification_parts in
            let env := item notification_parts 1 in
            if negb (bool_decide (env = environment)) then
              notifications_loop environment entries' notifications
            else if negb (bool_decide (level ∈ NOTIFICATION_LEVELS)) then
              Raise (AlarmConfigError "Unsupported notification level: %s" [FStr level])
            else
              let endpoints := PyStr.split "," endpoint_str in
              notifications_loop environment entries'
                (notifications ++ [Notification notification_name endpoints])
      end.

Definition get_notifications : M (list DiscoNotification) :=
      kvs ← config_items NOTIFICATION_SECTION_NAME;
      let options := dict_of_items kvs in
      s ← get_self;
      lift (notifications_loop (environment s) (iteritems options) []).
End methods.

End DiscoAlarmsConfig.

(** * Properties *)

(** ** Splitting and joining *)

Section split_join.
Implicit Types (sep c : ascii) (s p : string) (parts : list string).

Lemma append_assoc (s1 s2 s3 : string) : (s1 ++ s2) ++ s3 = s1 ++ (s2 ++ s3).
  Proof.
    induction s1 as [|c s1 IH]; [done|].
    change (String c ((s1 ++ s2) ++ s3) = String c (s1 ++ s2 ++ s3)). by rewrite IH.
  Qed.

Lemma split_not_nil sep s : PyStr.split sep s ≠ [].
  Proof.
    destruct s as [|c s]; simpl; [done|].
    case_decide; [done|]. by destruct (PyStr.split sep s).
  Qed.

Lemma split_length_pos sep s : (1 ≤ length (PyStr.split sep s))%nat.
  Proof.
    pose proof (split_not_nil sep s) as H.
    destruct (PyStr.split sep s); [done|simpl; lia].
  Qed.

Lemma split_no_sep sep s : PyStr.contains sep s = false → PyStr.split sep s = [s].
  Proof.
    induction s as [|c s IH]; simpl; [done|].
    intros [Hc Hs]%orb_false_elim.
    apply bool_decide_eq_false in Hc.
    rewrite decide_False by done. by rewrite IH.
  Qed.

Lemma split_app_sep sep p s :
    PyStr.contains sep p = false →
    PyStr.split sep (p ++ String sep s) = p :: PyStr.split sep s.
  Proof.
    induction p as [|c p IH]; simpl.
    - intros _. by rewrite decide_True.
    - intros [Hc Hp]%orb_false_elim.
      apply bool_decide_eq_false in Hc.
      rewrite decide_False by done. by rewrite IH.
  Qed.

Lemma split_app_sep' sep p s :
    PyStr.contains sep p = false →
    PyStr.split sep (p ++ String sep EmptyString ++ s) = p :: PyStr.split sep s.
  Proof. apply split_app_sep. Qed.

  (** Splitting undoes joining as soon as no part contains the separator. *)
Lemma split_join sep parts :
    parts ≠ [] →
    Forall (λ p, PyStr.contains sep p = false) parts →
    PyStr.split sep (PyStr.join (String sep EmptyString) parts) = parts.
  Proof.
    induction parts as [|p [|q parts] IH]; [done| |].
    - intros _ [Hp _]%Forall_cons. simpl. by apply split_no_sep.
    - intros _ [Hp Hrest]%Forall_cons.
      change (PyStr.join (String sep EmptyString) (p :: q :: parts))
        with (p ++ String sep (PyStr.join (String sep EmptyString) (q :: parts))).
      rewrite split_app_sep by done. f_equal. by apply IH.
  Qed.

  (** Joining undoes splitting, always. *)
Lemma join_split sep s :
    PyStr.join (String sep EmptyString) (PyStr.split sep s) = s.
  Proof.
    induction s as [|c s IH]; simpl; [done|].
    case_decide as Hc.
    - subst c. pose proof (split_not_nil sep s) as Hne.
      destruct (PyStr.split sep s) as [|q qs] eqn:E; [done|].
      simpl in *. by rewrite IH.
    - pose proof (split_not_nil sep s) as Hne.
      destruct (PyStr.split sep s) as [|q [|q' qs]] eqn:E; [done| |].
      + simpl in *. by rewrite IH.
      + simpl in *. by rewrite <- IH.
  Qed.

Lemma split_parts_no_sep sep s :
    Forall (λ p, PyStr.contains sep p = false) (PyStr.split sep s).
  Proof.
    induction s as [|c s IH]; simpl.
    - by constructor.
    - case_decide as Hc.
      + by constructor.
      + pose proof (split_not_nil sep s) as Hne.
        destruct (PyStr.split sep s) as [|q qs]; [done|].
        apply Forall_cons in IH as [Hq Hqs]. constructor; [|done].
        simpl. rewrite Hq. by rewrite bool_decide_eq_false_2.
  Qed.

Lemma contains_app sep s1 s2 :
    PyStr.contains sep (s1 ++ s2) = PyStr.contains sep s1 || PyStr.contains sep s2.
  Proof.
    induction s1 as [|c s1 IH]; simpl; [done|]. by rewrite IH, orb_assoc.
  Qed.

Lemma slice_to_last_snoc {A} (i : nat) (l : list A) (x : A) :
    slice_to_last i (l ++ [x]) = drop i l.
  Proof.
    unfold slice_to_last. rewrite length_app. simpl.
    replace (length l + 1 - 1)%nat with (length l) by lia.
    by rewrite take_app_length.
  Qed.

Lemma last_item_snoc parts p : last_item (parts ++ [p]) = p.
  Proof. unfold last_item. by rewrite last_snoc. Qed.
End split_join.

(** ** Alarm names: [name] and [decode_alarm_name] *)

Section alarm_names.
Implicit Types (w : world) (a : DiscoAlarmConfig.t).

  (** The world a call of [decode_alarm_name] leaves when it logs its
      warning. *)
Definition warned (name : string) (w : world) : world :=
    World (heap w)
      (log w ++ [LogRecord WARNING "Skipping unparsable alarm name: %s" [FStr name]])
      (self w).

  (** The dictionary [decode_alarm_name] returns for the five fields. *)
Definition decoded (team : option string) (env hostclass metric_name threshold_type : string)
    : gmap string (option string) :=
    <["team" := team]>
      (<["env" := Some env]>
      (<["hostclass" := Some hostclass]>
      (<["metric_name" := Some metric_name]>
      (<["threshold_type" := Some threshold_type]> ∅)))).

Lemma decode_alarm_name_long name w team env hostclass m mid tt :
    PyStr.split "_" name = team :: env :: hostclass :: (m :: mid) ++ [tt] →
    DiscoAlarmConfig.decode_alarm_name name w
    = (Ok (decoded (Some team) env hostclass (PyStr.join "_" (m :: mid)) tt), w).
  Proof.
    intros Hparts. unfold DiscoAlarmConfig.decode_alarm_name. rewrite Hparts.
    replace (5 <=? length (team :: env :: hostclass :: (m :: mid) ++ [tt]))%nat with true
      by (symmetry; apply Nat.leb_le; simpl; rewrite length_app; simpl; lia).
    change (team :: env :: hostclass :: (m :: mid) ++ [tt])
      with ((team :: env :: hostclass :: m :: mid) ++ [tt])%list.
    rewrite slice_to_last_snoc, last_item_snoc. reflexivity.
  Qed.

Lemma decode_alarm_name_short name w :
    (length (PyStr.split "_" name) < 4)%nat →
    DiscoAlarmConfig.decode_alarm_name name w = (Ok ∅, warned name w).
  Proof.
    intros Hlen. unfold DiscoAlarmConfig.decode_alarm_name.
    replace (5 <=? length (PyStr.split "_" name))%nat with false
      by (symmetry; apply Nat.leb_gt; lia).
    replace (length (PyStr.split "_" name) =? 4)%nat with false
      by (symmetry; apply Nat.eqb_neq; lia).
    reflexivity.
  Qed.

  (** C5. [decode_alarm_name] splits the name on '_'.  With five or more
      segments the first three are team, env and hostclass, the last one is
      the threshold type and the segments in between, joined with '_', are the
      metric name; with exactly four segments the team is [None] and the
      segments are env, hostclass, metric name and threshold type; with fewer
      than four the result is the empty dictionary, one warning is logged and
      no exception is raised.  Nothing but the log is ever changed. *)
Theorem decode_alarm_name_spec (name : string) (w : world) :
    (∀ team env hostclass m mid tt,
        PyStr.split "_" name = team :: env :: hostclass :: (m :: mid) ++ [tt] →
        DiscoAlarmConfig.decode_alarm_name name w
        = (Ok (decoded (Some team) env hostclass (PyStr.join "_" (m :: mid)) tt), w)) ∧
    (∀ env hostclass metric tt,
        PyStr.split "_" name = [env; hostclass; metric; tt] →
        DiscoAlarmConfig.decode_alarm_name name w
        = (Ok (decoded None env hostclass metric tt), w)) ∧
    ((length (PyStr.split "_" name) < 4)%nat →
        DiscoAlarmConfig.decode_alarm_name name w = (Ok ∅, warned name w)).
  Proof.
    split; [|split].
    - intros. by apply decode_alarm_name_long.
    - intros env hostclass metric tt Hparts.
      unfold DiscoAlarmConfig.decode_alarm_name. by rewrite Hparts.
    - apply decode_alarm_name_short.
  Qed.

  (** The three cases of C5 on concrete names. *)
Lemma decode_alarm_name_spec_witness :
    let w := World ∅ [] (DiscoAlarmsConfig.__init__ "ci" [] None None) in
    DiscoAlarmConfig.decode_alarm_name "team_env_host_cpu_load_max" w
    = (Ok (decoded (Some "team") "env" "host" "cpu_load" "max"), w) ∧
    DiscoAlarmConfig.decode_alarm_name "env_host_metric_max" w
    = (Ok (decoded None "env" "host" "metric" "max"), w) ∧
    DiscoAlarmConfig.decode_alarm_name "a_b" w = (Ok ∅, warned "a_b" w).
  Proof.
    intros w. split; [|split].
    - apply (proj1 (decode_alarm_name_spec "team_env_host_cpu_load_max" w)
               "team" "env" "host" "cpu" ["load"] "max"). reflexivity.
    - apply (proj1 (proj2 (decode_alarm_name_spec "env_host_metric_max" w))
               "env" "host" "metric" "max"). reflexivity.
    - apply (proj2 (proj2 (decode_alarm_name_spec "a_b" w))). simpl. lia.
  Defined.

  (** The fields an alarm's name encodes, as [decode_alarm_name] reports
      them. *)
Definition name_fields a : gmap string (option string) :=
    decoded (Some (DiscoAlarmConfig.team a)) (DiscoAlarmConfig.environment a)
      (DiscoAlarmConfig.hostclass a) (DiscoAlarmConfig.metric_name a)
      (DiscoAlarmConfig.threshold_type a).

  (** Encoding then decoding gives the five fields back. *)
Definition round_trip a : Prop :=
    ∀ w, DiscoAlarmConfig.decode_alarm_name (DiscoAlarmConfig.name a) w = (Ok (name_fields a), w).

Definition no_underscore (s : string) : Prop := PyStr.contains "_" s = false.

  (** The fields other than the metric name are non-empty and free of
      underscores; the metric name is non-empty. *)
Definition plain_fields a : Prop :=
    Forall (λ s, s ≠ EmptyString ∧ no_underscore s)
      [DiscoAlarmConfig.team a; DiscoAlarmConfig.environment a;
       DiscoAlarmConfig.hostclass a; DiscoAlarmConfig.threshold_type a] ∧
    DiscoAlarmConfig.metric_name a ≠ EmptyString.

Definition sample_alarm (team environment hostclass metric_name threshold_type : string)
    : DiscoAlarmConfig.t :=
    DiscoAlarmConfig.Build "AWS/EC2" metric_name hostclass environment team 5 60 "Average"
      false false None None None "critical" 80 threshold_type.

Lemma join_app_snoc (xs : list string) (x y : string) :
    PyStr.join "_" (x :: xs ++ [y]) = PyStr.join "_" (x :: xs) ++ "_" ++ y.
  Proof.
    revert x. induction xs as [|z xs IH]; intros x; [done|].
    change (PyStr.join "_" (x :: (z :: xs) ++ [y]))
      with (x ++ "_" ++ PyStr.join "_" (z :: xs ++ [y])).
    rewrite IH.
    change (PyStr.join "_" (x :: z :: xs)) with (x ++ "_" ++ PyStr.join "_" (z :: xs)).
    by rewrite !append_assoc.
  Qed.

  (** Splitting [m ++ "_" ++ tt] when [tt] has no underscore: the segments of
      [m], then [tt]. *)
Lemma split_snoc_segment (m tt : string) :
    no_underscore tt →
    PyStr.split "_" (m ++ "_" ++ tt) = (PyStr.split "_" m ++ [tt])%list.
  Proof.
    intros Htt. induction m as [|c m IH]; simpl.
    - f_equal. by apply split_no_sep.
    - case_decide; [by rewrite IH|].
      simpl in IH. rewrite IH.
      pose proof (split_not_nil "_" m) as Hne.
      by destruct (PyStr.split "_" m).
  Qed.

Lemma name_split a :
    no_underscore (DiscoAlarmConfig.team a) →
    no_underscore (DiscoAlarmConfig.environment a) →
    no_underscore (DiscoAlarmConfig.hostclass a) →
    no_underscore (DiscoAlarmConfig.threshold_type a) →
    PyStr.split "_" (DiscoAlarmConfig.name a)
    = DiscoAlarmConfig.team a :: DiscoAlarmConfig.environment a :: DiscoAlarmConfig.hostclass a
        :: PyStr.split "_" (DiscoAlarmConfig.metric_name a) ++ [DiscoAlarmConfig.threshold_type a].
  Proof.
    intros Ht He Hh Htt. unfold DiscoAlarmConfig.name.
    cbn [PyStr.join].
    rewrite (split_app_sep' "_" (DiscoAlarmConfig.team a)) by done.
    rewrite (split_app_sep' "_" (DiscoAlarmConfig.environment a)) by done.
    rewrite (split_app_sep' "_" (DiscoAlarmConfig.hostclass a)) by done.
    by rewrite split_snoc_segment.
  Qed.

  (** C6, as the code has it.  When team, environment, hostclass and
      threshold type contain no underscore, decoding the encoded name gives
      the five fields back for every metric name, with or without
      underscores. *)
Theorem round_trip_any_metric_name a :
    no_underscore (DiscoAlarmConfig.team a) →
    no_underscore (DiscoAlarmConfig.environment a) →
    no_underscore (DiscoAlarmConfig.hostclass a) →
    no_underscore (DiscoAlarmConfig.threshold_type a) →
    round_trip a.
  Proof.
    intros Ht He Hh Htt w.
    pose proof (name_split a Ht He Hh Htt) as Hsplit.
    pose proof (split_not_nil "_" (DiscoAlarmConfig.metric_name a)) as Hne.
    pose proof (join_split "_" (DiscoAlarmConfig.metric_name a)) as Hjoin.
    destruct (PyStr.split "_" (DiscoAlarmConfig.metric_name a)) as [|m mid]; [done|].
    rewrite (decode_alarm_name_long _ w _ _ _ _ _ _ Hsplit).
    unfold name_fields.
    change (String "_" EmptyString) with "_" in Hjoin. by rewrite Hjoin.
  Qed.

Lemma round_trip_any_metric_name_witness :
    round_trip (sample_alarm "team" "prod" "mhcweb" "cpu_load_avg" "max").
  Proof. apply round_trip_any_metric_name; reflexivity. Defined.

  (** C6 as claimed fails: the round trip is not limited to metric names
      without underscores.  The alarm of team [t], environment [e], hostclass
      [h], metric [a_b] and type [max] is named [t_e_h_a_b_max], which decodes
      to the same five fields. *)
Lemma round_trip_not_only_without_underscore :
    ¬ (∀ a, plain_fields a → (round_trip a ↔ no_underscore (DiscoAlarmConfig.metric_name a))).
  Proof.
    intros Hclaim.
    specialize (Hclaim (sample_alarm "t" "e" "h" "a_b" "max")).
    assert (plain_fields (sample_alarm "t" "e" "h" "a_b" "max")) as Hplain.
    { split; [|done]. repeat constructor; done. }
    apply Hclaim in Hplain as [Honly _].
    assert (no_underscore "a_b") as Hno; [|done].
    apply Honly. intros w. reflexivity.
  Qed.

  (** What the round trip does depend on: an underscore in the team is
      decoded as a field boundary. *)
Lemma round_trip_fails_on_team_underscore :
    ¬ round_trip (sample_alarm "my_team" "prod" "web" "cpu" "max").
  Proof.
    intros H. specialize (H (World ∅ [] (DiscoAlarmsConfig.__init__ "ci" [] None None))).
    apply (f_equal (λ p, match p.1 with Ok d => d !! "team" | Raise _ => None end)) in H.
    vm_compute in H. discriminate.
  Qed.
End alarm_names.

(** ** A concrete instance of the external functions *)

Definition YES_LIST : list string := ["true"; "yes"; "t"; "y"; "aye"; "1"].

(** An instance used to evaluate the model on examples: [is_truthy] tests
    membership of the lower-cased string in [YES_LIST] of [disco_constants.py],
    the digest is a stand-in that returns its argument, the autoscaling group of
    a hostclass is named after it, and dictionaries are enumerated in key
    order. *)
Definition sample_externals : Externals := {|
  is_truthy o :=
    match o with
    | Some s => bool_decide (PyStr.lower s ∈ YES_LIST)
    | None => false
    end;
  sha256_hexdigest s := s;
  DiscoAutoscale env := {| get_existing_group_name h := Ok (env ++ "_" ++ h) |};
  iteritems d := map_to_list d;
  iteritems_perm d := reflexivity (map_to_list d)
|}.

(** A resolver for environment [env] over [cfg] and the world it starts in. *)
Definition fresh_world (env : string) (cfg : ConfigStore) : world :=
  World ∅ [] (DiscoAlarmsConfig.__init__ env cfg None None).

(** ** The alarm constructor *)

Section constructor.
Context `{!Externals}.
Implicit Types (o : gmap string string) (w : world) (a : DiscoAlarmConfig.t).

  (** The threshold option the constructor reads. *)
Definition threshold_key (maximum : bool) : string :=
    if maximum then "threshold_max" else "threshold_min".

  (** What [DiscoAlarmConfig(options, maximum)] returns or raises, the log
      left aside. *)
Definition construct o (maximum : bool) : result DiscoAlarmConfig.t :=
    namespace ← getitem o "namespace";
    metric_name ← getitem o "metric_name";
    hostclass ← getitem o "hostclass";
    environment ← getitem o "environment";
    team ← getitem o "team";
    duration ← getitem o "duration" ≫= to_int;
    period ← getitem o "period" ≫= to_int;
    statistic ← getitem o "statistic";
    custom ← getitem o "custom_metric";
    level ← getitem o "level";
    if bool_decide (level ∈ NOTIFICATION_LEVELS) then
      threshold ← getitem o (threshold_key maximum) ≫= to_int;
      Ok (DiscoAlarmConfig.Build namespace metric_name hostclass environment team duration
            period statistic (bool_decide (PyStr.lower custom = "true"))
            (is_truthy (Some (default EmptyString (o !! "log_pattern_metric"))))
            (o !! "autoscaling_group_name") (o !! "es_domain_name") (o !! "es_client_id")
            level threshold (if maximum then "max" else "min"))
    else Raise (AlarmConfigError "Level for {0} must be one of {1}"
                  [FStr metric_name; FList NOTIFICATION_LEVELS]).

  (** The constructor changes nothing but the log, and its outcome does not
      depend on the world it runs in. *)
Lemma init_run o maximum w :
    (DiscoAlarmConfig.__init__ o maximum w).1 = construct o maximum ∧
    heap (DiscoAlarmConfig.__init__ o maximum w).2 = heap w ∧
    self (DiscoAlarmConfig.__init__ o maximum w).2 = self w.
  Proof.
    unfold DiscoAlarmConfig.__init__, construct, threshold_key, mbind, M_bind,
      result_bind_inst, result_bind, lift, mret, M_ret, raise, logger.
    repeat match goal with
           | |- context [getitem o ?k] => destruct (getitem o k) as [?|?]; simpl; [|done]
           | |- context [to_int ?v] => destruct (to_int v) as [?|?]; simpl; [|done]
           end.
    case_bool_decide; simpl; [|done].
    destruct maximum; simpl.
    - destruct (getitem o "threshold_max") as [v|]; simpl; [|done].
      by destruct (to_int v).
    - destruct (getitem o "threshold_min") as [v|]; simpl; [|done].
      by destruct (to_int v).
  Qed.

Lemma construct_fields o maximum a :
    construct o maximum = Ok a →
    o !! "namespace" = Some (DiscoAlarmConfig.namespace a) ∧
    o !! "metric_name" = Some (DiscoAlarmConfig.metric_name a) ∧
    o !! "hostclass" = Some (DiscoAlarmConfig.hostclass a) ∧
    o !! "environment" = Some (DiscoAlarmConfig.environment a) ∧
    o !! "team" = Some (DiscoAlarmConfig.team a) ∧
    (getitem o "duration" ≫= to_int) = Ok (DiscoAlarmConfig.duration a) ∧
    (getitem o "period" ≫= to_int) = Ok (DiscoAlarmConfig.period a) ∧
    (getitem o (threshold_key maximum) ≫= to_int) = Ok (DiscoAlarmConfig.threshold a) ∧
    DiscoAlarmConfig.threshold_type a = (if maximum then "max" else "min") ∧
    DiscoAlarmConfig._level a ∈ NOTIFICATION_LEVELS.
  Proof.
    unfold construct, getitem, mbind, result_bind_inst, result_bind.
    repeat match goal with
           | |- context [o !! ?k] => destruct (o !! k) as [?|] eqn:?; simpl; [|done]
           | |- context [to_int ?v] => destruct (to_int v) as [?|?] eqn:?; simpl; [|done]
           end.
    case_bool_decide; simpl; [|done].
    destruct (o !! threshold_key maximum) as [v|]; simpl; [|done].
    destruct (to_int v) as [z|]; simpl; [|done].
    intros [= <-]. simpl. done.
  Qed.
End constructor.

Section constructor_validation.
Context `{!Externals}.
Implicit Types (o : gmap string string) (w : world) (a : DiscoAlarmConfig.t).

  (** Option [key] is present and [int()] accepts its value. *)
Definition int_option o (key : string) : Prop :=
    ∃ v, o !! key = Some v ∧ is_Some (PyStr.int v).

  (** The option sets the constructor accepts. *)
Definition accepts o (maximum : bool) : Prop :=
    Forall (λ key, is_Some (o !! key))
      ["namespace"; "metric_name"; "hostclass"; "environment"; "team"; "statistic";
       "custom_metric"] ∧
    int_option o "duration" ∧ int_option o "period" ∧
    (∃ level, o !! "level" = Some level ∧ level ∈ NOTIFICATION_LEVELS) ∧
    int_option o (threshold_key maximum).

Lemma getitem_int_ok o key z :
    (getitem o key ≫= to_int) = Ok z ↔ ∃ v, o !! key = Some v ∧ PyStr.int v = Some z.
  Proof.
    unfold getitem, to_int, mbind, result_bind_inst, result_bind.
    destruct (o !! key) as [v|].
    - destruct (PyStr.int v) as [z'|] eqn:Hv; split.
      + intros [= <-]. eauto.
      + intros (v' & [= <-] & Hz). congruence.
      + done.
      + intros (v' & [= <-] & Hz). congruence.
    - split; [done|]. by intros (v' & ? & _).
  Qed.

Lemma accepts_construct o maximum :
    accepts o maximum ↔ ∃ a, construct o maximum = Ok a.
  Proof.
    split.
    - intros (Hkeys & (dv & Hd & [d Hdv]) & (pv & Hp & [p Hpv]) & (lv & Hl & Hlv) &
              (tv & Ht & [t Htv])).
      repeat (apply Forall_cons in Hkeys as [[? ?] Hkeys]).
      unfold construct, getitem, to_int, mbind, result_bind_inst, result_bind.
      repeat match goal with
             | H : o !! _ = Some _ |- _ => rewrite H; clear H
             | H : PyStr.int _ = Some _ |- _ => rewrite H; clear H
             end.
      rewrite bool_decide_eq_true_2 by done. eauto.
    - intros [a Ha]. pose proof (construct_fields _ _ _ Ha) as
        (Hn & Hm & Hh & He & Ht & Hd & Hp & Hth & _ & _).
      apply getitem_int_ok in Hd as (dv & Hd & Hdv).
      apply getitem_int_ok in Hp as (pv & Hp & Hpv).
      apply getitem_int_ok in Hth as (tv & Hth & Htv).
      revert Ha. unfold construct, getitem, mbind, result_bind_inst, result_bind.
      rewrite Hn, Hm, Hh, He, Ht, Hd, Hp. unfold to_int. rewrite Hdv, Hpv. simpl.
      destruct (o !! "statistic") as [st|] eqn:Hst; [|done].
      destruct (o !! "custom_metric") as [cm|] eqn:Hcm; [|done].
      destruct (o !! "level") as [lv|] eqn:Hlv; [|done].
      case_bool_decide as Hlevel; [|done]. intros _.
      split; [|unfold int_option; naive_solver].
      repeat constructor; eauto.
  Qed.

  (** C9, as the code has it.  The constructor accepts exactly the option
      sets that hold the required options with integer literals for duration,
      period and the threshold and a supported level; the record it builds has
      [int(options["duration"])] and [int(options["period"])] as duration and
      period, of either sign; an option set whose duration or period is not an
      integer literal is rejected. *)
Theorem constructed_duration_period o (maximum : bool) w :
    (accepts o maximum ↔ ∃ a, (DiscoAlarmConfig.__init__ o maximum w).1 = Ok a) ∧
    (∀ a, (DiscoAlarmConfig.__init__ o maximum w).1 = Ok a →
          ∃ dv pv, o !! "duration" = Some dv ∧ PyStr.int dv = Some (DiscoAlarmConfig.duration a) ∧
                   o !! "period" = Some pv ∧ PyStr.int pv = Some (DiscoAlarmConfig.period a)) ∧
    (∀ v, o !! "duration" = Some v ∨ o !! "period" = Some v → PyStr.int v = None →
          ∀ a, (DiscoAlarmConfig.__init__ o maximum w).1 ≠ Ok a).
  Proof.
    destruct (init_run o maximum w) as (-> & _ & _).
    split; [apply accepts_construct|]. split.
    - intros a Ha. apply construct_fields in Ha as (_ & _ & _ & _ & _ & Hd & Hp & _).
      apply getitem_int_ok in Hd as (dv & Hd & Hdv).
      apply getitem_int_ok in Hp as (pv & Hp & Hpv). eauto 10.
    - intros v Hv Hint a Ha.
      apply construct_fields in Ha as (_ & _ & _ & _ & _ & Hd & Hp & _).
      apply getitem_int_ok in Hd as (dv & Hd & Hdv).
      apply getitem_int_ok in Hp as (pv & Hp & Hpv).
      destruct Hv as [Hv|Hv]; congruence.
  Qed.
End constructor_validation.

(** An option set with every required option, of duration [0] and period
    [-60]. *)
Definition nonpositive_options : gmap string string :=
  dict_of_items
    [("namespace", "AWS/EC2"); ("metric_name", "CPUUtilization"); ("hostclass", "mhcweb");
     ("environment", "prod"); ("team", "ops"); ("duration", "0"); ("period", "-60");
     ("statistic", "Average"); ("custom_metric", "false"); ("level", "critical");
     ("threshold_max", "80")].

(** The record the constructor builds from [nonpositive_options]. *)
Definition nonpositive_alarm : DiscoAlarmConfig.t :=
  DiscoAlarmConfig.Build "AWS/EC2" "CPUUtilization" "mhcweb" "prod" "ops" 0 (-60) "Average"
    false false None None None "critical" 80 "max".

Lemma nonpositive_options_constructed (w : world) :
  (@DiscoAlarmConfig.__init__ sample_externals nonpositive_options true w).1
  = Ok nonpositive_alarm.
Proof.
  destruct (@init_run sample_externals nonpositive_options true w) as (-> & _).
  vm_compute. reflexivity.
Qed.

Lemma constructed_duration_period_witness :
  ∃ dv pv,
    nonpositive_options !! "duration" = Some dv ∧ PyStr.int dv = Some 0%Z ∧
    nonpositive_options !! "period" = Some pv ∧ PyStr.int pv = Some (-60)%Z.
Proof.
  apply (proj1 (proj2 (@constructed_duration_period sample_externals nonpositive_options
                         true (fresh_world "prod" []))) nonpositive_alarm).
  vm_compute. reflexivity.
Defined.

(** C9 as claimed fails: nothing checks the sign.  [nonpositive_options] is
    accepted and gives a record of duration [0] and period [-60]. *)
Lemma constructed_with_nonpositive_duration :
  ¬ (∀ (E : Externals) (o : gmap string string) (maximum : bool) (w : world) a,
        (DiscoAlarmConfig.__init__ o maximum w).1 = Ok a →
        (0 < DiscoAlarmConfig.duration a)%Z ∧ (0 < DiscoAlarmConfig.period a)%Z).
Proof.
  intros Hclaim.
  pose proof (nonpositive_options_constructed (fresh_world "prod" [])) as Ha.
  apply Hclaim in Ha as [Hpos _]. simpl in Hpos. lia.
Qed.

(** ** Dimensions *)

Section dimensions.
Context `{!Externals}.
Implicit Types (a : DiscoAlarmConfig.t).

  (** The identifier of a load balancer is the first 32 characters of the
      digest of its name, the name being [environment-hostclass] stripped of
      every character that is not a letter, a digit or a dash. *)
Lemma get_elb_id_hashed (environment_name hostclass : string) :
    let elb_name := PyStr.keep DiscoELB.name_char (environment_name ++ "-" ++ hostclass) in
    (String.length elb_name ≤ 255)%nat →
    DiscoELB.get_elb_id environment_name hostclass false
    = Ok (PyStr.prefix 32 (sha256_hexdigest elb_name)).
  Proof.
    intros elb_name Hlen. unfold DiscoELB.get_elb_id, DiscoELB.get_elb_name.
    fold elb_name.
    replace (255 <? String.length elb_name)%nat with false
      by (symmetry; apply Nat.ltb_ge; lia).
    reflexivity.
  Qed.

End dimensions.




(** ** Notifications *)

Section notifications.
Context `{!Externals}.
Implicit Types (w : world) (entries : list (string * string)).

  (** A notification key has fewer than three segments. *)
Definition malformed_key (key : string) : Prop :=
    (length (PyStr.split "_" key) < 3)%nat.

  (** Environment and level of a notification key: its second and its last
      segment. *)
Definition key_env (key : string) : string := item (PyStr.split "_" key) 1.
Definition key_level (key : string) : string := last_item (PyStr.split "_" key).

  (** The notification an entry of the section stands for. *)
Definition notification_of (kv : string * string) : DiscoNotification :=
    Notification kv.1 (PyStr.split "," kv.2).

  (** The entries of the target environment. *)
Definition for_environment (env : string) entries : list (string * string) :=
    filter (λ kv, key_env kv.1 = env) entries.

  (** An entry the loop raises on. *)
Definition rejected (env : string) (kv : string * string) : Prop :=
    malformed_key kv.1 ∨ (key_env kv.1 = env ∧ key_level kv.1 ∉ NOTIFICATION_LEVELS).

Lemma notifications_loop_raises env entries acc kv :
    kv ∈ entries → rejected env kv →
    ∃ template args,
      DiscoAlarmsConfig.notifications_loop env entries acc
      = Raise (AlarmConfigError template args).
  Proof.
    intros Hin Hbad. revert acc.
    induction entries as [|[k v] entries IH]; intros acc; [by apply elem_of_nil in Hin|].
    simpl. destruct (length (PyStr.split "_" k) <? 3)%nat eqn:Hlen; [eauto|].
    apply Nat.ltb_ge in Hlen.
    case_bool_decide as Henv; simpl.
    - case_bool_decide as Hlevel; simpl.
      + apply elem_of_cons in Hin as [->|Hin]; [|by apply IH].
        destruct Hbad as [Hbad|[_ Hbad]]; [unfold malformed_key in Hbad; simpl in Hbad; lia|].
        done.
      + eauto.
    - apply elem_of_cons in Hin as [->|Hin]; [|by apply IH].
      destruct Hbad as [Hbad|[Hbad _]]; [unfold malformed_key in Hbad; simpl in Hbad; lia|].
      done.
  Qed.

Lemma notifications_loop_accepts env entries acc :
    (∀ kv, kv ∈ entries → ¬ rejected env kv) →
    DiscoAlarmsConfig.notifications_loop env entries acc
    = Ok (acc ++ (notification_of <$> for_environment env entries))%list.
  Proof.
    revert acc. induction entries as [|[k v] entries IH]; intros acc Hgood.
    - simpl. by rewrite app_nil_r.
    - assert (¬ rejected env (k, v)) as Hkv by (apply Hgood; left).
      assert (∀ kv, kv ∈ entries → ¬ rejected env kv) as Hrest
          by (intros kv ?; apply Hgood; by right).
      simpl. destruct (length (PyStr.split "_" k) <? 3)%nat eqn:Hlen.
      { apply Nat.ltb_lt in Hlen. destruct Hkv. by left. }
      unfold for_environment. rewrite filter_cons. simpl.
      fold (key_env k).
      destruct (decide (key_env k = env)) as [Henv|Henv].
      + rewrite (bool_decide_eq_true_2 _ Henv). simpl.
        case_bool_decide as Hlevel; simpl.
        * rewrite IH by done. rewrite <- app_assoc. reflexivity.
        * destruct Hkv. right. done.
      + rewrite (bool_decide_eq_false_2 _ Henv). simpl. by apply IH.
  Qed.

Lemma get_notifications_run w kvs :
    items (config (self w)) NOTIFICATION_SECTION_NAME = Ok kvs →
    DiscoAlarmsConfig.get_notifications w
    = (DiscoAlarmsConfig.notifications_loop (environment (self w))
         (iteritems (dict_of_items kvs)) [], w).
  Proof.
    intros Hitems.
    unfold DiscoAlarmsConfig.get_notifications, DiscoAlarmsConfig.config_items,
      get_self, lift, mbind, M_bind.
    by rewrite Hitems.
  Qed.

Lemma elem_of_iteritems (d : gmap string string) (k v : string) :
    (k, v) ∈ iteritems d ↔ d !! k = Some v.
  Proof. rewrite (iteritems_perm d). apply elem_of_map_to_list. Qed.

  (** C8. [get_notifications] over the entries of the notifications
      section, for the resolver's environment: a key with fewer than three
      segments makes it raise [AlarmConfigError]; so does a key of that
      environment whose level is not a notification level; when no entry is
      of either kind, it returns, in enumeration order, one notification per
      entry of the environment, named by the key and with the value split on
      ',' as endpoints, the entries of other environments being skipped.  The
      resolver is left as it was. *)
Theorem get_notifications_spec w kvs :
    items (config (self w)) NOTIFICATION_SECTION_NAME = Ok kvs →
    let options := dict_of_items kvs in
    let env := environment (self w) in
    (DiscoAlarmsConfig.get_notifications w).2 = w ∧
    (∀ k v, options !! k = Some v → malformed_key k →
       ∃ template args,
         (DiscoAlarmsConfig.get_notifications w).1 = Raise (AlarmConfigError template args)) ∧
    (∀ k v, options !! k = Some v → key_env k = env → key_level k ∉ NOTIFICATION_LEVELS →
       ∃ template args,
         (DiscoAlarmsConfig.get_notifications w).1 = Raise (AlarmConfigError template args)) ∧
    ((∀ k v, options !! k = Some v →
         ¬ malformed_key k ∧ (key_env k = env → key_level k ∈ NOTIFICATION_LEVELS)) →
       (DiscoAlarmsConfig.get_notifications w).1
       = Ok (notification_of <$> for_environment env (iteritems options))).
  Proof.
    intros Hitems options env. rewrite (get_notifications_run _ _ Hitems). simpl.
    split; [done|]. split; [|split].
    - intros k v Hkv Hbad.
      apply (notifications_loop_raises _ _ _ (k, v)); [by apply elem_of_iteritems|by left].
    - intros k v Hkv Henv Hlevel.
      apply (notifications_loop_raises _ _ _ (k, v)); [by apply elem_of_iteritems|by right].
    - intros Hgood. rewrite notifications_loop_accepts; [done|].
      intros [k v] Hin%elem_of_iteritems. destruct (Hgood k v Hin) as [Hwf Hlevel].
      intros [?|[Henv Hno]]; [done|]. apply Hno. by apply Hlevel.
  Qed.
End notifications.

Definition notifications_config : ConfigStore :=
  [("notifications",
    [("team1_prod_critical", "a@x.com,b@x.com"); ("team1_ci_info", "c@x.com");
     ("team2_ci_page", "d@x.com")])].

Lemma get_notifications_spec_witness :
  (@DiscoAlarmsConfig.get_notifications sample_externals
     (fresh_world "prod" notifications_config)).1
  = Ok [Notification "team1_prod_critical" ["a@x.com"; "b@x.com"]].
Proof.
  refine (eq_trans
    (proj2 (proj2 (proj2 (@get_notifications_spec sample_externals
       (fresh_world "prod" notifications_config) _ eq_refl))) _) _).
  - intros k v Hkv.
    apply (elem_of_map_to_list (dict_of_items _)) in Hkv.
    vm_compute in Hkv.
    repeat (apply elem_of_cons in Hkv as [[= -> ->]|Hkv];
            [split; [unfold malformed_key; vm_compute; lia|];
             first [intros; vm_compute; set_solver | vm_compute; intros [=]]|]).
    by apply elem_of_nil in Hkv.
  - vm_compute. reflexivity.
Defined.

(** ** Section names *)

Section section_names.
Context `{!Externals}.

Lemma decode_section_name_long section team namespace m mid hostclass :
    PyStr.split "." section = team :: namespace :: ((m :: mid) ++ [hostclass])%list →
    DiscoAlarmsConfig._decode_section_name section
    = Ok (team, namespace, PyStr.join "." (m :: mid), Some hostclass).
  Proof.
    intros Hparts. unfold DiscoAlarmsConfig._decode_section_name. rewrite Hparts.
    replace (4 <=? length (team :: namespace :: (m :: mid) ++ [hostclass]))%nat with true
      by (symmetry; apply Nat.leb_le; simpl; rewrite length_app; simpl; lia).
    change (team :: namespace :: (m :: mid) ++ [hostclass])
      with ((team :: namespace :: m :: mid) ++ [hostclass])%list.
    rewrite slice_to_last_snoc, last_item_snoc. reflexivity.
  Qed.

Lemma decode_section_name_short section :
    (length (PyStr.split "." section) < 3)%nat →
    DiscoAlarmsConfig._decode_section_name section
    = Raise (AlarmConfigError "Skipping non-alarm like config section {0}." [FStr section]).
  Proof.
    intros Hlen. unfold DiscoAlarmsConfig._decode_section_name.
    replace (4 <=? length (PyStr.split "." section))%nat with false
      by (symmetry; apply Nat.leb_gt; lia).
    replace (length (PyStr.split "." section) =? 3)%nat with false
      by (symmetry; apply Nat.eqb_neq; lia).
    reflexivity.
  Qed.

  (** The name of a section with a hostclass decodes to its four parts when
      team, namespace and hostclass contain no dot. *)
Lemma decode_child_section_name team namespace metric_name hostclass :
    PyStr.contains "." team = false →
    PyStr.contains "." namespace = false →
    PyStr.contains "." hostclass = false →
    DiscoAlarmsConfig._decode_section_name
      (PyStr.join "." [team; namespace; metric_name; hostclass])
    = Ok (team, namespace, metric_name, Some hostclass).
  Proof.
    intros Ht Hn Hh.
    pose proof (split_not_nil "." metric_name) as Hne.
    pose proof (join_split "." metric_name) as Hjoin.
    destruct (PyStr.split "." metric_name) as [|m mid] eqn:Hm; [done|].
    rewrite (decode_section_name_long _ team namespace m mid hostclass).
    - change (String "." EmptyString) with "." in Hjoin. by rewrite Hjoin.
    - cbn [PyStr.join].
      rewrite (split_app_sep' "." team), (split_app_sep' "." namespace) by done.
      f_equal. f_equal. rewrite <- Hm. clear -Hh.
      induction metric_name as [|c s IH]; simpl.
      + f_equal. by apply split_no_sep.
      + case_decide; [by rewrite IH|].
        simpl in IH. rewrite IH.
        pose proof (split_not_nil "." s) as Hne. by destruct (PyStr.split "." s).
  Qed.
End section_names.

(** ** What a resolution computes *)

Section resolution.
Context `{!Externals}.
Implicit Types (s : resolver) (d : gmap string string).

  (** The autoscaling collaborator the [autoscale] property returns. *)
Definition effective_autoscale s : Autoscale :=
    default (DiscoAutoscale (environment s)) (_autoscale s).

  (** The fields read from the section name and the resolver. *)
Definition synthesized_fields s (team namespace metric_name hostclass : string)
    : gmap string string :=
    dict_of_items
      [("team", team); ("namespace", namespace); ("metric_name", metric_name);
       ("hostclass", hostclass); ("environment", environment s)].

  (** Lines 272-279: the autoscaling group name, given or looked up. *)
Definition with_autoscaling_group s (namespace hostclass : string)
      (autoscaling_group_name : option string) d : result (gmap string string) :=
    if opt_truthy autoscaling_group_name then
      Ok (<["autoscaling_group_name" := default EmptyString autoscaling_group_name]> d)
    else if bool_decide (namespace = "AWS/EC2") then
      group_name ← get_existing_group_name (effective_autoscale s) hostclass;
      Ok (<["autoscaling_group_name" := group_name]> d)
    else Ok d.

  (** Lines 281-284: the Elasticsearch domain. *)
Definition with_search_domain s (namespace hostclass : string) d
    : result (gmap string string) :=
    match elasticsearch s with
    | Some es =>
        if bool_decide (namespace = "AWS/ES") then
          domain_name ← get_domain_name es hostclass;
          client_id ← get_client_id es domain_name;
          Ok (<["es_client_id" := client_id]> (<["es_domain_name" := domain_name]> d))
        else Ok d
    | None => Ok d
    end.

  (** Lines 287-289: the names of a metric made from a log pattern. *)
Definition log_pattern_rewrite s (namespace metric_name hostclass : string) d
    : gmap string string :=
    if is_truthy (d !! "log_pattern_metric") then
      <["metric_name" := hostclass ++ "-" ++ metric_name]>
        (<["namespace" := namespace ++ "/" ++ environment s]> d)
    else d.

  (** The augmentation that follows the synthesized fields. *)
Definition augment s (namespace metric_name hostclass : string)
      (autoscaling_group_name : option string) d : result (gmap string string) :=
    d1 ← with_autoscaling_group s namespace hostclass autoscaling_group_name d;
    d2 ← with_search_domain s namespace hostclass d1;
    Ok (log_pattern_rewrite s namespace metric_name hostclass d2).

  (** The layers below the synthesized fields: the defaults, then the parent
      section, then, in hostclass-specific mode, the child section; [None]
      when the generic pass finds the child section. *)
Definition merged_sections (cfg : ConfigStore)
      (team namespace metric_name hostclass : string) (hostclass_specific : bool)
    : result (option (gmap string string)) :=
    let parent := PyStr.join "." [team; namespace; metric_name] in
    let child := PyStr.join "." [team; namespace; metric_name; hostclass] in
    defaults ← items cfg DEFAULT_SECTION_NAME;
    if hostclass_specific then
      parent_options ← (if has_section cfg parent then items cfg parent else Ok []);
      child_options ← items cfg child;
      Ok (Some (dict_of_items child_options ∪
                (dict_of_items parent_options ∪ dict_of_items defaults)))
    else if has_section cfg child then Ok None
    else
      parent_options ← items cfg parent;
      Ok (Some (dict_of_items parent_options ∪ dict_of_items defaults)).

  (** The options [_get_alarm_specification_dict] resolves. *)
Definition resolved_options s (team namespace metric_name hostclass : string)
      (hostclass_specific : bool) (autoscaling_group_name : option string)
    : result (option (gmap string string)) :=
    layers ← merged_sections (config s) team namespace metric_name hostclass hostclass_specific;
    match layers with
    | None => Ok None
    | Some d =>
        options ← augment s namespace metric_name hostclass autoscaling_group_name
                    (synthesized_fields s team namespace metric_name hostclass ∪ d);
        Ok (Some options)
    end.
End resolution.

(** ** The store *)

Section store.
Context `{!Externals}.
Implicit Types (w : world) (l : loc) (d : gmap string string).

  (** World [w] with dictionary object [l] holding [d]. *)
Definition store l d w : world := World (<[l := d]> (heap w)) (log w) (self w).

  (** What a call may change of the resolver: the two memoized attributes,
      and the collaborator only from [None] to the one created for it. *)
Definition same_resolver (r r' : resolver) : Prop :=
    config r' = config r ∧ environment r' = environment r ∧
    elasticsearch r' = elasticsearch r ∧
    effective_autoscale r' = effective_autoscale r.

  (** The memoized defaults, when set, are the defaults section. *)
Definition defaults_memo_ok w : Prop :=
    ∀ l, _defaults (self w) = Some l →
         ∃ kvs, items (config (self w)) DEFAULT_SECTION_NAME = Ok kvs ∧
                heap w !! l = Some (dict_of_items kvs).

#[global] Instance same_resolver_refl : Reflexive same_resolver.
  Proof. by intros r. Qed.

#[global] Instance same_resolver_trans : Transitive same_resolver.
  Proof.
    intros r1 r2 r3 (?&?&?&?) (?&?&?&?). repeat split; congruence.
  Qed.

Lemma fresh_loc_unused w : heap w !! fresh (dom (heap w)) = None.
  Proof. apply not_elem_of_dom, is_fresh. Qed.

Lemma mutate_store l f d w : mutate l f (store l d w) = (Ok tt, store l (f d) w).
  Proof.
    unfold mutate, store. simpl. by rewrite lookup_insert_eq, insert_insert_eq.
  Qed.

Lemma setitem_store l k v d w :
    setitem l k v (store l d w) = (Ok tt, store l (<[k := v]> d) w).
  Proof. apply mutate_store. Qed.

Lemma update_store l other d w :
    update l other (store l d w) = (Ok tt, store l (other ∪ d) w).
  Proof. apply mutate_store. Qed.

Lemma deref_store l d w : deref l (store l d w) = (Ok d, store l d w).
  Proof. unfold deref, store. simpl. by rewrite lookup_insert_eq. Qed.

Lemma bind_run {A B} (m : M A) (k : A → M B) w :
    (m ≫= k) w = match m w with
                  | (Ok a, w2) => k a w2
                  | (Raise e, w2) => (Raise e, w2)
                  end.
  Proof. reflexivity. Qed.

Lemma store_subseteq l d w : heap w !! l = None → heap w ⊆ heap (store l d w).
  Proof. intros. by apply insert_subseteq. Qed.
End store.

(** ** Reasoning about runs *)

Section runs.
Context `{!Externals}.
Implicit Types (w : world) (l : loc) (d : gmap string string).

  (** [wp m w Q]: the run of [m] from [w] ends with a result and in a world
      that satisfy [Q]. *)
Definition wp {A} (m : M A) (w : world) (Q : result A → world → Prop) : Prop :=
    Q (m w).1 (m w).2.

Lemma wp_bind {A B} (m : M A) (k : A → M B) w (Q1 : result A → world → Prop)
      (Q : result B → world → Prop) :
    wp m w Q1 →
    (∀ r w', Q1 r w' →
             match r with
             | Ok a => wp (k a) w' Q
             | Raise e => Q (Raise e) w'
             end) →
    wp (m ≫= k) w Q.
  Proof.
    unfold wp. intros Hm Hk. specialize (Hk _ _ Hm).
    rewrite bind_run. by destruct (m w) as [[a|e] w'].
  Qed.

Lemma wp_mono {A} (m : M A) w (Q Q' : result A → world → Prop) :
    wp m w Q → (∀ r w', Q r w' → Q' r w') → wp m w Q'.
  Proof. unfold wp. auto. Qed.

Lemma wp_ret {A} (a : A) w (Q : result A → world → Prop) : Q (Ok a) w → wp (mret a) w Q.
  Proof. done. Qed.

Lemma wp_raise {A} (e : exn) w (Q : result A → world → Prop) :
    Q (Raise e) w → wp (raise e) w Q.
  Proof. done. Qed.

Lemma wp_lift {A} (x : result A) w (Q : result A → world → Prop) : Q x w → wp (lift x) w Q.
  Proof. done. Qed.

Lemma wp_get_self w (Q : result resolver → world → Prop) :
    Q (Ok (self w)) w → wp get_self w Q.
  Proof. done. Qed.

  (** World [w'] is [w] with object [l] holding [d], the memoized
      collaborator apart. *)
Definition at_obj l d w w' : Prop :=
    heap w' = <[l := d]> (heap w) ∧ log w' = log w ∧
    same_resolver (self w) (self w') ∧ _defaults (self w') = _defaults (self w).

Lemma wp_mutate l f d w0 w (Q : result unit → world → Prop) :
    at_obj l d w0 w →
    (∀ w', at_obj l (f d) w0 w' → Q (Ok tt) w') →
    wp (mutate l f) w Q.
  Proof.
    intros (Hh & Hl & Hs & Hd) HQ. unfold wp, mutate. simpl. apply HQ.
    split; [|done]. simpl.
    by rewrite Hh, lookup_insert_eq, insert_insert_eq.
  Qed.

Lemma wp_deref l d w0 w (Q : result (gmap string string) → world → Prop) :
    at_obj l d w0 w → Q (Ok d) w → wp (deref l) w Q.
  Proof.
    intros (Hh & _) HQ. unfold wp, deref. simpl. by rewrite Hh, lookup_insert_eq.
  Qed.

Lemma wp_autoscale l d w0 w (Q : result Autoscale → world → Prop) :
    at_obj l d w0 w →
    (∀ w', at_obj l d w0 w' → Q (Ok (effective_autoscale (self w0))) w') →
    wp DiscoAlarmsConfig.autoscale w Q.
  Proof.
    intros Hat HQ. pose proof Hat as (Hh & Hl & (Hc & He & Hes & Ha) & Hd).
    unfold wp, DiscoAlarmsConfig.autoscale. rewrite bind_run. simpl.
    unfold effective_autoscale in Ha.
    destruct (_autoscale (self w)) as [a|] eqn:Hauto; simpl in *.
    - rewrite Ha. by apply HQ.
    - rewrite Ha. apply HQ.
      split; [done|]. split; [done|]. split; [|done].
      split; [done|]. split; [done|]. split; [done|].
      reflexivity.
  Qed.

Lemma wp_bind_assoc {A B C} (m : M A) (f : A → M B) (k : B → M C) w
      (Q : result C → world → Prop) :
    wp (m ≫= λ a, f a ≫= k) w Q → wp ((m ≫= f) ≫= k) w Q.
  Proof.
    unfold wp. rewrite !bind_run. destruct (m w) as [[a|e] w']; [|done].
    by rewrite bind_run.
  Qed.

Lemma wp_bind_get_self {B} (k : resolver → M B) w (Q : result B → world → Prop) :
    wp (k (self w)) w Q → wp (get_self ≫= k) w Q.
  Proof. done. Qed.

Lemma wp_bind_ret {A B} (a : A) (k : A → M B) w (Q : result B → world → Prop) :
    wp (k a) w Q → wp (mret a ≫= k) w Q.
  Proof. done. Qed.

Lemma wp_bind_lift {A B} (x : result A) (k : A → M B) w (Q : result B → world → Prop) :
    match x with
    | Ok a => wp (k a) w Q
    | Raise e => Q (Raise e) w
    end →
    wp (lift x ≫= k) w Q.
  Proof. unfold wp. rewrite bind_run. unfold lift. by destruct x. Qed.

Lemma wp_bind_mutate {B} l f d w0 w (k : unit → M B) (Q : result B → world → Prop) :
    at_obj l d w0 w →
    (∀ w', at_obj l (f d) w0 w' → wp (k tt) w' Q) →
    wp (mutate l f ≫= k) w Q.
  Proof.
    intros Hat Hk.
    apply (wp_bind _ _ _ (λ r w', r = Ok tt ∧ at_obj l (f d) w0 w')).
    - by apply (wp_mutate l f d w0).
    - intros r w' [-> Hw']. by apply Hk.
  Qed.

Lemma wp_bind_setitem {B} l key v d w0 w (k : unit → M B) (Q : result B → world → Prop) :
    at_obj l d w0 w →
    (∀ w', at_obj l (<[key := v]> d) w0 w' → wp (k tt) w' Q) →
    wp (setitem l key v ≫= k) w Q.
  Proof. apply wp_bind_mutate. Qed.

Lemma wp_bind_update {B} l other d w0 w (k : unit → M B) (Q : result B → world → Prop) :
    at_obj l d w0 w →
    (∀ w', at_obj l (other ∪ d) w0 w' → wp (k tt) w' Q) →
    wp (update l other ≫= k) w Q.
  Proof. apply (wp_bind_mutate l (λ d, dict_update d other)). Qed.

Lemma wp_bind_deref {B} l d w0 w (k : gmap string string → M B)
      (Q : result B → world → Prop) :
    at_obj l d w0 w → wp (k d) w Q → wp (deref l ≫= k) w Q.
  Proof.
    intros Hat Hk.
    apply (wp_bind _ _ _ (λ r w', r = Ok d ∧ w' = w)).
    - by apply (wp_deref l d w0).
    - by intros r w' [-> ->].
  Qed.

Lemma wp_bind_autoscale {B} l d w0 w (k : Autoscale → M B) (Q : result B → world → Prop) :
    at_obj l d w0 w →
    (∀ w', at_obj l d w0 w' → wp (k (effective_autoscale (self w0))) w' Q) →
    wp (DiscoAlarmsConfig.autoscale ≫= k) w Q.
  Proof.
    intros Hat Hk.
    apply (wp_bind _ _ _ (λ r w', r = Ok (effective_autoscale (self w0)) ∧ at_obj l d w0 w')).
    - by apply (wp_autoscale l d w0).
    - intros r w' [-> Hw']. by apply Hk.
  Qed.

  (** The postcondition of a resolution step on object [l]: the world is
      [w0] with [l] changed, and the result is as [spec] says. *)
Definition resolved l w0 (spec : result (gmap string string))
      (r : result (option loc)) (w' : world) : Prop :=
    ∃ d', at_obj l d' w0 w' ∧
          match spec with
          | Ok o => r = Ok (Some l) ∧ d' = o
          | Raise e => r = Raise e
          end.

Lemma synthesized_union s team namespace metric_name hostclass d :
    <["environment" := environment s]>
      (<["hostclass" := hostclass]>
         (<["metric_name" := metric_name]>
            (<["namespace" := namespace]> (<["team" := team]> d))))
    = synthesized_fields s team namespace metric_name hostclass ∪ d.
  Proof.
    unfold synthesized_fields, dict_of_items. simpl.
    rewrite <- !insert_union_l. by rewrite (left_id_L ∅ (∪)).
  Qed.

Lemma wp_finish team namespace metric_name hostclass asg l d w0 w :
    at_obj l d w0 w →
    wp (DiscoAlarmsConfig._finish_specification team namespace metric_name hostclass asg l) w
      (resolved l w0
         (augment (self w0) namespace metric_name hostclass asg
            (synthesized_fields (self w0) team namespace metric_name hostclass ∪ d))).
  Proof.
    intros Hat. unfold DiscoAlarmsConfig._finish_specification.
    apply wp_bind_get_self.
    pose proof Hat as (_ & _ & (_ & Henv & Hes & _) & _).
    rewrite Henv, Hes. clear Henv Hes.
    do 5 (eapply wp_bind_setitem; [eassumption|]; clear w Hat; intros w Hat).
    rewrite synthesized_union in Hat.
    set (d0 := synthesized_fields (self w0) team namespace metric_name hostclass ∪ d) in *.
    unfold augment.
    (* lines 272-279 *)
    apply (wp_bind _ _ _ (λ r w', ∃ dx, at_obj l dx w0 w' ∧
             match with_autoscaling_group (self w0) namespace hostclass asg d0 with
             | Ok d1 => r = Ok tt ∧ dx = d1
             | Raise e => r = Raise e
             end)).
    { unfold with_autoscaling_group. destruct (opt_truthy asg).
      - eapply wp_mutate; [eassumption|]. intros w' Hw'. eauto.
      - case_bool_decide.
        + eapply wp_bind_autoscale; [eassumption|]. clear w Hat. intros w Hat.
          apply wp_bind_lift.
          destruct (get_existing_group_name (effective_autoscale (self w0)) hostclass)
            as [g|e]; simpl.
          * eapply wp_mutate; [eassumption|]. intros w' Hw'. eauto.
          * eauto.
        + apply wp_ret. eauto. }
    clear w Hat. intros r w (dx & Hat & Hr).
    destruct (with_autoscaling_group (self w0) namespace hostclass asg d0) as [d1|e];
      simpl; [destruct Hr as [-> ->]|subst r; by exists dx].
    (* lines 281-284 *)
    apply (wp_bind _ _ _ (λ r w', ∃ dx, at_obj l dx w0 w' ∧
             match with_search_domain (self w0) namespace hostclass d1 with
             | Ok d2 => r = Ok tt ∧ dx = d2
             | Raise e => r = Raise e
             end)).
    { unfold with_search_domain. destruct (elasticsearch (self w0)) as [es|].
      - case_bool_decide.
        + apply wp_bind_lift. destruct (get_domain_name es hostclass) as [dn|e]; simpl;
            [|by eauto].
          eapply wp_bind_setitem; [eassumption|]. clear w Hat. intros w Hat.
          apply wp_bind_lift. destruct (get_client_id es dn) as [ci|e]; simpl; [|by eauto].
          eapply wp_mutate; [eassumption|]. intros w' Hw'. eauto.
        + apply wp_ret. eauto.
      - apply wp_ret. eauto. }
    clear w Hat. intros r w (dx & Hat & Hr).
    destruct (with_search_domain (self w0) namespace hostclass d1) as [d2|e];
      simpl; [destruct Hr as [-> ->]|subst r; by exists dx].
    (* lines 287-291 *)
    eapply wp_bind_deref; [eassumption|].
    unfold log_pattern_rewrite. destruct (is_truthy (d2 !! "log_pattern_metric")).
    - apply wp_bind_assoc.
      eapply wp_bind_setitem; [eassumption|]. clear w Hat. intros w Hat.
      eapply wp_bind_setitem; [eassumption|]. clear w Hat. intros w Hat.
      apply wp_ret. eexists. split; [eassumption|]. done.
    - apply wp_bind_ret. apply wp_ret. eexists. split; [eassumption|]. done.
  Qed.

Lemma wp_bind_config_items {B} l d w0 w (section : string)
      (k : list (string * string) → M B) (Q : result B → world → Prop) :
    at_obj l d w0 w →
    match items (config (self w0)) section with
    | Ok kvs => wp (k kvs) w Q
    | Raise e => Q (Raise e) w
    end →
    wp (DiscoAlarmsConfig.config_items section ≫= k) w Q.
  Proof.
    intros (_ & _ & (Hc & _) & _) Hk. unfold DiscoAlarmsConfig.config_items.
    apply wp_bind_assoc, wp_bind_get_self, wp_bind_lift. by rewrite Hc.
  Qed.

Lemma wp_bind_config_has_section {B} l d w0 w (section : string)
      (k : bool → M B) (Q : result B → world → Prop) :
    at_obj l d w0 w →
    wp (k (has_section (config (self w0)) section)) w Q →
    wp (DiscoAlarmsConfig.config_has_section section ≫= k) w Q.
  Proof.
    intros (_ & _ & (Hc & _) & _) Hk. unfold DiscoAlarmsConfig.config_has_section.
    apply wp_bind_assoc, wp_bind_get_self, wp_bind_ret. by rewrite Hc.
  Qed.

  (** A run leaves every dictionary object that existed as it was, the
      resolver's configuration and collaborators as they were, and the
      memoized defaults equal to the defaults section. *)
Definition preserved w w' : Prop :=
    heap w ⊆ heap w' ∧ same_resolver (self w) (self w') ∧ defaults_memo_ok w'.

Lemma preserved_refl w : defaults_memo_ok w → preserved w w.
  Proof. by repeat split. Qed.

Lemma preserved_trans w1 w2 w3 : preserved w1 w2 → preserved w2 w3 → preserved w1 w3.
  Proof.
    intros (Hh & Hs & _) (Hh' & Hs' & Hm). split; [by etrans|]. split; [by etrans|done].
  Qed.

Lemma wp_defaults w :
    defaults_memo_ok w →
    wp DiscoAlarmsConfig.defaults w (λ r w',
      preserved w w' ∧ log w' = log w ∧
      match items (config (self w)) DEFAULT_SECTION_NAME with
      | Ok kvs => ∃ l, r = Ok l ∧ heap w' !! l = Some (dict_of_items kvs)
      | Raise e => r = Raise e
      end).
  Proof.
    intros Hmemo. unfold wp, DiscoAlarmsConfig.defaults. rewrite bind_run. simpl.
    assert (∀ l kvs (h : gmap loc (gmap string string)),
      items (config (self w)) DEFAULT_SECTION_NAME = Ok kvs →
      heap w ⊆ h → h !! l = Some (dict_of_items kvs) →
      preserved w (World h (log w)
        (Resolver (config (self w)) (environment (self w)) (elasticsearch (self w))
           (_autoscale (self w)) (Some l)))) as Hset.
    { intros l kvs h Hkvs Hsub Hl. split; [done|]. split; [done|].
      intros l' [= <-]. simpl. eauto. }
    assert (items (config (self w)) DEFAULT_SECTION_NAME
            = items (config (self w)) DEFAULT_SECTION_NAME →
      wp DiscoAlarmsConfig.get_defaults w (λ r w',
        match items (config (self w)) DEFAULT_SECTION_NAME with
        | Ok kvs => ∃ l, r = Ok l ∧ heap w' !! l = Some (dict_of_items kvs) ∧
                         heap w ⊆ heap w' ∧ log w' = log w ∧ self w' = self w
        | Raise e => r = Raise e ∧ w' = w
        end)) as Hget.
    { intros _. unfold wp, DiscoAlarmsConfig.get_defaults, DiscoAlarmsConfig.config_items.
      rewrite !bind_run. simpl. unfold lift.
      destruct (items (config (self w)) DEFAULT_SECTION_NAME) as [kvs|e]; [|done].
      rewrite !bind_run. simpl. rewrite bind_run. unfold deref. simpl.
      rewrite lookup_insert_eq. simpl.
      pose proof (fresh_loc_unused w) as Hfresh.
      destruct (dict_truthy (dict_of_items kvs)) eqn:Htruthy; simpl.
      - eexists. split; [done|]. rewrite lookup_insert_eq.
        split; [done|]. split; [by apply insert_subseteq|done].
      - eexists. split; [done|]. rewrite lookup_insert_eq.
        apply negb_false_iff, bool_decide_eq_true in Htruthy. rewrite Htruthy.
        split; [done|]. split; [|done].
        etrans; [by apply insert_subseteq|]. apply insert_subseteq.
        apply not_elem_of_dom, is_fresh. }
    specialize (Hget eq_refl). unfold wp in Hget.
    destruct (_defaults (self w)) as [l|] eqn:Hl.
    - destruct (Hmemo l Hl) as (kvs & Hkvs & Hd).
      rewrite bind_run. unfold deref at 1. simpl. rewrite Hd. simpl.
      destruct (dict_truthy (dict_of_items kvs)); simpl.
      + rewrite Hkvs. split; [by apply (Hset l kvs)|]. split; [done|]. eauto.
      + rewrite bind_run.
        destruct (DiscoAlarmsConfig.get_defaults w) as [[l'|e] w'] eqn:Hrun;
          rewrite Hkvs in *; simpl in *.
        * destruct Hget as (l'' & [= <-] & Hl' & Hsub & Hlog & Hself).
          rewrite Hself. split; [by apply (Hset l' kvs)|]. split; [done|]. eauto.
        * by destruct Hget as (? & ? & _).
    - rewrite bind_run. simpl. rewrite bind_run.
      destruct (DiscoAlarmsConfig.get_defaults w) as [[l'|e] w'] eqn:Hrun; simpl in *.
      + destruct (items (config (self w)) DEFAULT_SECTION_NAME) as [kvs|e] eqn:Hkvs;
          [|by destruct Hget].
        destruct Hget as (l'' & [= <-] & Hl' & Hsub & Hlog & Hself).
        rewrite Hself. split; [by apply (Hset l' kvs)|]. split; [done|]. eauto.
      + destruct (items (config (self w)) DEFAULT_SECTION_NAME) as [kvs|e'] eqn:Hkvs.
        * by destruct Hget as (? & ? & _).
        * destruct Hget as [[= ->] ->]. split; [by apply preserved_refl|done].
  Qed.

Lemma augment_same_resolver s s' namespace metric_name hostclass asg d :
    same_resolver s s' →
    augment s' namespace metric_name hostclass asg d
    = augment s namespace metric_name hostclass asg d.
  Proof.
    intros (_ & He & Hes & Ha).
    unfold augment, with_autoscaling_group, with_search_domain, log_pattern_rewrite.
    by rewrite He, Hes, Ha.
  Qed.

Lemma synthesized_same_resolver s s' team namespace metric_name hostclass :
    same_resolver s s' →
    synthesized_fields s' team namespace metric_name hostclass
    = synthesized_fields s team namespace metric_name hostclass.
  Proof. intros (_ & He & _). unfold synthesized_fields. by rewrite He. Qed.

Lemma has_section_items cfg name :
    has_section cfg name = true → ∃ kvs, items cfg name = Ok kvs.
  Proof.
    unfold has_section, sections. intros Hin%bool_decide_eq_true.
    induction cfg as [|[n kvs] cfg IH]; [by apply elem_of_nil in Hin|].
    simpl. case_decide; [eauto|].
    apply IH. simpl in Hin. apply elem_of_cons in Hin as [?|?]; [congruence|done].
  Qed.

  (** What [_get_alarm_specification_dict] returns: nothing, a new
      dictionary object that holds the resolved options, or the exception the
      resolution raises. *)
Definition returns_options (spec : result (option (gmap string string)))
      (w : world) (r : result (option loc)) (w' : world) : Prop :=
    match spec with
    | Ok None => r = Ok None
    | Ok (Some o) => ∃ l, r = Ok (Some l) ∧ heap w' !! l = Some o ∧ heap w !! l = None
    | Raise e => r = Raise e
    end.

Lemma at_obj_preserved l d' w0 w1 w' :
    preserved w0 w1 → heap w1 !! l = None → at_obj l d' w1 w' → preserved w0 w'.
  Proof.
    intros Hpre Hl (Hh & _ & Hs & Hd).
    apply (preserved_trans _ w1); [done|].
    split; [rewrite Hh; by apply insert_subseteq|]. split; [done|].
    intros ld Hld. rewrite Hd in Hld.
    destruct Hpre as (_ & _ & Hmemo). destruct (Hmemo ld Hld) as (kvs & Hkvs & Hcontent).
    destruct Hs as (Hc & _). exists kvs. rewrite Hc. split; [done|].
    rewrite Hh, lookup_insert_ne; [done|]. intros ->. congruence.
  Qed.

Lemma wp_bind_copy {B} ld d w (k : loc → M B) (Q : result B → world → Prop) :
    heap w !! ld = Some d →
    (∀ l w', heap w !! l = None → at_obj l d w w' → wp (k l) w' Q) →
    wp (copy ld ≫= k) w Q.
  Proof.
    intros Hld Hk. unfold wp, copy. rewrite !bind_run. unfold deref. simpl.
    rewrite Hld. simpl. apply Hk; [apply fresh_loc_unused|done].
  Qed.

Lemma wp_get_alarm_specification_dict team namespace metric_name hostclass
      (hostclass_specific : bool) asg w :
    defaults_memo_ok w →
    wp (DiscoAlarmsConfig._get_alarm_specification_dict team namespace metric_name hostclass
          hostclass_specific asg) w
      (λ r w', preserved w w' ∧
               returns_options
                 (resolved_options (self w) team namespace metric_name hostclass
                    hostclass_specific asg) w r w').
  Proof.
    intros Hmemo. unfold DiscoAlarmsConfig._get_alarm_specification_dict.
    eapply wp_bind; [by apply wp_defaults|]. cbv beta.
    intros r w1 (Hpre & _ & Hr).
    unfold resolved_options, merged_sections.
    destruct (items (config (self w)) DEFAULT_SECTION_NAME) as [defaults|e] eqn:Hdefaults;
      [|by subst r].
    destruct Hr as (ld & -> & Hld).
    eapply wp_bind_copy; [eassumption|]. intros l w2 Hfresh Hat.
    assert (config (self w1) = config (self w)) as Hcfg by apply Hpre.
    assert (heap w !! l = None) as Hnew.
    { destruct Hpre as (Hsub & _). destruct (heap w !! l) as [x|] eqn:Hx; [|done].
      eapply lookup_weaken in Hx; [|exact Hsub]. congruence. }
    assert (∀ d r w',
      resolved l w1
        (augment (self w1) namespace metric_name hostclass asg
           (synthesized_fields (self w1) team namespace metric_name hostclass ∪ d)) r w' →
      preserved w w' ∧
      returns_options
        (augment (self w) namespace metric_name hostclass asg
           (synthesized_fields (self w) team namespace metric_name hostclass ∪ d)
         ≫= λ options, Ok (Some options)) w r w') as Hdone.
    { intros d r w' (d' & Hw' & Hr).
      split; [by eapply at_obj_preserved|].
      rewrite (augment_same_resolver (self w) (self w1)),
        (synthesized_same_resolver (self w) (self w1)) in Hr by apply Hpre.
      destruct (augment _ _ _ _ _ _) as [o|e]; [|done].
      destruct Hr as [-> ->]. exists l. split; [done|]. split; [|done].
      destruct Hw' as (-> & _). by rewrite lookup_insert_eq. }
    cbv zeta. destruct hostclass_specific.
    - eapply wp_bind_config_has_section; [eassumption|]. rewrite Hcfg.
      destruct (has_section (config (self w)) _) eqn:Hparent.
      + destruct (has_section_items _ _ Hparent) as (parent_options & Hp).
        apply wp_bind_assoc.
        eapply wp_bind_config_items; [eassumption|]. rewrite Hcfg, Hp.
        eapply wp_bind_update; [eassumption|]. clear w2 Hat. intros w2 Hat.
        eapply wp_bind_config_items; [eassumption|]. rewrite Hcfg.
        match goal with |- context [items ?c ?n] => destruct (items c n) as [child_options|e] end;
          [|by split; [eapply at_obj_preserved|]].
        eapply wp_bind_update; [eassumption|]. clear w2 Hat. intros w2 Hat.
        eapply wp_mono; [by eapply wp_finish|]. apply Hdone.
      + apply wp_bind_ret.
        eapply wp_bind_config_items; [eassumption|]. rewrite Hcfg.
        match goal with |- context [items ?c ?n] => destruct (items c n) as [child_options|e] end;
          [|by split; [eapply at_obj_preserved|]].
        eapply wp_bind_update; [eassumption|]. clear w2 Hat. intros w2 Hat.
        eapply wp_mono; [by eapply wp_finish|].
        intros r w' Hres. apply Hdone in Hres. revert Hres.
        unfold mbind, result_bind_inst, result_bind. cbv beta iota.
        change (dict_of_items []) with (∅ : gmap string string).
        by rewrite (left_id_L ∅ (∪)).
    - eapply wp_bind_config_has_section; [eassumption|]. rewrite Hcfg.
      destruct (has_section (config (self w)) _) eqn:Hchild.
      + apply wp_ret. split; [|done].
        apply (at_obj_preserved l (dict_of_items defaults) w w1 w2);
          done.
      + eapply wp_bind_config_items; [eassumption|]. rewrite Hcfg.
        match goal with |- context [items ?c ?n] => destruct (items c n) as [parent_options|e] end;
          [|by split; [eapply at_obj_preserved|]].
        eapply wp_bind_update; [eassumption|]. clear w2 Hat. intros w2 Hat.
        eapply wp_mono; [by eapply wp_finish|]. apply Hdone.
  Qed.
End runs.

(** ** What [get_alarms] computes *)

Section alarms.
Context `{!Externals}.
Implicit Types (w : world) (l : loc) (o : gmap string string) (s : resolver)
    (alarms : list DiscoAlarmConfig.t).

Definition threshold_error (key : string) o : exn :=
    AlarmConfigError "Not a valid threshold value for {0}: {1}" [FStr key; FDict o].

  (** The alarms of an option set: one per threshold key it holds. *)
Fixpoint thresholds_of (keys : list string) o alarms : result (list DiscoAlarmConfig.t) :=
    match keys with
    | [] => Ok alarms
    | key :: keys' =>
        match o !! key with
        | Some v =>
            if PyStr.isdigit v then
              a ← construct o (bool_decide (key = "threshold_max"));
              thresholds_of keys' o (alarms ++ [a])
            else Raise (threshold_error key o)
        | None => thresholds_of keys' o alarms
        end
    end.

Lemma wp_thresholds_loop keys l alarms w :
    wp (DiscoAlarmsConfig.thresholds_loop keys l alarms) w (λ r w',
      r = thresholds_of keys (default ∅ (heap w !! l)) alarms ∧
      heap w' = heap w ∧ self w' = self w).
  Proof.
    revert alarms w. induction keys as [|key keys IH]; intros alarms w; [done|].
    unfold wp. simpl. rewrite bind_run. unfold deref at 1. simpl.
    destruct (default ∅ (heap w !! l) !! key) as [v|]; [|apply IH].
    destruct (PyStr.isdigit v); [|done].
    rewrite bind_run.
    destruct (init_run (default ∅ (heap w !! l)) (bool_decide (key = "threshold_max")) w)
      as (Hr & Hh & Hs).
    destruct (DiscoAlarmConfig.__init__ _ _ w) as [r w1]. simpl in *. subst r.
    destruct (construct _ _) as [a|e]; simpl; [|done].
    specialize (IH (alarms ++ [a])%list w1). unfold wp in IH.
    by rewrite Hh, Hs in IH.
  Qed.

  (** The alarms one section adds for a hostclass. *)
Definition section_alarms s (hostclass : string) (asg : option string) (section : string)
      alarms : result (list DiscoAlarmConfig.t) :=
    match DiscoAlarmsConfig._decode_section_name section with
    | Raise e =>
        if bool_decide (section ∈ [NOTIFICATION_SECTION_NAME; DEFAULT_SECTION_NAME])
        then Ok alarms else Raise e
    | Ok (team, namespace, metric_name, section_hostclass) =>
        if opt_truthy section_hostclass && negb (bool_decide (section_hostclass = Some hostclass))
        then Ok alarms
        else if bool_decide (namespace = "AWS/ES") && negb (bool_decide (is_Some (elasticsearch s)))
        then Ok alarms
        else
          options ← resolved_options s team namespace metric_name hostclass
                      (bool_decide (section_hostclass = Some hostclass)) asg;
          match options with
          | Some o =>
              if dict_truthy o then thresholds_of ["threshold_max"; "threshold_min"] o alarms
              else Ok alarms
          | None => Ok alarms
          end
    end.

Fixpoint sections_alarms s (hostclass : string) (asg : option string)
      (ss : list string) alarms : result (list DiscoAlarmConfig.t) :=
    match ss with
    | [] => Ok alarms
    | section :: ss' =>
        alarms' ← section_alarms s hostclass asg section alarms;
        sections_alarms s hostclass asg ss' alarms'
    end.

  (** The alarms of a hostclass. *)
Definition all_alarms s (hostclass : string) (asg : option string)
    : result (list DiscoAlarmConfig.t) :=
    sections_alarms s hostclass asg (sections (config s)) [].

Lemma resolved_options_same_resolver s s' team namespace metric_name hostclass specific asg :
    same_resolver s s' →
    resolved_options s' team namespace metric_name hostclass specific asg
    = resolved_options s team namespace metric_name hostclass specific asg.
  Proof.
    intros Hs. unfold resolved_options.
    destruct Hs as (Hc & Hrest). rewrite Hc.
    destruct (merged_sections (config s) team namespace metric_name hostclass specific)
      as [[d|]|e];
      cbv beta iota delta [mbind result_bind_inst result_bind]; [|done..].
    by rewrite (augment_same_resolver s s'), (synthesized_same_resolver s s').
  Qed.

Lemma section_alarms_same_resolver s s' hostclass asg section alarms :
    same_resolver s s' →
    section_alarms s' hostclass asg section alarms
    = section_alarms s hostclass asg section alarms.
  Proof.
    intros Hs. unfold section_alarms.
    destruct (DiscoAlarmsConfig._decode_section_name section)
      as [[[[team namespace] metric_name] section_hostclass]|e]; [|done].
    rewrite (resolved_options_same_resolver s s') by done.
    destruct Hs as (_ & _ & -> & _). done.
  Qed.

Lemma sections_alarms_same_resolver s s' hostclass asg ss alarms :
    same_resolver s s' →
    sections_alarms s' hostclass asg ss alarms = sections_alarms s hostclass asg ss alarms.
  Proof.
    intros Hs. revert alarms. induction ss as [|section ss IH]; intros alarms; [done|].
    simpl. rewrite (section_alarms_same_resolver s s') by done.
    destruct (section_alarms s hostclass asg section alarms); simpl; [apply IH|done].
  Qed.

Lemma all_alarms_same_resolver s s' hostclass asg :
    same_resolver s s' → all_alarms s' hostclass asg = all_alarms s hostclass asg.
  Proof.
    intros Hs. unfold all_alarms. destruct (Hs) as (-> & _).
    by apply sections_alarms_same_resolver.
  Qed.

Lemma wp_get_alarms_section hostclass asg section alarms w :
    defaults_memo_ok w →
    wp (DiscoAlarmsConfig.get_alarms_section hostclass asg section alarms) w (λ r w',
      preserved w w' ∧ r = section_alarms (self w) hostclass asg section alarms).
  Proof.
    intros Hmemo. unfold DiscoAlarmsConfig.get_alarms_section, section_alarms.
    destruct (DiscoAlarmsConfig._decode_section_name section)
      as [[[[team namespace] metric_name] section_hostclass]|e] eqn:Hdecode.
    - destruct (opt_truthy section_hostclass && _); [by split; [apply preserved_refl|]|].
      apply wp_bind_get_self.
      destruct (bool_decide (namespace = "AWS/ES") && _).
      { unfold wp. rewrite bind_run. simpl. split; [|done].
        split; [done|]. split; [done|]. done. }
      eapply wp_bind; [by apply wp_get_alarm_specification_dict|]. cbv beta.
      intros r w1 (Hpre & Hr). unfold returns_options in Hr.
      destruct (resolved_options _ _ _ _ _ _ _) as [[o|]|e]; simpl; subst; try done.
      destruct Hr as (l & -> & Hl & _).
      unfold wp. rewrite bind_run. unfold deref at 1. simpl. rewrite Hl. simpl.
      destruct (dict_truthy o); simpl; [|done].
      pose proof (wp_thresholds_loop ["threshold_max"; "threshold_min"] l alarms w1) as Hloop.
      unfold wp in Hloop. rewrite Hl in Hloop. simpl in Hloop.
      destruct Hloop as (-> & Hh & Hs). split; [|done].
      apply (preserved_trans _ w1); [done|].
      destruct Hpre as (_ & _ & Hmemo1).
      split; [by rewrite Hh|]. split; [by rewrite Hs|].
      intros ld. rewrite Hs, Hh. apply Hmemo1.
    - unfold DiscoAlarmsConfig._decode_section_name in Hdecode.
      repeat case_match; done.
  Qed.

Lemma wp_for_sections hostclass asg ss alarms w :
    defaults_memo_ok w →
    wp (DiscoAlarmsConfig.for_sections
          (DiscoAlarmsConfig.get_alarms_section hostclass asg) ss alarms) w (λ r w',
      preserved w w' ∧ r = sections_alarms (self w) hostclass asg ss alarms).
  Proof.
    revert alarms w. induction ss as [|section ss IH]; intros alarms w Hmemo.
    - by split; [apply preserved_refl|].
    - simpl. eapply wp_bind; [by apply wp_get_alarms_section|]. cbv beta.
      intros r w1 (Hpre & ->).
      destruct (section_alarms (self w) hostclass asg section alarms) as [alarms'|e];
        simpl; [|done].
      eapply wp_mono; [apply IH, Hpre|]. cbv beta. intros r w2 (Hpre2 & ->).
      split; [by eapply preserved_trans|].
      apply sections_alarms_same_resolver, Hpre.
  Qed.

  (** [get_alarms] returns [all_alarms] and preserves the store and the
      resolver. *)
Lemma wp_get_alarms hostclass asg w :
    defaults_memo_ok w →
    wp (DiscoAlarmsConfig.get_alarms hostclass asg) w (λ r w',
      preserved w w' ∧ r = all_alarms (self w) hostclass asg).
  Proof.
    intros Hmemo. unfold DiscoAlarmsConfig.get_alarms.
    apply wp_bind_get_self. by apply wp_for_sections.
  Qed.
End alarms.

(** ** Merge precedence and shadowing *)

Section merge.
Context `{!Externals}.
Implicit Types (w : world) (s : resolver).

  (** The first value at hand: [a] when it is set, else [b]. *)
Definition or_else (a b : option string) : option string :=
    match a with
    | Some v => Some v
    | None => b
    end.

  (** The entries of a section, none when the section does not exist. *)
Definition section_or_empty (cfg : ConfigStore) (name : string) : list (string * string) :=
    match items cfg name with
    | Ok kvs => kvs
    | Raise _ => []
    end.

  (** The four layers of a hostclass-specific resolution, the later ones
      first. *)
Definition layered s (team namespace metric_name hostclass : string)
      (defaults parent child : gmap string string) : gmap string string :=
    synthesized_fields s team namespace metric_name hostclass ∪ (child ∪ (parent ∪ defaults)).

  (** The options the augmentation that follows the layers may set. *)
Definition augmented_keys : list string :=
    ["autoscaling_group_name"; "es_domain_name"; "es_client_id"; "namespace"; "metric_name"].

Lemma lookup_union_or_else (m1 m2 : gmap string string) (k : string) :
    (m1 ∪ m2) !! k = or_else (m1 !! k) (m2 !! k).
  Proof. rewrite lookup_union. by destruct (m1 !! k), (m2 !! k). Qed.


Lemma has_section_false_items cfg name :
    has_section cfg name = false → items cfg name = Raise (NoSectionError name).
  Proof.
    unfold has_section, sections. intros Hin%bool_decide_eq_false.
    induction cfg as [|[n kvs'] cfg IH]; [done|].
    simpl in *. apply not_elem_of_cons in Hin as [Hne Hin].
    rewrite decide_False by done. by apply IH.
  Qed.

Lemma augment_other_keys s namespace metric_name hostclass asg d o k :
    augment s namespace metric_name hostclass asg d = Ok o →
    k ∉ augmented_keys → o !! k = d !! k.
  Proof.
    unfold augmented_keys. intros Haug Hk.
    repeat (apply not_elem_of_cons in Hk as [? Hk]).
    revert Haug. unfold augment, with_autoscaling_group, with_search_domain,
      log_pattern_rewrite, mbind, result_bind_inst, result_bind.
    repeat case_match; intros; simplify_eq; by rewrite ?lookup_insert_ne by done.
  Qed.

Lemma merged_specific cfg team namespace metric_name hostclass defaults child :
    items cfg DEFAULT_SECTION_NAME = Ok defaults →
    items cfg (PyStr.join "." [team; namespace; metric_name; hostclass]) = Ok child →
    merged_sections cfg team namespace metric_name hostclass true
    = Ok (Some (dict_of_items child ∪
                (dict_of_items
                   (section_or_empty cfg (PyStr.join "." [team; namespace; metric_name])) ∪
                 dict_of_items defaults))).
  Proof.
    intros Hd Hc. unfold merged_sections, section_or_empty. cbv zeta.
    rewrite Hd, Hc. cbv beta iota delta [mbind result_bind_inst result_bind].
    destruct (has_section cfg (PyStr.join "." [team; namespace; metric_name])) eqn:Hp.
    - destruct (has_section_items _ _ Hp) as (parent & ->). done.
    - by rewrite (has_section_false_items _ _ Hp).
  Qed.

  (** C1. In hostclass-specific mode the options are built from four layers,
      a later layer overwriting an earlier one on the same key: the defaults
      section, the parent section when it exists, the child section, and the
      fields team, namespace, metric_name, hostclass and environment.  The
      call returns a new dictionary holding these layers after the
      augmentation of lines 272-289, which leaves every other key as the
      layers have it, or raises what the augmentation raises. *)
Theorem hostclass_specific_merge_precedence
      (team namespace metric_name hostclass : string) (asg : option string) w
      (defaults child : list (string * string)) :
    defaults_memo_ok w →
    items (config (self w)) DEFAULT_SECTION_NAME = Ok defaults →
    items (config (self w)) (PyStr.join "." [team; namespace; metric_name; hostclass])
    = Ok child →
    let parent :=
      section_or_empty (config (self w)) (PyStr.join "." [team; namespace; metric_name]) in
    let fields := synthesized_fields (self w) team namespace metric_name hostclass in
    let layers :=
      layered (self w) team namespace metric_name hostclass
        (dict_of_items defaults) (dict_of_items parent) (dict_of_items child) in
    let run :=
      DiscoAlarmsConfig._get_alarm_specification_dict team namespace metric_name hostclass
        true asg w in
    (∀ k, layers !! k
          = or_else (fields !! k)
              (or_else (dict_of_items child !! k)
                 (or_else (dict_of_items parent !! k) (dict_of_items defaults !! k)))) ∧
    match augment (self w) namespace metric_name hostclass asg layers with
    | Ok o =>
        ∃ l, run.1 = Ok (Some l) ∧ heap run.2 !! l = Some o ∧ heap w !! l = None ∧
             ∀ k, k ∉ augmented_keys → o !! k = layers !! k
    | Raise e => run.1 = Raise e
    end.
  Proof.
    intros Hmemo Hd Hc parent fields layers run. split.
    - intros k. unfold layers, layered. by rewrite !lookup_union_or_else.
    - pose proof (wp_get_alarm_specification_dict team namespace metric_name hostclass
                    true asg w Hmemo) as (_ & Hrun).
      fold run in Hrun. unfold returns_options, resolved_options in Hrun.
      rewrite (merged_specific _ _ _ _ _ _ _ Hd Hc) in Hrun.
      cbv beta iota delta [mbind result_bind_inst result_bind] in Hrun.
      fold parent in Hrun.
      change (synthesized_fields (self w) team namespace metric_name hostclass ∪ _)
        with layers in Hrun.
      destruct (augment (self w) namespace metric_name hostclass asg layers) as [o|e] eqn:Haug;
        [|done].
      destruct Hrun as (l & Hl & Ho & Hnew). exists l. repeat split; try done.
      intros k Hk. by eapply augment_other_keys.
  Qed.
End merge.


Ltac not_in_list :=
  let Hin := fresh "Hin" in
  intros Hin;
  repeat (apply elem_of_cons in Hin as [Hin|Hin]; [discriminate Hin|]);
  by apply elem_of_nil in Hin.

Lemma fresh_world_memo_ok `{!Externals} env cfg : defaults_memo_ok (fresh_world env cfg).
Proof. by intros l. Qed.

(** The configuration of the merge example: defaults [{period: 60}], parent
    [{period: 300, statistic: Average}], child [{period: 120}]. *)
Definition merge_config : ConfigStore :=
  [("defaults", [("period", "60")]);
   ("team.ns.metric", [("period", "300"); ("statistic", "Average")]);
   ("team.ns.metric.hostX", [("period", "120")])].

Lemma hostclass_specific_merge_precedence_witness :
  let run :=
    @DiscoAlarmsConfig._get_alarm_specification_dict sample_externals
      "team" "ns" "metric" "hostX" true None (fresh_world "prod" merge_config) in
  ∃ l o, run.1 = Ok (Some l) ∧ heap run.2 !! l = Some o ∧
         o !! "period" = Some "120" ∧ o !! "statistic" = Some "Average" ∧
         o !! "hostclass" = Some "hostX".
Proof.
  intros run.
  destruct (@hostclass_specific_merge_precedence sample_externals
              "team" "ns" "metric" "hostX" None (fresh_world "prod" merge_config)
              [("period", "60")] [("period", "120")]
              (@fresh_world_memo_ok sample_externals _ _) eq_refl eq_refl) as [Hprec Hrun].
  fold run in Hrun. clearbody run.
  match type of Hrun with
  | match ?augmented with _ => _ end => destruct augmented as [o|e] eqn:Haug
  end.
  2:{ exfalso. clear -Haug. apply (f_equal is_ok) in Haug. vm_compute in Haug.
      discriminate Haug. }
  destruct Hrun as (l & Hl & Ho & _ & Hother).
  exists l, o. split; [exact Hl|]. split; [exact Ho|].
  rewrite !Hother by (unfold augmented_keys; not_in_list).
  rewrite !Hprec. clear. vm_compute. repeat split.
Defined.

Section shadowing.
Context `{!Externals}.
Implicit Types (w : world) (s : resolver).



End shadowing.


(** ** Threshold processing *)

Section digits.
Lemma digit_not_space c : PyStr.is_digit c = true → PyStr.is_space c = false.
  Proof.
    unfold PyStr.is_digit, PyStr.is_space.
    intros [H1%Nat.leb_le H2%Nat.leb_le]%andb_true_iff.
    apply orb_false_intro.
    - apply Nat.eqb_neq. lia.
    - apply andb_false_iff. right. apply Nat.leb_gt. lia.
  Qed.

Lemma rstrip_digits s : PyStr.all_chars PyStr.is_digit s = true → PyStr.rstrip s = s.
  Proof.
    induction s as [|c s IH]; [done|]. simpl.
    intros [Hc Hs]%andb_true_iff. rewrite (IH Hs).
    destruct s; [|done]. by rewrite (digit_not_space c Hc).
  Qed.

Lemma digits_value_nonneg s acc :
    PyStr.all_chars PyStr.is_digit s = true → (0 ≤ acc)%Z →
    ∃ z, PyStr.digits_value acc s = Some z ∧ (0 ≤ z)%Z.
  Proof.
    revert acc. induction s as [|c s IH]; intros acc; simpl; [eauto|].
    intros [Hc Hs]%andb_true_iff Hacc. rewrite Hc. apply IH; [done|].
    unfold PyStr.digit_value. unfold PyStr.is_digit in Hc.
    apply andb_true_iff in Hc as [H1%Nat.leb_le _]. lia.
  Qed.

  (** A string of digits is an integer literal, and not a negative one. *)
Lemma isdigit_int v :
    PyStr.isdigit v = true → ∃ z, PyStr.int v = Some z ∧ (0 ≤ z)%Z.
  Proof.
    destruct v as [|c s]; [done|]. unfold PyStr.isdigit. intros Hall.
    pose proof Hall as [Hc Hs]%andb_true_iff.
    unfold PyStr.int.
    replace (PyStr.lstrip (String c s)) with (String c s)
      by (simpl; by rewrite (digit_not_space c Hc)).
    rewrite (rstrip_digits _ Hall).
    destruct (digits_value_nonneg (String c s) 0 Hall) as (z & Hz & Hpos); [lia|].
    exists z. split; [|done].
    destruct c as [[] [] [] [] [] [] [] []]; try discriminate Hc; exact Hz.
  Qed.
End digits.

Section thresholds.
Context `{!Externals}.
Implicit Types (w : world) (l : loc) (o : gmap string string)
    (alarms : list DiscoAlarmConfig.t).






End thresholds.

(** An option set with both thresholds, [80] and [10]. *)
Definition both_thresholds : gmap string string :=
  dict_of_items
    [("namespace", "AWS/EC2"); ("metric_name", "CPUUtilization"); ("hostclass", "mhcweb");
     ("environment", "prod"); ("team", "ops"); ("duration", "5"); ("period", "60");
     ("statistic", "Average"); ("custom_metric", "false"); ("level", "critical");
     ("threshold_max", "80"); ("threshold_min", "10")].



(** ** Section names and malformed sections *)

Section fail_fast.
Context `{!Externals}.
Implicit Types (w : world) (alarms : list DiscoAlarmConfig.t).

Definition section_name_error (section : string) : exn :=
    AlarmConfigError "Skipping non-alarm like config section {0}." [FStr section].

  (** A section name with fewer than three segments. *)
Definition malformed_section (section : string) : Prop :=
    (length (PyStr.split "." section) < 3)%nat.

Definition reserved_sections : list string :=
    [NOTIFICATION_SECTION_NAME; DEFAULT_SECTION_NAME].

Lemma get_alarms_section_malformed hostclass asg section alarms w :
    malformed_section section → section ∉ reserved_sections →
    DiscoAlarmsConfig.get_alarms_section hostclass asg section alarms w
    = (Raise (section_name_error section), w).
  Proof.
    intros Hshort Hreserved. unfold DiscoAlarmsConfig.get_alarms_section.
    rewrite (decode_section_name_short section Hshort).
    by rewrite bool_decide_eq_false_2.
  Qed.

Lemma for_sections_app body (pre rest : list string) alarms w :
    DiscoAlarmsConfig.for_sections body (pre ++ rest) alarms w
    = match DiscoAlarmsConfig.for_sections body pre alarms w with
      | (Ok alarms', w') => DiscoAlarmsConfig.for_sections body rest alarms' w'
      | (Raise e, w') => (Raise e, w')
      end.
  Proof.
    revert alarms w. induction pre as [|section pre IH]; intros alarms w; [done|].
    simpl. rewrite !bind_run. destruct (body section alarms w) as [[alarms'|e] w']; [|done].
    apply IH.
  Qed.

Lemma for_sections_raises body (ss : list string) alarms w section :
    section ∈ ss →
    (∀ alarms w, ∃ e, (body section alarms w).1 = Raise e) →
    ∃ e, (DiscoAlarmsConfig.for_sections body ss alarms w).1 = Raise e.
  Proof.
    intros Hin Hbody. revert alarms w.
    induction ss as [|section' ss IH]; intros alarms w; [by apply elem_of_nil in Hin|].
    simpl. rewrite bind_run.
    destruct (body section' alarms w) as [[alarms'|e] w'] eqn:Hrun; [|by exists e].
    apply elem_of_cons in Hin as [->|Hin]; [|by apply IH].
    destruct (Hbody alarms w) as [e He]. rewrite Hrun in He. done.
  Qed.

  (** C4. A section name is split on '.'.  With four or more segments it
      decodes to the first segment as team, the second as namespace, the last
      as hostclass and what lies between, joined with '.', as metric name;
      with exactly three, to team, namespace and metric name without
      hostclass; with fewer it raises [AlarmConfigError] with a message that
      holds the section name.  In [get_alarms] the sections notifications and
      defaults are skipped, and any other section of fewer than three segments
      makes the call raise whatever the hostclass: that very error when the
      sections before it raised nothing, and in no case a list of alarms. *)
Theorem section_decoding_fail_fast :
    (∀ section team namespace m mid hostclass,
        PyStr.split "." section = team :: namespace :: ((m :: mid) ++ [hostclass])%list →
        DiscoAlarmsConfig._decode_section_name section
        = Ok (team, namespace, PyStr.join "." (m :: mid), Some hostclass)) ∧
    (∀ section team namespace metric_name,
        PyStr.split "." section = [team; namespace; metric_name] →
        DiscoAlarmsConfig._decode_section_name section
        = Ok (team, namespace, metric_name, None)) ∧
    (∀ section,
        malformed_section section →
        DiscoAlarmsConfig._decode_section_name section = Raise (section_name_error section)) ∧
    (∀ section hostclass asg alarms w,
        section ∈ reserved_sections →
        DiscoAlarmsConfig.get_alarms_section hostclass asg section alarms w = (Ok alarms, w)) ∧
    (∀ section hostclass asg w,
        section ∈ sections (config (self w)) →
        malformed_section section → section ∉ reserved_sections →
        ∃ e, (DiscoAlarmsConfig.get_alarms hostclass asg w).1 = Raise e) ∧
    (∀ section hostclass asg w pre post alarms,
        sections (config (self w)) = (pre ++ section :: post)%list →
        malformed_section section → section ∉ reserved_sections →
        (DiscoAlarmsConfig.for_sections
           (DiscoAlarmsConfig.get_alarms_section hostclass asg) pre [] w).1 = Ok alarms →
        (DiscoAlarmsConfig.get_alarms hostclass asg w).1 = Raise (section_name_error section)).
  Proof.
    split; [|split; [|split; [|split; [|split]]]].
    - intros. by apply decode_section_name_long.
    - intros section team namespace metric_name Hparts.
      unfold DiscoAlarmsConfig._decode_section_name. by rewrite Hparts.
    - apply decode_section_name_short.
    - intros section hostclass asg alarms w Hin.
      apply elem_of_cons in Hin as [->|Hin]; [done|].
      apply elem_of_cons in Hin as [->|Hin]; [done|]. by apply elem_of_nil in Hin.
    - intros section hostclass asg w Hin Hshort Hreserved.
      unfold DiscoAlarmsConfig.get_alarms. rewrite bind_run. simpl.
      apply (for_sections_raises _ _ _ _ section); [done|].
      intros alarms w'. exists (section_name_error section).
      by rewrite get_alarms_section_malformed.
    - intros section hostclass asg w pre post alarms Hsections Hshort Hreserved Hpre.
      unfold DiscoAlarmsConfig.get_alarms. rewrite bind_run. simpl.
      rewrite Hsections, for_sections_app.
      destruct (DiscoAlarmsConfig.for_sections _ pre [] w) as [[alarms'|e] w']; [|done].
      simpl. rewrite bind_run. by rewrite get_alarms_section_malformed.
  Qed.
End fail_fast.

(** A configuration with a section that is not named like an alarm. *)
Definition malformed_config : ConfigStore :=
  [("defaults",
    [("period", "60"); ("duration", "5"); ("statistic", "Average");
     ("custom_metric", "false"); ("level", "critical")]);
   ("team.ns.metric", [("threshold_max", "80")]);
   ("bogus.section", [("threshold_max", "1")]);
   ("team.ns.other.hostY", [("threshold_min", "3")])].

Lemma section_decoding_fail_fast_witness :
  (@DiscoAlarmsConfig.get_alarms sample_externals "hostY" None
     (fresh_world "prod" malformed_config)).1
  = Raise (section_name_error "bogus.section").
Proof.
  destruct (@section_decoding_fail_fast sample_externals) as (_ & _ & _ & _ & _ & Hfirst).
  eapply (Hfirst "bogus.section" "hostY" None (fresh_world "prod" malformed_config)
            ["defaults"; "team.ns.metric"] ["team.ns.other.hostY"]).
  - reflexivity.
  - unfold malformed_section. simpl. lia.
  - unfold reserved_sections. not_in_list.
  - vm_compute. reflexivity.
Defined.

(** ** The memoized defaults across calls *)

Section defaults_frame.
Context `{!Externals}.
Implicit Types (w : world) (calls : list (string * option string)).

  (** The world after a sequence of [get_alarms] calls, each given as its
      hostclass and autoscaling group name, whatever they return or raise. *)
Definition after_calls calls w : world :=
    foldl (λ w call, (DiscoAlarmsConfig.get_alarms call.1 call.2 w).2) w calls.

Lemma after_calls_preserved calls w :
    defaults_memo_ok w → preserved w (after_calls calls w).
  Proof.
    revert w. induction calls as [|[hostclass asg] calls IH]; intros w Hmemo.
    - by apply preserved_refl.
    - simpl. destruct (wp_get_alarms hostclass asg w Hmemo) as (Hpre & _).
      eapply preserved_trans; [exact Hpre|]. apply IH, Hpre.
  Qed.

  (** C10. On a resolver as [__init__] leaves it, after any sequence of
      [get_alarms] calls: the memoized defaults, once set, refer to a
      dictionary equal to the defaults section; a further call changes no
      dictionary object that exists, the one of the defaults included, since a
      resolution only writes to the copy it makes; and a call returns or
      raises what the same call gives on the resolver before the sequence. *)
Theorem get_alarms_keeps_defaults (env : string) (cfg : ConfigStore)
      (autoscale : option Autoscale) (es : option Elasticsearch)
      (objects : gmap loc (gmap string string)) (records : list log_record) calls :
    let w0 := World objects records (DiscoAlarmsConfig.__init__ env cfg autoscale es) in
    let w := after_calls calls w0 in
    (∀ l, _defaults (self w) = Some l →
          ∃ kvs, items cfg DEFAULT_SECTION_NAME = Ok kvs ∧
                 heap w !! l = Some (dict_of_items kvs)) ∧
    (∀ hostclass asg l d,
        heap w !! l = Some d →
        heap (DiscoAlarmsConfig.get_alarms hostclass asg w).2 !! l = Some d) ∧
    (∀ hostclass asg,
        (DiscoAlarmsConfig.get_alarms hostclass asg w).1
        = (DiscoAlarmsConfig.get_alarms hostclass asg w0).1).
  Proof.
    intros w0 w.
    assert (defaults_memo_ok w0) as Hmemo0 by by intros l.
    pose proof (after_calls_preserved calls w0 Hmemo0) as Hpre. fold w in Hpre.
    pose proof Hpre as (_ & Hsame & Hmemo).
    split; [|split].
    - intros l Hl. destruct (Hmemo l Hl) as (kvs & Hkvs & Hd).
      destruct Hsame as (Hcfg & _). rewrite Hcfg in Hkvs. eauto.
    - intros hostclass asg l d Hl.
      destruct (wp_get_alarms hostclass asg w Hmemo) as ((Hsub & _) & _).
      by eapply lookup_weaken.
    - intros hostclass asg.
      destruct (wp_get_alarms hostclass asg w Hmemo) as (_ & ->).
      destruct (wp_get_alarms hostclass asg w0 Hmemo0) as (_ & ->).
      by apply all_alarms_same_resolver.
  Qed.
End defaults_frame.

(** Two calls on the resolver of the merge example: the defaults are
    memoized and still hold [{period: 60}], and the second call returns what
    the first one did. *)
Lemma get_alarms_keeps_defaults_witness :
  let w0 := fresh_world "prod" merge_config in
  let w1 := (@DiscoAlarmsConfig.get_alarms sample_externals "hostX" None w0).2 in
  (∃ l, _defaults (self w1) = Some l ∧ heap w1 !! l = Some (dict_of_items [("period", "60")])) ∧
  (@DiscoAlarmsConfig.get_alarms sample_externals "hostX" None w1).1
  = (@DiscoAlarmsConfig.get_alarms sample_externals "hostX" None w0).1.
Proof.
  intros w0 w1.
  destruct (@get_alarms_keeps_defaults sample_externals "prod" merge_config None None ∅ []
              [("hostX", None)]) as (Hmemo & _ & Hsame).
  split; [|apply Hsame].
  assert (∃ l, _defaults (self w1) = Some l) as [l Hl] by (vm_compute; eauto).
  exists l. split; [done|].
  destruct (Hmemo l Hl) as (kvs & Hkvs & Hd).
  injection Hkvs as <-. exact Hd.
Defined.

(** * Further properties *)

(** ** Load balancer and target group names *)

Section string_facts.
Implicit Types (s t : string) (p : ascii → bool).

Lemma string_length_app s t : String.length (s ++ t) = (String.length s + String.length t)%nat.
Proof. induction s as [|c s IH]; [done|]. change (S (String.length (s ++ t)) = S (String.length s + String.length t)). by rewrite IH. Qed.

Lemma keep_app p s t : PyStr.keep p (s ++ t) = PyStr.keep p s ++ PyStr.keep p t.
Proof.
  induction s as [|c s IH]; [done|].
  change (PyStr.keep p (String c (s ++ t)) = PyStr.keep p (String c s) ++ PyStr.keep p t).
  simpl. destruct (p c); [|done].
  change (String c (PyStr.keep p (s ++ t)) = String c (PyStr.keep p s ++ PyStr.keep p t)).
  by rewrite IH.
Qed.

Lemma keep_all_chars p s : PyStr.all_chars p (PyStr.keep p s) = true.
Proof.
  induction s as [|c s IH]; [done|]. simpl.
  destruct (p c) eqn:Hc; [|done]. simpl. by rewrite Hc.
Qed.

Lemma keep_fixed p s : PyStr.all_chars p s = true → PyStr.keep p s = s.
Proof.
  induction s as [|c s IH]; [done|]. simpl.
  intros [Hc Hs]%andb_true_iff. rewrite Hc. by rewrite IH.
Qed.

Lemma keep_length p s : (String.length (PyStr.keep p s) ≤ String.length s)%nat.
Proof. induction s as [|c s IH]; [done|]. simpl. destruct (p c); simpl; lia. Qed.

Lemma string_prefix_length n s : String.length (PyStr.prefix n s) = (n `min` String.length s)%nat.
Proof.
  revert s. induction n as [|n IH]; intros [|c s]; simpl; try done. by rewrite IH.
Qed.

Lemma all_chars_app p s t :
  PyStr.all_chars p (s ++ t) = PyStr.all_chars p s && PyStr.all_chars p t.
Proof.
  induction s as [|c s IH]; [done|].
  change (p c && PyStr.all_chars p (s ++ t) = p c && PyStr.all_chars p s && PyStr.all_chars p t).
  rewrite IH. by destruct (p c).
Qed.

Lemma all_chars_prefix p n s :
  PyStr.all_chars p s = true → PyStr.all_chars p (PyStr.prefix n s) = true.
Proof.
  revert s. induction n as [|n IH]; intros [|c s]; simpl; try done.
  intros [Hc Hs]%andb_true_iff. by rewrite Hc, IH.
Qed.

Lemma replace_char_length old new s :
  String.length (PyStr.replace_char old new s) = String.length s.
Proof. induction s as [|c s IH]; [done|]. simpl. by rewrite IH. Qed.

Lemma replace_char_absent old new s :
  old ≠ new → PyStr.contains old (PyStr.replace_char old new s) = false.
Proof.
  intros Hne. induction s as [|c s IH]; [done|]. simpl. rewrite IH.
  destruct (decide (c = old)) as [->|Hc].
  - by rewrite bool_decide_eq_false_2 by done.
  - by rewrite bool_decide_eq_false_2.
Qed.

Lemma replace_char_fixed old new s :
  PyStr.contains old s = false → PyStr.replace_char old new s = s.
Proof.
  induction s as [|c s IH]; [done|]. simpl.
  intros [Hc Hs]%orb_false_iff. apply bool_decide_eq_false in Hc.
  rewrite decide_False by done. by rewrite IH.
Qed.
End string_facts.

Section elb_names.
Context `{!Externals}.

(** [get_elb_name]: the name returned holds only letters, digits and dashes
    and at most 255 characters, it is what is left of
    [environment-hostclass(-test)] once every other character is dropped, and
    the call raises [CommandError] exactly when more than 255 characters are
    left. *)
Lemma get_elb_name_charset (environment_name hostclass : string) (testing : bool) :
  let elb_name :=
    PyStr.keep DiscoELB.name_char
      (environment_name ++ "-" ++ hostclass ++ (if testing then "-test" else "")) in
  PyStr.all_chars DiscoELB.name_char elb_name = true ∧
  ((String.length elb_name ≤ 255)%nat →
     DiscoELB.get_elb_name environment_name hostclass testing = Ok elb_name) ∧
  ((255 < String.length elb_name)%nat →
     DiscoELB.get_elb_name environment_name hostclass testing
     = Raise (CommandError ("ELB name " ++ elb_name ++ " is over 255 characters"))).
Proof.
  intros elb_name. split; [apply keep_all_chars|].
  assert (DiscoELB.get_elb_name environment_name hostclass testing
          = if (255 <? String.length elb_name)%nat
            then Raise (CommandError ("ELB name " ++ elb_name ++ " is over 255 characters"))
            else Ok elb_name) as ->.
  { unfold DiscoELB.get_elb_name, elb_name. destruct testing.
    - by rewrite !append_assoc.
    - replace (hostclass ++ "") with hostclass; [done|].
      clear. induction hostclass as [|c s IH]; [done|].
      change (String c s = String c (s ++ "")). by rewrite <- IH. }
  split; intros Hlen.
  - by apply Nat.ltb_ge in Hlen as ->.
  - by apply Nat.ltb_lt in Hlen as ->.
Qed.
End elb_names.

Section elb_names2.
Context `{!Externals}.

(** [get_elb_name] and [get_elb_id] see of the environment and of the
    hostclass only their letters, digits and dashes: arguments that differ
    in other characters alone (an underscore, a dot) name the same load
    balancer. *)
Lemma get_elb_id_ignores_other_characters
    (environment_name hostclass environment_name' hostclass' : string) (testing : bool) :
  PyStr.keep DiscoELB.name_char environment_name
    = PyStr.keep DiscoELB.name_char environment_name' →
  PyStr.keep DiscoELB.name_char hostclass = PyStr.keep DiscoELB.name_char hostclass' →
  DiscoELB.get_elb_name environment_name hostclass testing
    = DiscoELB.get_elb_name environment_name' hostclass' testing ∧
  DiscoELB.get_elb_id environment_name hostclass testing
    = DiscoELB.get_elb_id environment_name' hostclass' testing.
Proof.
  intros Henv Hhc.
  assert (DiscoELB.get_elb_name environment_name hostclass testing
          = DiscoELB.get_elb_name environment_name' hostclass' testing) as Hname.
  { unfold DiscoELB.get_elb_name. cbv zeta.
    assert (∀ e h : string,
              PyStr.keep DiscoELB.name_char
                (if testing then (e ++ "-" ++ h) ++ "-test" else e ++ "-" ++ h)
              = PyStr.keep DiscoELB.name_char e ++ "-" ++ PyStr.keep DiscoELB.name_char h
                ++ (if testing then "-test" else "")) as Hkeep.
    { intros e h. destruct testing.
      - rewrite !keep_app, !append_assoc. reflexivity.
      - rewrite !keep_app.
        replace (PyStr.keep DiscoELB.name_char h ++ "")
          with (PyStr.keep DiscoELB.name_char h); [done|].
        generalize (PyStr.keep DiscoELB.name_char h). clear.
        intros s. induction s as [|c s IH]; [done|].
        change (String c s = String c (s ++ "")). by rewrite <- IH. }
    by rewrite !Hkeep, Henv, Hhc. }
  split; [done|]. unfold DiscoELB.get_elb_id. by rewrite Hname.
Qed.

(** The identifier of a load balancer has at most 32 characters, and exactly
    32 when the digest has that many: the 64 of a SHA-256 hexdigest do. *)
Lemma get_elb_id_length (environment_name hostclass : string) (testing : bool) (elb_id : string) :
  DiscoELB.get_elb_id environment_name hostclass testing = Ok elb_id →
  (String.length elb_id ≤ 32)%nat ∧
  ((∀ s, String.length (sha256_hexdigest s) = 64%nat) → String.length elb_id = 32%nat).
Proof.
  unfold DiscoELB.get_elb_id.
  destruct (DiscoELB.get_elb_name environment_name hostclass testing) as [n|e]; [|done].
  cbv beta iota delta [mbind result_bind_inst result_bind].
  intros Hid.
  assert (elb_id = PyStr.prefix 32 (sha256_hexdigest n)) as -> by congruence.
  rewrite string_prefix_length. split; [lia|].
  intros Hdigest. rewrite Hdigest. done.
Qed.

(** [get_target_group_name]: never more than 32 characters; a name of at
    most 32 characters is [environment-hostclass] with every underscore
    replaced by a dash, so it holds no underscore; a longer one keeps its
    first 27 characters, followed by at most 5 of the digest. *)
Lemma get_target_group_name_bound (environment_name hostclass : string) :
  let dashed := PyStr.replace_char "_" "-" (environment_name ++ "-" ++ hostclass) in
  let group_name := DiscoELB.get_target_group_name environment_name hostclass in
  (String.length group_name ≤ 32)%nat ∧
  PyStr.prefix 27 group_name = PyStr.prefix 27 dashed ∧
  ((String.length environment_name + String.length hostclass < 32)%nat →
     group_name = dashed ∧ PyStr.contains "_" group_name = false) ∧
  ((32 ≤ String.length environment_name + String.length hostclass)%nat →
     group_name = PyStr.prefix 27 dashed ++ PyStr.prefix 5 (sha256_hexdigest dashed)).
Proof.
  intros dashed group_name.
  assert (String.length dashed = S (String.length environment_name + String.length hostclass))
    as Hlen.
  { unfold dashed. rewrite replace_char_length, string_length_app.
    change (String.length ("-" ++ hostclass)) with (S (String.length hostclass)). lia. }
  assert (group_name
          = if (32 <? String.length dashed)%nat
            then PyStr.prefix 27 dashed ++ PyStr.prefix 5 (sha256_hexdigest dashed)
            else dashed) as Hname by done.
  assert (∀ (n : nat) (s t : string), (n ≤ String.length s)%nat →
            PyStr.prefix n (s ++ t) = PyStr.prefix n s) as Hprefix_app.
  { induction n as [|n IH]; intros s t Hn; [done|].
    destruct s as [|c s]; simpl in Hn; [lia|].
    change (String c s ++ t) with (String c (s ++ t)). simpl. rewrite IH by lia. done. }
  assert (∀ (n : nat) (s : string), PyStr.prefix n (PyStr.prefix n s) = PyStr.prefix n s)
    as Hprefix_idem.
  { induction n as [|n IH]; intros [|c s]; simpl; try done. by rewrite IH. }
  rewrite Hname. destruct (32 <? String.length dashed)%nat eqn:Hlong.
  - apply Nat.ltb_lt in Hlong. split; [|split; [|split]].
    + rewrite string_length_app, !string_prefix_length. lia.
    + rewrite Hprefix_app by (rewrite string_prefix_length; lia). apply Hprefix_idem.
    + lia.
    + done.
  - apply Nat.ltb_ge in Hlong. split; [|split; [|split]].
    + done.
    + done.
    + intros _. split; [done|]. by apply replace_char_absent.
    + lia.
Qed.
End elb_names2.

Lemma get_elb_id_ignores_other_characters_witness :
  @DiscoELB.get_elb_id sample_externals "ci" "mhc_web" false
  = @DiscoELB.get_elb_id sample_externals "ci" "mhcweb" false.
Proof.
  exact (proj2 (@get_elb_id_ignores_other_characters sample_externals
                  "ci" "mhc_web" "ci" "mhcweb" false eq_refl eq_refl)).
Defined.

Lemma get_elb_id_length_witness :
  (String.length "ci-mhcweb" ≤ 32)%nat ∧
  ((∀ s, String.length (@sha256_hexdigest sample_externals s) = 64%nat) →
     String.length "ci-mhcweb" = 32%nat).
Proof.
  exact (@get_elb_id_length sample_externals "ci" "mhcweb" false "ci-mhcweb" eq_refl).
Defined.

(** ** Port and protocol configuration of a load balancer *)

Section port_config.
Import DiscoELBPortConfig.

Lemma result_bind_ok {A B} (r : result A) (k : A → result B) (b : B) :
  (r ≫= k) = Ok b ↔ ∃ a, r = Ok a ∧ k a = Ok b.
Proof.
  unfold mbind, result_bind_inst, result_bind. destruct r as [a|e].
  - split; [eauto|]. by intros (a' & [= <-] & ?).
  - split; [done|]. by intros (a' & ? & _).
Qed.

Lemma comprehension_ok {A B} (f : A → result B) (l : list A) (bs : list B) :
  comprehension f l = Ok bs ↔ Forall2 (λ a b, f a = Ok b) l bs.
Proof.
  revert bs. induction l as [|a l IH]; intros bs; simpl.
  - split; [intros [= <-]; constructor|]. by intros ->%Forall2_nil_inv_l.
  - rewrite result_bind_ok. split.
    + intros (b & Hb & Hrest). apply result_bind_ok in Hrest as (bs' & Hbs & [= <-]).
      constructor; [done|]. by apply IH.
    + intros (b & bs' & Hb & Hbs & ->)%Forall2_cons_inv_l.
      exists b. split; [done|]. apply result_bind_ok. exists bs'. split; [by apply IH|done].
Qed.

Lemma comprehension_raises {A B} (f : A → result B) (good : list A) (bad : A)
    (rest : list A) (e : exn) :
  Forall (λ a, is_ok (f a) = true) good → f bad = Raise e →
  comprehension f (good ++ bad :: rest) = Raise e.
Proof.
  intros Hgood Hbad. induction Hgood as [|a good Ha _ IH]; simpl.
  - by rewrite Hbad.
  - destruct (f a); [|done]. simpl. by rewrite IH.
Qed.

Lemma comprehension_total {A B} (f : A → B) (l : list A) :
  comprehension (λ a, Ok (f a)) l = Ok (f <$> l).
Proof. induction l as [|a l IH]; [done|]. simpl. by rewrite IH. Qed.

Section zip.
Context {X Y : Type} (default_x : Y → result X) (default_y : X → result Y).

Lemma zip_only_x (xs : list X) (l : list (X * Y)) :
  _zip_with_defaults xs [] default_x default_y = Ok l →
  l.*1 = xs ∧ Forall (λ p, default_y p.1 = Ok p.2) l.
Proof.
  unfold _zip_with_defaults.
  replace (izip_longest xs []) with (@OnlyX X Y <$> xs) by (by destruct xs).
  revert l. induction xs as [|x xs IH]; intros l; simpl.
  - by intros [= <-].
  - intros (p & Hp & Hrest)%result_bind_ok.
    apply result_bind_ok in Hp as (y & Hy & [= <-]).
    apply result_bind_ok in Hrest as (l' & Hl' & [= <-]).
    destruct (IH _ Hl') as [? ?]. split; [by f_equal/=|by constructor].
Qed.

Lemma zip_only_y (ys : list Y) (l : list (X * Y)) :
  _zip_with_defaults [] ys default_x default_y = Ok l →
  l.*2 = ys ∧ Forall (λ p, default_x p.2 = Ok p.1) l.
Proof.
  unfold _zip_with_defaults. simpl.
  revert l. induction ys as [|y ys IH]; intros l; simpl.
  - by intros [= <-].
  - intros (p & Hp & Hrest)%result_bind_ok.
    apply result_bind_ok in Hp as (x & Hx & [= <-]).
    apply result_bind_ok in Hrest as (l' & Hl' & [= <-]).
    destruct (IH _ Hl') as [? ?]. split; [by f_equal/=|by constructor].
Qed.

Lemma zip_cons (x : X) (y : Y) (xs : list X) (ys : list Y) (l : list (X * Y)) :
  _zip_with_defaults (x :: xs) (y :: ys) default_x default_y = Ok l ↔
  ∃ l', l = (x, y) :: l' ∧ _zip_with_defaults xs ys default_x default_y = Ok l'.
Proof.
  unfold _zip_with_defaults. simpl. rewrite result_bind_ok. split.
  - intros (l' & Hl' & [= <-]). eauto.
  - intros (l' & -> & Hl'). eauto.
Qed.

Lemma zip_with_defaults_spec (x_things : list X) (y_things : list Y)
    (l : list (X * Y)) :
  _zip_with_defaults x_things y_things default_x default_y = Ok l →
  length l = length x_things `max` length y_things ∧
  take (length x_things) l.*1 = x_things ∧
  take (length y_things) l.*2 = y_things ∧
  Forall (λ p, default_x p.2 = Ok p.1) (drop (length x_things) l) ∧
  Forall (λ p, default_y p.1 = Ok p.2) (drop (length y_things) l).
Proof.
  revert y_things l. induction x_things as [|x xs IH]; intros ys l Hl.
  - apply zip_only_y in Hl as [Hys Hdx].
    assert (length l = length ys) as Hlen by (by rewrite <- Hys, length_fmap).
    simpl. rewrite drop_0, drop_ge by lia.
    split; [done|]. split; [by rewrite take_0|].
    split; [|done]. rewrite <- Hys at 1. by rewrite <- Hys, take_ge by (rewrite length_fmap; lia).
  - destruct ys as [|y ys].
    + apply zip_only_x in Hl as [Hxs Hdy].
      assert (length l = length (x :: xs)) as Hlen by (by rewrite <- Hxs, length_fmap).
      rewrite drop_ge by lia. rewrite Nat.max_0_r.
      split; [done|]. split; [|done].
      rewrite <- Hxs at 2. apply take_ge. rewrite length_fmap. lia.
    + apply zip_cons in Hl as (l' & -> & Hl').
      destruct (IH _ _ Hl') as (Hlen & Hxs & Hys & Hdx & Hdy).
      rewrite !fmap_cons. cbn [length take drop fst snd].
      rewrite Hxs, Hys. split; [lia|done].
Qed.

Lemma zip_with_defaults_is_ok (x_things : list X) (y_things : list Y) :
  (∀ y, is_ok (default_x y) = true) → (∀ x, is_ok (default_y x) = true) →
  is_ok (_zip_with_defaults x_things y_things default_x default_y) = true.
Proof.
  intros Hdx Hdy. unfold _zip_with_defaults.
  generalize (izip_longest x_things y_things). intros zs.
  induction zs as [|z zs IH]; [done|]. simpl.
  destruct z as [x y|x|y]; simpl.
  - by destruct (comprehension _ zs).
  - specialize (Hdy x). destruct (default_y x); [|done]. simpl.
    by destruct (comprehension _ zs).
  - specialize (Hdx y). destruct (default_x y); [|done]. simpl.
    by destruct (comprehension _ zs).
Qed.

(** [_zip_with_defaults]: the result is as long as the longer list; the
    values given are kept, in order, on their side; past the end of the
    shorter list the missing side is the default computed from the value
    present. *)
Lemma zip_with_defaults_keeps_values (x_things : list X) (y_things : list Y)
    (l : list (X * Y)) :
  _zip_with_defaults x_things y_things default_x default_y = Ok l →
  length l = length x_things `max` length y_things ∧
  take (length x_things) l.*1 = x_things ∧
  take (length y_things) l.*2 = y_things ∧
  Forall (λ p, default_x p.2 = Ok p.1) (drop (length x_things) l) ∧
  Forall (λ p, default_y p.1 = Ok p.2) (drop (length y_things) l).
Proof. apply zip_with_defaults_spec. Qed.

(** [_zip_with_defaults] raises only what a default raises: with defaults
    that return, it returns. *)
Lemma zip_with_defaults_returns (x_things : list X) (y_things : list Y) :
  (∀ y, is_ok (default_x y) = true) → (∀ x, is_ok (default_y x) = true) →
  is_ok (_zip_with_defaults x_things y_things default_x default_y) = true.
Proof. apply zip_with_defaults_is_ok. Qed.
End zip.

Implicit Types (disco_aws : string → string → string → string).

(** The protocols of an option, as [_protocols_by_port] normalizes them. *)
Definition normalized_protocols disco_aws (hostclass config_prefix : string) : list string :=
  (λ protocol, PyStr.upper (PyStr.strip protocol))
    <$> _list_from_hostclass_option disco_aws hostclass (config_prefix ++ "_protocol").

Definition port_literals disco_aws (hostclass config_prefix : string) : list string :=
  _list_from_hostclass_option disco_aws hostclass (config_prefix ++ "_port").

Lemma protocols_by_port_ok disco_aws hostclass config_prefix l :
  _protocols_by_port disco_aws hostclass config_prefix = Ok l ↔
  ∃ ports pairs,
    comprehension to_int (port_literals disco_aws hostclass config_prefix) = Ok ports ∧
    _zip_with_defaults ports (normalized_protocols disco_aws hostclass config_prefix)
      _default_port_for_protocol (λ port, Ok (_default_protocol_for_port port)) = Ok pairs ∧
    l = match pairs with [] => [(80%Z, "HTTP")] | _ => pairs end.
Proof.
  unfold _protocols_by_port. rewrite result_bind_ok. split.
  - intros (ports & Hports & Hrest). apply result_bind_ok in Hrest as (pairs & Hpairs & [= <-]).
    by exists ports, pairs.
  - intros (ports & pairs & Hports & Hpairs & ->). exists ports. split; [done|].
    apply result_bind_ok. by exists pairs.
Qed.

Lemma default_port_for_protocol_ok protocol port :
  _default_port_for_protocol protocol = Ok port →
  _default_protocol_for_port port = protocol.
Proof.
  unfold _default_port_for_protocol. repeat case_bool_decide; [| |done]; by intros [= <-].
Qed.

(** The two default tables are inverse to each other where both are
    defined: the default port of a protocol has that protocol as its
    default, and the default protocol of a port has that port as its default
    for ports 80 and 443, while for every other port it is [TCP], which has
    no default port. *)
Lemma default_port_protocol_inverse :
  (∀ protocol port, _default_port_for_protocol protocol = Ok port →
                    _default_protocol_for_port port = protocol) ∧
  (∀ port, _default_port_for_protocol (_default_protocol_for_port port)
           = if bool_decide (port ∈ [80%Z; 443%Z]) then Ok port else Raise (KeyError "TCP")).
Proof.
  split; [apply default_port_for_protocol_ok|].
  intros port. unfold _default_protocol_for_port.
  destruct (port =? 80)%Z eqn:H80; [apply Z.eqb_eq in H80 as ->; done|].
  destruct (port =? 443)%Z eqn:H443; [apply Z.eqb_eq in H443 as ->; done|].
  apply Z.eqb_neq in H80, H443.
  rewrite bool_decide_eq_false_2; [done|].
  intros Hin. repeat (apply elem_of_cons in Hin as [Hin|Hin]; [done|]). by apply elem_of_nil in Hin.
Qed.

Lemma protocols_by_port_spec disco_aws hostclass config_prefix l :
  _protocols_by_port disco_aws hostclass config_prefix = Ok l →
  let literals := port_literals disco_aws hostclass config_prefix in
  let protocols := normalized_protocols disco_aws hostclass config_prefix in
  l ≠ [] ∧
  Forall2 (λ literal port, PyStr.int literal = Some port) literals (take (length literals) l.*1) ∧
  take (length protocols) l.*2 = protocols ∧
  Forall (λ p, _default_port_for_protocol p.2 = Ok p.1) (drop (length literals) l) ∧
  Forall (λ p, p.2 = _default_protocol_for_port p.1) (drop (length protocols) l).
Proof.
  intros (ports & pairs & Hports & Hpairs & ->)%protocols_by_port_ok literals protocols.
  apply comprehension_ok in Hports. fold literals in Hports.
  assert (Forall2 (λ literal port, PyStr.int literal = Some port) literals ports) as Hints.
  { eapply Forall2_impl; [done|]. intros literal port. unfold to_int.
    destruct (PyStr.int literal); [by intros [= ->]|done]. }
  assert (length literals = length ports) as Hlen by (by eapply Forall2_length).
  apply zip_with_defaults_spec in Hpairs as (Hl & Hxs & Hys & Hdx & Hdy).
  fold protocols in Hl, Hys, Hdy.
  destruct pairs as [|pair pairs].
  - simpl in Hl.
    assert (length ports = 0%nat ∧ length protocols = 0%nat) as [Hp Hq] by lia.
    rewrite Hlen, Hp, Hq. destruct ports; [|done]. destruct protocols; [|done].
    apply Forall2_nil_inv_r in Hints as ->. simpl.
    split; [done|]. split; [constructor|]. split; [done|].
    split; repeat constructor.
  - rewrite Hlen, Hxs, Hys. split; [done|]. split; [done|]. split; [done|]. split; [done|].
    eapply Forall_impl; [done|]. by intros p [= ->].
Qed.

(** [_protocols_by_port] never returns an empty list; the ports come from
    the integer literals of the port option and the protocols from the
    protocol option, stripped and upper-cased, in order; a protocol without a
    port gets its default port and a port without a protocol its default
    protocol. *)
Lemma protocols_by_port_pairs disco_aws hostclass config_prefix l :
  _protocols_by_port disco_aws hostclass config_prefix = Ok l →
  let literals := port_literals disco_aws hostclass config_prefix in
  let protocols := normalized_protocols disco_aws hostclass config_prefix in
  l ≠ [] ∧
  Forall2 (λ literal port, PyStr.int literal = Some port) literals (take (length literals) l.*1) ∧
  take (length protocols) l.*2 = protocols ∧
  Forall (λ p, _default_port_for_protocol p.2 = Ok p.1) (drop (length literals) l) ∧
  Forall (λ p, p.2 = _default_protocol_for_port p.1) (drop (length protocols) l).
Proof. apply protocols_by_port_spec. Qed.

Lemma list_from_empty_option disco_aws hostclass option :
  disco_aws hostclass option "" = "" →
  _list_from_hostclass_option disco_aws hostclass option = [].
Proof. unfold _list_from_hostclass_option. by intros ->. Qed.

Lemma protocols_by_port_unset disco_aws hostclass config_prefix :
  disco_aws hostclass (config_prefix ++ "_port") "" = "" →
  disco_aws hostclass (config_prefix ++ "_protocol") "" = "" →
  _protocols_by_port disco_aws hostclass config_prefix = Ok [(80%Z, "HTTP")].
Proof.
  intros Hport Hprotocol. unfold _protocols_by_port.
  by rewrite !list_from_empty_option.
Qed.
End port_config.

Section port_mappings.
Import DiscoELBPortConfig.
Implicit Types (disco_aws : string → string → string → string)
  (m : DiscoELBPortMapping) (pair : Z * string).

(** The two sides of a port mapping. *)
Definition internal_side m : Z * string := (internal_port m, internal_protocol m).
Definition external_side m : Z * string := (external_port m, external_protocol m).

Lemma zip_constant_x {X Y} (c : X) (ys : list Y) (default_y : X → result Y) :
  _zip_with_defaults [] ys (λ _, Ok c) default_y = Ok ((λ y, (c, y)) <$> ys).
Proof.
  unfold _zip_with_defaults. simpl.
  induction ys as [|y ys IH]; [done|].
  rewrite !fmap_cons. cbn [comprehension]. by rewrite IH.
Qed.

Lemma from_config_run disco_aws hostclass internals externals :
  _protocols_by_port disco_aws hostclass "elb_instance" = Ok internals →
  _protocols_by_port disco_aws hostclass "elb" = Ok externals →
  from_config disco_aws hostclass
  = (match internals with
     | [first] =>
         _zip_with_defaults internals externals (λ _, Ok first) (λ _, Ok first)
     | _ => _zip_with_defaults internals externals (λ x, Ok x) (λ x, Ok x)
     end) ≫= λ combined, Ok (Build ((λ p, Mapping p.1.1 p.1.2 p.2.1 p.2.2) <$> combined)).
Proof. intros Hint Hext. unfold from_config. by rewrite Hint, Hext. Qed.

Lemma from_config_single_spec disco_aws hostclass (first : Z * string)
    (externals : list (Z * string)) :
  _protocols_by_port disco_aws hostclass "elb_instance" = Ok [first] →
  _protocols_by_port disco_aws hostclass "elb" = Ok externals →
  from_config disco_aws hostclass
  = Ok (Build ((λ e, Mapping first.1 first.2 e.1 e.2) <$> externals)).
Proof.
  intros Hint Hext. rewrite (from_config_run _ _ _ _ Hint Hext).
  destruct (protocols_by_port_spec _ _ _ _ Hext) as (Hne & _).
  destruct externals as [|e es]; [done|].
  assert (_zip_with_defaults [first] (e :: es) (λ _, Ok first) (λ _, Ok first)
          = Ok ((λ y, (first, y)) <$> e :: es)) as ->.
  { apply zip_cons. exists ((λ y, (first, y)) <$> es). split; [done|]. apply zip_constant_x. }
  cbv beta iota delta [mbind result_bind_inst result_bind].
  by rewrite <- list_fmap_compose.
Qed.

(** A single internal port and protocol is replicated over every external
    one: [from_config] returns one mapping for each external pair, all to that
    internal pair. *)
Lemma from_config_single_internal disco_aws hostclass (first : Z * string)
    (externals : list (Z * string)) :
  _protocols_by_port disco_aws hostclass "elb_instance" = Ok [first] →
  _protocols_by_port disco_aws hostclass "elb" = Ok externals →
  from_config disco_aws hostclass
  = Ok (Build ((λ e, Mapping first.1 first.2 e.1 e.2) <$> externals)).
Proof. apply from_config_single_spec. Qed.

Lemma from_config_mirror_spec disco_aws hostclass (internals externals : list (Z * string)) :
  _protocols_by_port disco_aws hostclass "elb_instance" = Ok internals →
  _protocols_by_port disco_aws hostclass "elb" = Ok externals →
  length internals ≠ 1%nat →
  ∃ port_config,
    from_config disco_aws hostclass = Ok port_config ∧
    length (port_mappings port_config) = length internals `max` length externals ∧
    take (length internals) (internal_side <$> port_mappings port_config) = internals ∧
    take (length externals) (external_side <$> port_mappings port_config) = externals ∧
    Forall (λ m, internal_side m = external_side m)
      (drop (length internals `min` length externals) (port_mappings port_config)).
Proof.
  intros Hint Hext Hlen. rewrite (from_config_run _ _ _ _ Hint Hext).
  assert (match internals with
          | [first] =>
              _zip_with_defaults internals externals (λ _, Ok first) (λ _, Ok first)
          | _ => _zip_with_defaults internals externals (λ x, Ok x) (λ x, Ok x)
          end = _zip_with_defaults internals externals (λ x, Ok x) (λ x, Ok x)) as ->.
  { by destruct internals as [|? [|? ?]]. }
  pose proof (zip_with_defaults_is_ok (λ x : Z * string, Ok x) (λ x : Z * string, Ok x)
                internals externals (λ _, eq_refl) (λ _, eq_refl)) as Hok.
  destruct (_zip_with_defaults internals externals _ _) as [combined|] eqn:Hzip; [|done].
  apply zip_with_defaults_spec in Hzip as (Hl & Hxs & Hys & Hdx & Hdy).
  cbv beta iota delta [mbind result_bind_inst result_bind].
  eexists. split; [done|]. cbn [port_mappings].
  rewrite length_fmap, <- !list_fmap_compose.
  assert (∀ l : list (Z * string * (Z * string)),
            internal_side ∘ (λ p, Mapping p.1.1 p.1.2 p.2.1 p.2.2) <$> l = l.*1) as ->.
  { intros l. induction l as [|[[? ?] [? ?]] l IH]; [done|]. rewrite !fmap_cons. by f_equal. }
  assert (∀ l : list (Z * string * (Z * string)),
            external_side ∘ (λ p, Mapping p.1.1 p.1.2 p.2.1 p.2.2) <$> l = l.*2) as ->.
  { intros l. induction l as [|[[? ?] [? ?]] l IH]; [done|]. rewrite !fmap_cons. by f_equal. }
  split; [done|]. split; [done|]. split; [done|].
  rewrite <- fmap_drop. apply Forall_fmap.
  destruct (Nat.min_spec (length internals) (length externals)) as [[_ ->]|[_ ->]].
  - eapply Forall_impl; [apply Hdx|]. intros [[? ?] [? ?]] [= -> ->]. done.
  - eapply Forall_impl; [apply Hdy|]. intros [[? ?] [? ?]] [= -> ->]. done.
Qed.

(** With no or several internal pairs, [from_config] pairs the internal and
    the external lists position by position: as many mappings as the longer
    list has pairs, the pairs given kept on their side, and each mapping past
    the end of the shorter list having the same port and protocol on both
    sides. *)
Lemma from_config_mirrors disco_aws hostclass (internals externals : list (Z * string)) :
  _protocols_by_port disco_aws hostclass "elb_instance" = Ok internals →
  _protocols_by_port disco_aws hostclass "elb" = Ok externals →
  length internals ≠ 1%nat →
  ∃ port_config,
    from_config disco_aws hostclass = Ok port_config ∧
    length (port_mappings port_config) = length internals `max` length externals ∧
    take (length internals) (internal_side <$> port_mappings port_config) = internals ∧
    take (length externals) (external_side <$> port_mappings port_config) = externals ∧
    Forall (λ m, internal_side m = external_side m)
      (drop (length internals `min` length externals) (port_mappings port_config)).
Proof. apply from_config_mirror_spec. Qed.

(** [from_config] raises exactly what reading the internal or, after it, the
    external ports and protocols raises, and a configuration it returns has
    at least one mapping. *)
Lemma from_config_outcome disco_aws hostclass :
  match from_config disco_aws hostclass with
  | Ok port_config =>
      port_mappings port_config ≠ [] ∧
      is_ok (_protocols_by_port disco_aws hostclass "elb_instance") = true ∧
      is_ok (_protocols_by_port disco_aws hostclass "elb") = true
  | Raise e =>
      _protocols_by_port disco_aws hostclass "elb_instance" = Raise e ∨
      (is_ok (_protocols_by_port disco_aws hostclass "elb_instance") = true ∧
       _protocols_by_port disco_aws hostclass "elb" = Raise e)
  end.
Proof.
  destruct (_protocols_by_port disco_aws hostclass "elb_instance") as [internals|e] eqn:Hint.
  2:{ unfold from_config. rewrite Hint. by left. }
  destruct (_protocols_by_port disco_aws hostclass "elb") as [externals|e] eqn:Hext.
  2:{ unfold from_config. rewrite Hint, Hext. by right. }
  destruct (protocols_by_port_spec _ _ _ _ Hint) as (Hi & _).
  destruct (decide (length internals = 1%nat)) as [Hone|Hmany].
  - destruct internals as [|first [|? ?]]; try done.
    rewrite (from_config_single_spec _ _ _ _ Hint Hext). cbn [port_mappings].
    destruct (protocols_by_port_spec _ _ _ _ Hext) as (He & _).
    split; [|done]. by destruct externals.
  - destruct (from_config_mirror_spec _ _ _ _ Hint Hext Hmany) as (c & -> & Hlen & _).
    split; [|done]. intros Hnil. rewrite Hnil in Hlen. simpl in Hlen.
    destruct internals; [done|]. simpl in Hlen. lia.
Qed.

(** With none of the four port and protocol options set, [from_config]
    returns the single mapping of HTTP on port 80 to HTTP on port 80. *)
Lemma from_config_unset disco_aws hostclass :
  disco_aws hostclass "elb_instance_port" "" = "" →
  disco_aws hostclass "elb_instance_protocol" "" = "" →
  disco_aws hostclass "elb_port" "" = "" →
  disco_aws hostclass "elb_protocol" "" = "" →
  from_config disco_aws hostclass = Ok (Build [Mapping 80 "HTTP" 80 "HTTP"]).
Proof.
  intros Hip Hiq Hep Heq.
  by rewrite (from_config_single_spec disco_aws hostclass (80%Z, "HTTP") [(80%Z, "HTTP")])
    by (by apply protocols_by_port_unset).
Qed.
End port_mappings.

Section port_errors.
Import DiscoELBPortConfig.
Implicit Types (disco_aws : string → string → string → string).

(** A port that is not an integer literal makes [_protocols_by_port] raise
    the [ValueError] of [int()] on the first such port. *)
Lemma protocols_by_port_bad_port disco_aws hostclass config_prefix
    (good : list string) (bad : string) (rest : list string) :
  port_literals disco_aws hostclass config_prefix = (good ++ bad :: rest)%list →
  Forall (λ literal, is_Some (PyStr.int literal)) good →
  PyStr.int bad = None →
  _protocols_by_port disco_aws hostclass config_prefix = Raise (ValueError bad).
Proof.
  intros Hliterals Hgood Hbad. unfold _protocols_by_port.
  fold (port_literals disco_aws hostclass config_prefix). rewrite Hliterals.
  rewrite (comprehension_raises to_int good bad rest (ValueError bad)); [done| |].
  - eapply Forall_impl; [done|]. intros literal [port Hport]. unfold to_int. by rewrite Hport.
  - unfold to_int. by rewrite Hbad.
Qed.

Lemma zip_raises_past_x {X Y} (xs : list X) (given extra : list Y)
    (default_x : Y → result X) (default_y : X → result Y) (e : exn) :
  length given = length xs →
  _zip_with_defaults [] extra default_x default_y = Raise e →
  _zip_with_defaults xs (given ++ extra)%list default_x default_y = Raise e.
Proof.
  revert given. induction xs as [|x xs IH]; intros [|y given] Hlen Hextra; try done.
  specialize (IH given ltac:(simpl in Hlen; lia) Hextra).
  unfold _zip_with_defaults in *. rewrite <- app_comm_cons.
  cbn [izip_longest comprehension]. by rewrite IH.
Qed.

(** With more protocols than ports, a protocol without a port must be HTTP
    or HTTPS: the first one that is neither makes [_protocols_by_port] raise
    [KeyError] with that protocol. *)
Lemma protocols_by_port_unknown_protocol disco_aws hostclass config_prefix
    (ports : list Z) (given known : list string) (unknown : string) (rest : list string) :
  comprehension to_int (port_literals disco_aws hostclass config_prefix) = Ok ports →
  normalized_protocols disco_aws hostclass config_prefix = (given ++ known ++ unknown :: rest)%list →
  length given = length ports →
  Forall (λ protocol, protocol ∈ ["HTTP"; "HTTPS"]) known →
  unknown ∉ ["HTTP"; "HTTPS"] →
  _protocols_by_port disco_aws hostclass config_prefix = Raise (KeyError unknown).
Proof.
  intros Hports Hprotocols Hlen Hknown Hunknown. unfold _protocols_by_port.
  fold (port_literals disco_aws hostclass config_prefix). rewrite Hports.
  fold (normalized_protocols disco_aws hostclass config_prefix). rewrite Hprotocols.
  cbv beta iota delta [mbind result_bind_inst result_bind].
  rewrite (zip_raises_past_x ports given (known ++ unknown :: rest)%list _ _ (KeyError unknown));
    [done..|].
  unfold _zip_with_defaults. cbn [izip_longest]. rewrite fmap_app, fmap_cons.
  apply comprehension_raises.
  - apply Forall_fmap. eapply Forall_impl; [done|]. intros protocol Hin. simpl.
    unfold _default_port_for_protocol.
    apply elem_of_cons in Hin as [->|Hin]; [done|].
    apply elem_of_cons in Hin as [->|Hin]; [done|]. by apply elem_of_nil in Hin.
  - unfold _default_port_for_protocol.
    rewrite !bool_decide_eq_false_2; [done| |].
    + intros ->. apply Hunknown. by do 2 constructor.
    + intros ->. apply Hunknown. by constructor.
Qed.
End port_errors.

(** [disco_aws.hostclass_option_default] over the options of one hostclass,
    given as key/value pairs. *)
Fixpoint hostclass_options (kvs : list (string * string))
    (hostclass option default_value : string) : string :=
  match kvs with
  | [] => default_value
  | (key, value) :: kvs' =>
      if bool_decide (key = option) then value
      else hostclass_options kvs' hostclass option default_value
  end.

Lemma zip_with_defaults_keeps_values_witness :
  let l := [(80%Z, "HTTP"); (443%Z, "HTTPS"); (8080%Z, "TCP")] in
  length l = (3 `max` 1)%nat ∧
  take 3 l.*1 = [80%Z; 443%Z; 8080%Z] ∧
  take 1 l.*2 = ["HTTP"] ∧
  Forall (λ p, DiscoELBPortConfig._default_port_for_protocol p.2 = Ok p.1) (drop 3 l) ∧
  Forall (λ p, Ok (DiscoELBPortConfig._default_protocol_for_port p.1) = Ok p.2) (drop 1 l).
Proof.
  exact (zip_with_defaults_keeps_values
           DiscoELBPortConfig._default_port_for_protocol
           (λ port, Ok (DiscoELBPortConfig._default_protocol_for_port port))
           [80%Z; 443%Z; 8080%Z] ["HTTP"] _ eq_refl).
Defined.

Lemma zip_with_defaults_returns_witness :
  is_ok (DiscoELBPortConfig._zip_with_defaults [(8080%Z, "TCP")] [(80%Z, "HTTP"); (443%Z, "HTTPS")]
           (λ _, Ok (8080%Z, "TCP")) (λ _, Ok (8080%Z, "TCP"))) = true.
Proof.
  exact (zip_with_defaults_returns (λ _, Ok (8080%Z, "TCP")) (λ _, Ok (8080%Z, "TCP"))
           [(8080%Z, "TCP")] [(80%Z, "HTTP"); (443%Z, "HTTPS")] (λ _, eq_refl) (λ _, eq_refl)).
Defined.

Lemma protocols_by_port_pairs_witness :
  let l := [(80%Z, "HTTP"); (443%Z, "HTTPS"); (8080%Z, "TCP")] in
  l ≠ [] ∧
  Forall2 (λ literal port, PyStr.int literal = Some port) ["80"; " 443"; "8080"] (take 3 l.*1) ∧
  take 1 l.*2 = ["HTTP"] ∧
  Forall (λ p, DiscoELBPortConfig._default_port_for_protocol p.2 = Ok p.1) (drop 3 l) ∧
  Forall (λ p, p.2 = DiscoELBPortConfig._default_protocol_for_port p.1) (drop 1 l).
Proof.
  exact (protocols_by_port_pairs
           (hostclass_options [("elb_port", "80, 443,8080"); ("elb_protocol", " http ")])
           "mhcweb" "elb" _ eq_refl).
Defined.

Lemma from_config_single_internal_witness :
  DiscoELBPortConfig.from_config
    (hostclass_options
       [("elb_instance_port", "8080"); ("elb_port", "80,443"); ("elb_protocol", "http,https")])
    "mhcweb"
  = Ok (DiscoELBPortConfig.Build
          [DiscoELBPortConfig.Mapping 8080 "TCP" 80 "HTTP";
           DiscoELBPortConfig.Mapping 8080 "TCP" 443 "HTTPS"]).
Proof.
  exact (from_config_single_internal
           (hostclass_options
              [("elb_instance_port", "8080"); ("elb_port", "80,443");
               ("elb_protocol", "http,https")])
           "mhcweb" (8080%Z, "TCP") [(80%Z, "HTTP"); (443%Z, "HTTPS")] eq_refl eq_refl).
Defined.

Lemma from_config_mirrors_witness :
  ∃ port_config,
    DiscoELBPortConfig.from_config
      (hostclass_options [("elb_instance_port", "80,8080"); ("elb_port", "80")]) "mhcweb"
    = Ok port_config ∧
    length (DiscoELBPortConfig.port_mappings port_config) = (2 `max` 1)%nat ∧
    take 2 (internal_side <$> DiscoELBPortConfig.port_mappings port_config)
    = [(80%Z, "HTTP"); (8080%Z, "TCP")] ∧
    take 1 (external_side <$> DiscoELBPortConfig.port_mappings port_config)
    = [(80%Z, "HTTP")] ∧
    Forall (λ m, internal_side m = external_side m)
      (drop (2 `min` 1) (DiscoELBPortConfig.port_mappings port_config)).
Proof.
  exact (from_config_mirrors
           (hostclass_options [("elb_instance_port", "80,8080"); ("elb_port", "80")]) "mhcweb"
           [(80%Z, "HTTP"); (8080%Z, "TCP")] [(80%Z, "HTTP")] eq_refl eq_refl
           ltac:(simpl; lia)).
Defined.

Lemma from_config_unset_witness :
  DiscoELBPortConfig.from_config (hostclass_options [("elb_health_check_url", "/")]) "mhcweb"
  = Ok (DiscoELBPortConfig.Build [DiscoELBPortConfig.Mapping 80 "HTTP" 80 "HTTP"]).
Proof.
  exact (from_config_unset (hostclass_options [("elb_health_check_url", "/")]) "mhcweb"
           eq_refl eq_refl eq_refl eq_refl).
Defined.

Lemma protocols_by_port_bad_port_witness :
  DiscoELBPortConfig._protocols_by_port (hostclass_options [("elb_port", "80,http")])
    "mhcweb" "elb"
  = Raise (ValueError "http").
Proof.
  apply (protocols_by_port_bad_port _ _ _ ["80"] "http" []); [reflexivity| |reflexivity].
  repeat constructor. by exists 80%Z.
Defined.

Lemma protocols_by_port_unknown_protocol_witness :
  DiscoELBPortConfig._protocols_by_port
    (hostclass_options [("elb_port", "80"); ("elb_protocol", "http,https,tcp")]) "mhcweb" "elb"
  = Raise (KeyError "TCP").
Proof.
  apply (protocols_by_port_unknown_protocol _ _ _ [80%Z] ["HTTP"] ["HTTPS"] "TCP" []);
    [reflexivity|reflexivity|reflexivity| |].
  - repeat constructor.
  - intros Hin. repeat (apply elem_of_cons in Hin as [Hin|Hin]; [discriminate Hin|]).
    by apply elem_of_nil in Hin.
Defined.

(** ** More on notifications *)

Section notifications_more.
Context `{!Externals}.
Implicit Types (w : world) (entries : list (string * string)).

Lemma notifications_loop_returns env entries acc ns :
  DiscoAlarmsConfig.notifications_loop env entries acc = Ok ns →
  ∀ kv, kv ∈ entries → ¬ rejected env kv.
Proof.
  revert acc. induction entries as [|[k v] entries IH]; intros acc Hrun kv Hin.
  { by apply elem_of_nil in Hin. }
  simpl in Hrun. destruct (length (PyStr.split "_" k) <? 3)%nat eqn:Hlen; [done|].
  apply Nat.ltb_ge in Hlen. fold (key_env k) (key_level k) in Hrun.
  apply elem_of_cons in Hin as [->|Hin].
  - intros [Hbad|[Henv Hlevel]]; [unfold malformed_key in Hbad; simpl in Hbad; lia|].
    simpl in Henv, Hlevel. rewrite (bool_decide_eq_true_2 _ Henv) in Hrun. simpl in Hrun.
    by rewrite (bool_decide_eq_false_2 _ Hlevel) in Hrun.
  - destruct (negb (bool_decide (key_env k = env))); [by eapply IH|].
    destruct (negb (bool_decide (key_level k ∈ NOTIFICATION_LEVELS))); [done|].
    by eapply IH.
Qed.

Lemma for_environment_names_nodup env entries :
  NoDup entries.*1 →
  NoDup (notification_name ∘ notification_of <$> for_environment env entries).
Proof.
  unfold for_environment.
  induction entries as [|[k v] entries IH]; intros Hkeys; [constructor|].
  rewrite fmap_cons in Hkeys. apply NoDup_cons in Hkeys as [Hk Hkeys].
  rewrite filter_cons. destruct (decide _); [|by apply IH].
  rewrite fmap_cons. apply NoDup_cons. split; [|by apply IH].
  intros ([k' v'] & Hkk & Hin)%list_elem_of_fmap. simpl in Hkk. subst k'.
  apply list_elem_of_filter in Hin as [_ Hin].
  apply Hk. apply list_elem_of_fmap. by exists (k, v').
Qed.

(** Without a notifications section [get_notifications] raises
    [NoSectionError] for it and leaves the resolver as it was. *)
Lemma get_notifications_missing_section w :
  has_section (config (self w)) NOTIFICATION_SECTION_NAME = false →
  DiscoAlarmsConfig.get_notifications w = (Raise (NoSectionError NOTIFICATION_SECTION_NAME), w).
Proof.
  intros Hmissing%has_section_false_items.
  unfold DiscoAlarmsConfig.get_notifications, DiscoAlarmsConfig.config_items,
    get_self, lift, mbind, M_bind.
  by rewrite Hmissing.
Qed.

(** What [get_notifications] returns: no entry of the section was rejected;
    every notification is an entry of the section, named by a key of the
    resolver's environment with a supported level, with the value split on
    ',' as its endpoints, of which there is at least one; and no two
    notifications have the same name. *)
Lemma get_notifications_returned w kvs ns :
  items (config (self w)) NOTIFICATION_SECTION_NAME = Ok kvs →
  (DiscoAlarmsConfig.get_notifications w).1 = Ok ns →
  let options := dict_of_items kvs in
  let env := environment (self w) in
  (∀ k v, options !! k = Some v → ¬ rejected env (k, v)) ∧
  (∀ n, n ∈ ns →
     key_env (notification_name n) = env ∧
     key_level (notification_name n) ∈ NOTIFICATION_LEVELS ∧
     endpoints n ≠ [] ∧
     ∃ v, options !! notification_name n = Some v ∧ endpoints n = PyStr.split "," v) ∧
  NoDup (notification_name <$> ns).
Proof.
  intros Hitems Hrun options env. rewrite (get_notifications_run _ _ Hitems) in Hrun.
  simpl in Hrun. fold options env in Hrun.
  pose proof (notifications_loop_returns _ _ _ _ Hrun) as Hgood.
  rewrite (notifications_loop_accepts _ _ _ Hgood) in Hrun. simpl in Hrun.
  injection Hrun as <-.
  split; [|split].
  - intros k v Hkv. apply Hgood. by apply elem_of_iteritems.
  - intros n ([k v] & -> & Hin)%list_elem_of_fmap.
    apply list_elem_of_filter in Hin as [Henv Hin]. simpl in *.
    split; [done|]. split.
    + destruct (decide (key_level k ∈ NOTIFICATION_LEVELS)) as [|Hlevel]; [done|].
      destruct (Hgood _ Hin). right. done.
    + split; [apply split_not_nil|]. exists v. split; [|done]. by apply elem_of_iteritems.
  - rewrite <- list_fmap_compose. apply for_environment_names_nodup.
    rewrite (iteritems_perm options). apply NoDup_fst_map_to_list.
Qed.

(** The topic of an alarm the constructor built is never a malformed
    notification key, and its level is the alarm's; when neither the team nor
    the environment of the alarm contains an underscore, it is a key of the
    alarm's environment, so that [get_notifications] for that environment
    accepts an entry under it. *)
Lemma notification_topic_accepted o (maximum : bool) (a : DiscoAlarmConfig.t) (v : string) :
  construct o maximum = Ok a →
  let topic := DiscoAlarmConfig.notification_topic a in
  ¬ malformed_key topic ∧
  key_level topic = DiscoAlarmConfig._level a ∧
  (no_underscore (DiscoAlarmConfig.team a) →
   no_underscore (DiscoAlarmConfig.environment a) →
   key_env topic = DiscoAlarmConfig.environment a ∧
   ¬ rejected (DiscoAlarmConfig.environment a) (topic, v) ∧
   DiscoAlarmsConfig.notifications_loop (DiscoAlarmConfig.environment a) [(topic, v)] []
   = Ok [Notification topic (PyStr.split "," v)]).
Proof.
  intros Ha topic.
  apply construct_fields in Ha as (_ & _ & _ & _ & _ & _ & _ & _ & _ & Hlevel).
  assert (no_underscore (DiscoAlarmConfig._level a)) as Hl.
  { unfold NOTIFICATION_LEVELS in Hlevel.
    apply elem_of_cons in Hlevel as [->|Hlevel]; [done|].
    apply elem_of_cons in Hlevel as [->|Hlevel]; [done|]. by apply elem_of_nil in Hlevel. }
  assert (topic = (DiscoAlarmConfig.team a ++ "_" ++ DiscoAlarmConfig.environment a)
                    ++ "_" ++ DiscoAlarmConfig._level a) as Htopic.
  { unfold topic, DiscoAlarmConfig.notification_topic. cbn [PyStr.join].
    by rewrite !append_assoc. }
  assert (PyStr.split "_" topic
          = (PyStr.split "_" (DiscoAlarmConfig.team a ++ "_" ++ DiscoAlarmConfig.environment a)
             ++ [DiscoAlarmConfig._level a])%list) as Hsplit.
  { rewrite Htopic. by apply split_snoc_segment. }
  assert (2 ≤ length (PyStr.split "_"
                        (DiscoAlarmConfig.team a ++ "_" ++ DiscoAlarmConfig.environment a)))%nat
    as Hlen.
  { clear Hsplit Htopic.
    generalize (split_parts_no_sep "_" (DiscoAlarmConfig.team a ++ "_" ++
                                         DiscoAlarmConfig.environment a)).
    generalize (join_split "_" (DiscoAlarmConfig.team a ++ "_" ++
                                 DiscoAlarmConfig.environment a)).
    generalize (split_not_nil "_" (DiscoAlarmConfig.team a ++ "_" ++
                                    DiscoAlarmConfig.environment a)).
    generalize (PyStr.split "_" (DiscoAlarmConfig.team a ++ "_" ++
                                  DiscoAlarmConfig.environment a)).
    intros [|p [|q ps]] Hne Hjoin Hparts; [done| |simpl; lia].
    simpl in Hjoin. subst p. apply Forall_cons in Hparts as [Hp _].
    rewrite contains_app in Hp. apply orb_false_iff in Hp as [_ Hp].
    change ("_" ++ DiscoAlarmConfig.environment a)
      with (String "_" (DiscoAlarmConfig.environment a)) in Hp. simpl in Hp. done. }
  split; [|split].
  - unfold malformed_key. rewrite Hsplit, length_app. simpl. lia.
  - unfold key_level. rewrite Hsplit. apply last_item_snoc.
  - intros Ht He.
    assert (PyStr.split "_" topic
            = [DiscoAlarmConfig.team a; DiscoAlarmConfig.environment a;
               DiscoAlarmConfig._level a]) as Hthree.
    { rewrite Hsplit. rewrite (split_app_sep' "_" (DiscoAlarmConfig.team a)) by done.
      by rewrite (split_no_sep "_" (DiscoAlarmConfig.environment a)). }
    assert (key_env topic = DiscoAlarmConfig.environment a) as Henv
      by (unfold key_env; by rewrite Hthree).
    assert (key_level topic = DiscoAlarmConfig._level a) as Hkl
      by (unfold key_level; by rewrite Hthree).
    assert (¬ rejected (DiscoAlarmConfig.environment a) (topic, v)) as Hok.
    { intros [Hbad|[_ Hbad]]; simpl in Hbad.
      - unfold malformed_key in Hbad. rewrite Hthree in Hbad. simpl in Hbad. lia.
      - by rewrite Hkl in Hbad. }
    split; [done|]. split; [done|].
    rewrite notifications_loop_accepts.
    + unfold for_environment. rewrite filter_cons. simpl.
      rewrite decide_True by done. done.
    + by intros kv ->%list_elem_of_singleton.
Qed.
End notifications_more.

(** ** Decoding, then encoding *)

Section decode_encode.
Context `{!Externals}.

Lemma join_snoc (sep : string) (xs : list string) (x y : string) :
  PyStr.join sep (x :: xs ++ [y]) = PyStr.join sep (x :: xs) ++ sep ++ y.
Proof.
  revert x. induction xs as [|z xs IH]; intros x; [done|].
  change (PyStr.join sep (x :: (z :: xs) ++ [y]))
    with (x ++ sep ++ PyStr.join sep (z :: xs ++ [y])).
  rewrite IH.
  change (PyStr.join sep (x :: z :: xs)) with (x ++ sep ++ PyStr.join sep (z :: xs)).
  by rewrite !append_assoc.
Qed.

Lemma join_cons (sep : string) (x y : string) (ys : list string) :
  PyStr.join sep (x :: y :: ys) = x ++ sep ++ PyStr.join sep (y :: ys).
Proof. done. Qed.

(** A list of two or more elements: a non-empty list, then the last one. *)
Lemma list_snoc_inv {A} (l : list A) :
  (2 ≤ length l)%nat → ∃ x xs y, l = ((x :: xs) ++ [y])%list.
Proof.
  intros Hlen. destruct l as [|x l]; [simpl in Hlen; lia|].
  destruct (decide (l = [])) as [->|Hne]; [simpl in Hlen; lia|].
  apply exists_last in Hne as (xs & y & ->). by exists x, xs, y.
Qed.

(** The name a decoded alarm name stands for: the fields joined with '_',
    an absent team left out. *)
Definition encode_fields (d : gmap string (option string)) : string :=
  PyStr.join "_"
    (omap (λ key, d !! key ≫= id) ["team"; "env"; "hostclass"; "metric_name"; "threshold_type"]).

Lemma encode_decoded (team : option string) (env hostclass metric_name tt : string) :
  encode_fields (decoded team env hostclass metric_name tt)
  = match team with
    | Some team => PyStr.join "_" [team; env; hostclass; metric_name; tt]
    | None => PyStr.join "_" [env; hostclass; metric_name; tt]
    end.
Proof.
  unfold encode_fields, decoded. cbn [omap list_omap].
  repeat (rewrite ?lookup_insert_eq; rewrite ?lookup_insert_ne by done).
  by destruct team.
Qed.

(** Decoding, then encoding: a name of four or more segments is decoded
    without a warning, and the decoded fields, joined with '_', are the name
    again, whatever underscores its metric name holds. *)
Lemma decode_then_encode (name : string) (w : world) :
  (4 ≤ length (PyStr.split "_" name))%nat →
  ∃ d, DiscoAlarmConfig.decode_alarm_name name w = (Ok d, w) ∧ encode_fields d = name.
Proof.
  intros Hlen. pose proof (join_split "_" name) as Hjoin.
  change (String "_" EmptyString) with "_" in Hjoin.
  destruct (PyStr.split "_" name) as [|p0 [|p1 [|p2 [|p3 rest]]]] eqn:Hsplit;
    try (simpl in Hlen; lia).
  destruct rest as [|p4 rest].
  - exists (decoded None p0 p1 p2 p3). split.
    + unfold DiscoAlarmConfig.decode_alarm_name. by rewrite Hsplit.
    + by rewrite encode_decoded.
  - destruct (list_snoc_inv (p3 :: p4 :: rest)) as (m & mid & tt & Hrest); [simpl; lia|].
    rewrite Hrest in Hsplit, Hjoin.
    exists (decoded (Some p0) p1 p2 (PyStr.join "_" (m :: mid)) tt). split.
    + by apply decode_alarm_name_long.
    + rewrite encode_decoded. rewrite <- Hjoin.
      rewrite <- !app_comm_cons, !join_cons, join_snoc. done.
Qed.

(** The name of the section a decoded section name stands for. *)
Definition encode_section (fields : string * string * string * option string) : string :=
  let '(team, namespace, metric_name, section_hostclass) := fields in
  PyStr.join "." ([team; namespace; metric_name] ++ option_list section_hostclass).

(** [_decode_section_name] loses nothing: the team, namespace, metric name
    and hostclass it returns, joined with '.', are the section name; it
    returns a hostclass exactly for names of four or more segments, and the
    dots past the second one, the last apart, stay in the metric name. *)
Lemma decode_section_name_joins_back (section : string)
    (team namespace metric_name : string) (section_hostclass : option string) :
  DiscoAlarmsConfig._decode_section_name section
    = Ok (team, namespace, metric_name, section_hostclass) →
  encode_section (team, namespace, metric_name, section_hostclass) = section ∧
  PyStr.contains "." team = false ∧ PyStr.contains "." namespace = false ∧
  match section_hostclass with
  | Some hostclass =>
      PyStr.contains "." hostclass = false ∧ (4 ≤ length (PyStr.split "." section))%nat
  | None => PyStr.contains "." metric_name = false ∧ length (PyStr.split "." section) = 3%nat
  end.
Proof.
  pose proof (join_split "." section) as Hjoin.
  pose proof (split_parts_no_sep "." section) as Hparts.
  change (String "." EmptyString) with "." in Hjoin.
  destruct (le_lt_dec 4 (length (PyStr.split "." section))) as [Hlong|Hshort].
  - destruct (PyStr.split "." section) as [|p0 [|p1 rest]] eqn:Hsplit;
      try (simpl in Hlong; lia).
    destruct (list_snoc_inv rest) as (m & mid & h & ->); [simpl in Hlong; lia|].
    rewrite (decode_section_name_long section p0 p1 m mid h Hsplit).
    intros Heq. injection Heq as <- <- <- <-.
    apply Forall_cons in Hparts as [Hp0 Hparts]. apply Forall_cons in Hparts as [Hp1 Hparts].
    apply Forall_app in Hparts as [_ Hh]. apply Forall_inv in Hh.
    split; [|done]. rewrite <- Hjoin. unfold encode_section.
    change ([p0; p1; PyStr.join "." (m :: mid)] ++ option_list (Some h))%list
      with [p0; p1; PyStr.join "." (m :: mid); h].
    rewrite <- !app_comm_cons, !join_cons, join_snoc. done.
  - unfold DiscoAlarmsConfig._decode_section_name. cbv zeta.
    replace (4 <=? length (PyStr.split "." section))%nat with false
      by (symmetry; apply Nat.leb_gt; lia).
    destruct (length (PyStr.split "." section) =? 3)%nat eqn:Hthree; [|done].
    apply Nat.eqb_eq in Hthree.
    destruct (PyStr.split "." section) as [|p0 [|p1 [|p2 [|? ?]]]] eqn:Hsplit; try done.
    intros Heq. injection Heq as <- <- <- <-.
    apply Forall_cons in Hparts as [Hp0 Hparts]. apply Forall_cons in Hparts as [Hp1 Hparts].
    apply Forall_inv in Hparts.
    done.
Qed.
End decode_encode.

Lemma decode_then_encode_witness :
  ∃ d, @DiscoAlarmConfig.decode_alarm_name "team_prod_mhcweb_cpu_load_avg_max"
         (fresh_world "prod" [])
       = (Ok d, fresh_world "prod" []) ∧
       encode_fields d = "team_prod_mhcweb_cpu_load_avg_max".
Proof.
  apply (decode_then_encode "team_prod_mhcweb_cpu_load_avg_max" (fresh_world "prod" [])).
  simpl. lia.
Defined.

Lemma decode_section_name_joins_back_witness :
  encode_section ("team", "AWS/ES", "ClusterStatus.red", Some "logs")
    = "team.AWS/ES.ClusterStatus.red.logs" ∧
  PyStr.contains "." "team" = false ∧ PyStr.contains "." "AWS/ES" = false ∧
  PyStr.contains "." "logs" = false ∧
  (4 ≤ length (PyStr.split "." "team.AWS/ES.ClusterStatus.red.logs"))%nat.
Proof.
  exact (decode_section_name_joins_back "team.AWS/ES.ClusterStatus.red.logs"
           "team" "AWS/ES" "ClusterStatus.red" (Some "logs") eq_refl).
Defined.

(** ** What every alarm of [get_alarms] satisfies *)

Section alarm_invariants.
Context `{!Externals}.
Implicit Types (w : world) (s : resolver) (o : gmap string string)
  (a : DiscoAlarmConfig.t) (alarms : list DiscoAlarmConfig.t).

(** Alarm [a] was made from threshold [key] of the option set [o]. *)
Definition made_from o (key : string) a : Prop :=
  ∃ v, o !! key = Some v ∧ PyStr.isdigit v = true ∧
       construct o (bool_decide (key = "threshold_max")) = Ok a.

Lemma thresholds_of_inv (keys : list string) o alarms r :
  thresholds_of keys o alarms = Ok r →
  ∃ new, r = (alarms ++ new)%list ∧ (length new ≤ length keys)%nat ∧
         Forall (λ a, ∃ key, key ∈ keys ∧ made_from o key a) new.
Proof.
  revert alarms. induction keys as [|key keys IH]; intros alarms; simpl.
  - intros [= <-]. exists []. by rewrite app_nil_r.
  - destruct (o !! key) as [v|] eqn:Hv.
    + destruct (PyStr.isdigit v) eqn:Hdigit; [|done].
      destruct (construct o (bool_decide (key = "threshold_max"))) as [a|] eqn:Ha; [|done].
      cbv beta iota delta [mbind result_bind_inst result_bind].
      intros (new & -> & Hlen & Hnew)%IH.
      exists (a :: new). rewrite <- app_assoc. split; [done|]. split; [simpl; lia|].
      constructor.
      * exists key. split; [by left|]. by exists v.
      * eapply Forall_impl; [done|]. intros a' (key' & ? & ?). exists key'. split; [by right|done].
    + intros (new & -> & Hlen & Hnew)%IH. exists new. split; [done|]. split; [lia|].
      eapply Forall_impl; [done|]. intros a' (key' & ? & ?). exists key'. split; [by right|done].
Qed.

(** Alarm [a] was made from [section], for [hostclass]. *)
Definition made_for s (hostclass : string) (asg : option string) (section : string) a : Prop :=
  ∃ team namespace metric_name section_hostclass o key,
    DiscoAlarmsConfig._decode_section_name section
      = Ok (team, namespace, metric_name, section_hostclass) ∧
    (opt_truthy section_hostclass = false ∨ section_hostclass = Some hostclass) ∧
    resolved_options s team namespace metric_name hostclass
      (bool_decide (section_hostclass = Some hostclass)) asg = Ok (Some o) ∧
    key ∈ ["threshold_max"; "threshold_min"] ∧ made_from o key a.

Lemma section_alarms_inv s hostclass asg section alarms r :
  section_alarms s hostclass asg section alarms = Ok r →
  ∃ new, r = (alarms ++ new)%list ∧ (length new ≤ 2)%nat ∧
         Forall (made_for s hostclass asg section) new.
Proof.
  assert (∃ new, alarms = (alarms ++ new)%list ∧ (length new ≤ 2)%nat ∧
                 Forall (made_for s hostclass asg section) new) as Hnone.
  { exists []. rewrite app_nil_r. split; [done|]. split; [simpl; lia|constructor]. }
  unfold section_alarms.
  destruct (DiscoAlarmsConfig._decode_section_name section)
    as [[[[team namespace] metric_name] section_hostclass]|e] eqn:Hdecode.
  2:{ case_bool_decide; [|done]. by intros [= <-]. }
  destruct (opt_truthy section_hostclass && negb (bool_decide (section_hostclass = Some hostclass)))
    eqn:Hother; [by intros [= <-]|].
  destruct (bool_decide (namespace = "AWS/ES") && negb (bool_decide (is_Some (elasticsearch s))));
    [by intros [= <-]|].
  destruct (resolved_options s team namespace metric_name hostclass
              (bool_decide (section_hostclass = Some hostclass)) asg) as [[o|]|e] eqn:Hres;
    cbv beta iota delta [mbind result_bind_inst result_bind]; [|by intros [= <-]|done].
  destruct (dict_truthy o); [|by intros [= <-]].
  intros (new & -> & Hlen & Hnew)%thresholds_of_inv.
  exists new. split; [done|]. split; [done|].
  eapply Forall_impl; [done|]. intros a (key & Hkey & Hmade).
  exists team, namespace, metric_name, section_hostclass, o, key.
  split; [done|]. split; [|done].
  apply andb_false_iff in Hother as [?|Hsame]; [by left|].
  right. apply negb_false_iff in Hsame. by apply bool_decide_eq_true in Hsame.
Qed.

Lemma sections_alarms_inv s hostclass asg (ss : list string) alarms r :
  sections_alarms s hostclass asg ss alarms = Ok r →
  ∃ new, r = (alarms ++ new)%list ∧ (length new ≤ 2 * length ss)%nat ∧
         Forall (λ a, ∃ section, section ∈ ss ∧ made_for s hostclass asg section a) new.
Proof.
  revert alarms. induction ss as [|section ss IH]; intros alarms; simpl.
  - intros [= <-]. exists []. by rewrite app_nil_r.
  - destruct (section_alarms s hostclass asg section alarms) as [alarms'|] eqn:Hsection;
      [|done].
    cbv beta iota delta [mbind result_bind_inst result_bind].
    apply section_alarms_inv in Hsection as (new1 & -> & Hlen1 & Hnew1).
    intros (new2 & -> & Hlen2 & Hnew2)%IH.
    exists (new1 ++ new2)%list. rewrite app_assoc. split; [done|].
    split; [rewrite length_app; lia|]. apply Forall_app. split.
    + eapply Forall_impl; [done|]. intros a ?. exists section. split; [by left|done].
    + eapply Forall_impl; [done|]. intros a (section' & ? & ?).
      exists section'. split; [by right|done].
Qed.

(** The synthesized fields of resolved options. *)
Lemma resolved_options_fields s team namespace metric_name hostclass specific asg o :
  resolved_options s team namespace metric_name hostclass specific asg = Ok (Some o) →
  o !! "team" = Some team ∧ o !! "hostclass" = Some hostclass ∧
  o !! "environment" = Some (environment s).
Proof.
  unfold resolved_options.
  destruct (merged_sections (config s) team namespace metric_name hostclass specific)
    as [[d|]|e]; cbv beta iota delta [mbind result_bind_inst result_bind]; [|done..].
  destruct (augment s namespace metric_name hostclass asg _) as [o'|e] eqn:Haug; [|done].
  intros [= ->].
  assert (∀ k, k ∉ augmented_keys → o !! k
            = (synthesized_fields s team namespace metric_name hostclass ∪ d) !! k) as Hkeep.
  { intros k Hk. by eapply augment_other_keys. }
  rewrite !Hkeep by (unfold augmented_keys; not_in_list).
  rewrite <- synthesized_union.
  repeat (rewrite ?lookup_insert_eq; rewrite ?lookup_insert_ne by done). done.
Qed.

(** What holds of an alarm made for a hostclass. *)
Definition alarm_of s (hostclass : string) a : Prop :=
  DiscoAlarmConfig.hostclass a = hostclass ∧
  DiscoAlarmConfig.environment a = environment s ∧
  DiscoAlarmConfig.threshold_type a ∈ ["max"; "min"] ∧
  DiscoAlarmConfig._level a ∈ NOTIFICATION_LEVELS ∧
  (0 ≤ DiscoAlarmConfig.threshold a)%Z.

Lemma made_for_alarm_of s hostclass asg section a :
  made_for s hostclass asg section a →
  alarm_of s hostclass a ∧
  ∃ team namespace metric_name section_hostclass,
    DiscoAlarmsConfig._decode_section_name section
      = Ok (team, namespace, metric_name, section_hostclass) ∧
    DiscoAlarmConfig.team a = team.
Proof.
  intros (team & namespace & metric_name & section_hostclass & o & key &
          Hdecode & _ & Hres & Hkey & v & Hv & Hdigit & Ha).
  apply resolved_options_fields in Hres as (Hteam & Hhc & Henv).
  apply construct_fields in Ha as (_ & _ & Hh & He & Ht & _ & _ & Hth & Htt & Hlevel).
  assert (threshold_key (bool_decide (key = "threshold_max")) = key) as Hk.
  { apply elem_of_cons in Hkey as [->|Hkey]; [done|].
    apply elem_of_cons in Hkey as [->|Hkey]; [done|]. by apply elem_of_nil in Hkey. }
  rewrite Hk in Hth. apply getitem_int_ok in Hth as (v' & Hv' & Hint).
  assert (v' = v) as -> by congruence.
  destruct (isdigit_int v Hdigit) as (z & Hz & Hpos).
  split.
  - split; [congruence|]. split; [congruence|]. split.
    + rewrite Htt. destruct (bool_decide _); [by left|right; by left].
    + split; [done|]. congruence.
  - exists team, namespace, metric_name, section_hostclass. split; [done|]. congruence.
Qed.

Lemma all_alarms_inv s hostclass asg alarms :
  all_alarms s hostclass asg = Ok alarms →
  (length alarms ≤ 2 * length (sections (config s)))%nat ∧
  Forall (λ a, ∃ section, section ∈ sections (config s) ∧ made_for s hostclass asg section a)
    alarms.
Proof.
  unfold all_alarms. intros (new & -> & Hlen & Hnew)%sections_alarms_inv. done.
Qed.

(** Every alarm [get_alarms] returns is for the hostclass asked for and the
    resolver's environment, of type max or min, of a supported level, with a
    threshold that is not negative, and of the team of a section of the
    configuration; there are at most two alarms per section. *)
Lemma get_alarms_alarm_fields (hostclass : string) (asg : option string) w alarms :
  defaults_memo_ok w →
  (DiscoAlarmsConfig.get_alarms hostclass asg w).1 = Ok alarms →
  (length alarms ≤ 2 * length (sections (config (self w))))%nat ∧
  Forall (λ a,
    DiscoAlarmConfig.hostclass a = hostclass ∧
    DiscoAlarmConfig.environment a = environment (self w) ∧
    DiscoAlarmConfig.threshold_type a ∈ ["max"; "min"] ∧
    DiscoAlarmConfig._level a ∈ NOTIFICATION_LEVELS ∧
    (0 ≤ DiscoAlarmConfig.threshold a)%Z ∧
    ∃ section team namespace metric_name section_hostclass,
      section ∈ sections (config (self w)) ∧
      DiscoAlarmsConfig._decode_section_name section
        = Ok (team, namespace, metric_name, section_hostclass) ∧
      DiscoAlarmConfig.team a = team) alarms.
Proof.
  intros Hmemo Hrun.
  destruct (wp_get_alarms hostclass asg w Hmemo) as (_ & Hr).
  rewrite Hrun in Hr. symmetry in Hr.
  apply all_alarms_inv in Hr as (Hlen & Hmade). split; [done|].
  eapply Forall_impl; [done|]. intros a (section & Hin & Hfor).
  apply made_for_alarm_of in Hfor as ((? & ? & ? & ? & ?) & team & ns & m & sh & ? & ?).
  repeat (split; [done|]). by exists section, team, ns, m, sh.
Qed.
End alarm_invariants.

(** ** The augmentation of the options, and what the alarms get from it *)

Section augmentation.
Context `{!Externals}.
Implicit Types (w : world) (s : resolver) (o d : gmap string string)
  (a : DiscoAlarmConfig.t) (alarms : list DiscoAlarmConfig.t).

Ltac lookup_inserts :=
  repeat (rewrite ?lookup_insert_eq; rewrite ?lookup_insert_ne by done).

(** The optional attributes of a constructed alarm. *)
Lemma construct_optional_fields o (maximum : bool) a :
  construct o maximum = Ok a →
  DiscoAlarmConfig.autoscaling_group_name a = o !! "autoscaling_group_name" ∧
  DiscoAlarmConfig.es_domain_name a = o !! "es_domain_name" ∧
  DiscoAlarmConfig.es_client_id a = o !! "es_client_id" ∧
  DiscoAlarmConfig.log_pattern_metric a
    = is_truthy (Some (default EmptyString (o !! "log_pattern_metric"))).
Proof.
  unfold construct, getitem, mbind, result_bind_inst, result_bind.
  repeat match goal with
         | |- context [o !! ?k] =>
             lazymatch k with
             | "autoscaling_group_name" => fail
             | "es_domain_name" => fail
             | "es_client_id" => fail
             | "log_pattern_metric" => fail
             | _ => destruct (o !! k) as [?|] eqn:?; simpl; [|done]
             end
         | |- context [to_int ?v] => destruct (to_int v) as [?|?] eqn:?; simpl; [|done]
         end.
  case_bool_decide; simpl; [|done].
  destruct (o !! threshold_key maximum) as [v|]; simpl; [|done].
  destruct (to_int v) as [z|]; simpl; [|done].
  intros [= <-]. done.
Qed.

Lemma augment_group_name s namespace metric_name hostclass (asg : option string) d o :
  augment s namespace metric_name hostclass asg d = Ok o →
  opt_truthy asg = true →
  o !! "autoscaling_group_name" = asg.
Proof.
  intros Haug Hasg. destruct asg as [name|]; [|done].
  revert Haug. unfold augment, with_autoscaling_group, with_search_domain,
    log_pattern_rewrite, mbind, result_bind_inst, result_bind. rewrite Hasg.
  repeat case_match; intros; simplify_eq; lookup_inserts; done.
Qed.

Lemma augment_search_domain s namespace metric_name hostclass (asg : option string) d o es :
  augment s namespace metric_name hostclass asg d = Ok o →
  elasticsearch s = Some es → namespace = "AWS/ES" →
  ∃ domain_name client_id,
    get_domain_name es hostclass = Ok domain_name ∧
    get_client_id es domain_name = Ok client_id ∧
    o !! "es_domain_name" = Some domain_name ∧ o !! "es_client_id" = Some client_id.
Proof.
  intros Haug Hes ->. revert Haug.
  unfold augment, with_autoscaling_group, with_search_domain,
    log_pattern_rewrite, mbind, result_bind_inst, result_bind. rewrite Hes.
  rewrite (bool_decide_eq_true_2 ("AWS/ES" = "AWS/ES")) by done.
  rewrite (bool_decide_eq_false_2 ("AWS/ES" = "AWS/EC2")) by done.
  destruct (opt_truthy asg);
    (destruct (get_domain_name es hostclass) as [domain_name|] eqn:Hdomain; [|done]);
    (destruct (get_client_id es domain_name) as [client_id|] eqn:Hclient; [|done]);
    (destruct (is_truthy _)); intros [= <-];
    exists domain_name, client_id; lookup_inserts; done.
Qed.

Lemma augment_log_pattern s namespace metric_name hostclass (asg : option string) d o :
  augment s namespace metric_name hostclass asg d = Ok o →
  if is_truthy (o !! "log_pattern_metric") then
    o !! "namespace" = Some (namespace ++ "/" ++ environment s) ∧
    o !! "metric_name" = Some (hostclass ++ "-" ++ metric_name)
  else
    o !! "namespace" = d !! "namespace" ∧ o !! "metric_name" = d !! "metric_name".
Proof.
  unfold augment, mbind, result_bind_inst, result_bind.
  destruct (with_autoscaling_group s namespace hostclass asg d) as [d1|] eqn:H1; [|done].
  destruct (with_search_domain s namespace hostclass d1) as [d2|] eqn:H2; [|done].
  intros [= <-].
  assert (d2 !! "namespace" = d !! "namespace" ∧ d2 !! "metric_name" = d !! "metric_name")
    as [Hn Hm].
  { revert H1 H2. unfold with_autoscaling_group, with_search_domain,
      mbind, result_bind_inst, result_bind.
    repeat case_match; intros; simplify_eq; lookup_inserts; done. }
  unfold log_pattern_rewrite.
  destruct (is_truthy (d2 !! "log_pattern_metric")) eqn:Htruthy.
  - lookup_inserts. rewrite Htruthy. lookup_inserts; done.
  - by rewrite Htruthy.
Qed.

(** A run of [_get_alarm_specification_dict] that returns a dictionary
    returns the resolved options. *)
Lemma specification_run team namespace metric_name hostclass (specific : bool)
    (asg : option string) w l w' :
  defaults_memo_ok w →
  DiscoAlarmsConfig._get_alarm_specification_dict team namespace metric_name hostclass
    specific asg w = (Ok (Some l), w') →
  ∃ o, heap w' !! l = Some o ∧ heap w !! l = None ∧
       resolved_options (self w) team namespace metric_name hostclass specific asg
       = Ok (Some o).
Proof.
  intros Hmemo Hrun.
  pose proof (wp_get_alarm_specification_dict team namespace metric_name hostclass
                specific asg w Hmemo) as (_ & Hr).
  rewrite Hrun in Hr. simpl in Hr. unfold returns_options in Hr.
  destruct (resolved_options _ _ _ _ _ _ _) as [[o|]|e]; [|done..].
  destruct Hr as (l' & [= <-] & Hl & Hnew). by exists o.
Qed.

Lemma resolved_options_augment s team namespace metric_name hostclass specific asg o :
  resolved_options s team namespace metric_name hostclass specific asg = Ok (Some o) →
  ∃ d, augment s namespace metric_name hostclass asg
         (synthesized_fields s team namespace metric_name hostclass ∪ d) = Ok o.
Proof.
  unfold resolved_options.
  destruct (merged_sections (config s) team namespace metric_name hostclass specific)
    as [[d|]|e]; cbv beta iota delta [mbind result_bind_inst result_bind]; [|done..].
  destruct (augment s namespace metric_name hostclass asg _) as [o'|e] eqn:Haug; [|done].
  intros [= ->]. by exists d.
Qed.

(** A metric made from a log pattern: when the resolved options mark it as
    one, their namespace is [namespace/environment] and their metric name
    [hostclass-metric_name]; an alarm built from them has these and no
    dimensions. *)
Lemma log_pattern_metric_names team namespace metric_name hostclass (specific : bool)
    (asg : option string) w l w' o (v : string) :
  defaults_memo_ok w →
  DiscoAlarmsConfig._get_alarm_specification_dict team namespace metric_name hostclass
    specific asg w = (Ok (Some l), w') →
  heap w' !! l = Some o →
  o !! "log_pattern_metric" = Some v → is_truthy (Some v) = true →
  o !! "namespace" = Some (namespace ++ "/" ++ environment (self w)) ∧
  o !! "metric_name" = Some (hostclass ++ "-" ++ metric_name) ∧
  ∀ (maximum : bool) a,
    construct o maximum = Ok a →
    DiscoAlarmConfig.namespace a = namespace ++ "/" ++ environment (self w) ∧
    DiscoAlarmConfig.metric_name a = hostclass ++ "-" ++ metric_name ∧
    DiscoAlarmConfig.dimensions a = Ok ∅.
Proof.
  intros Hmemo Hrun Hl Hv Htruthy.
  destruct (specification_run _ _ _ _ _ _ _ _ _ Hmemo Hrun) as (o' & Hl' & _ & Hres).
  assert (o' = o) as -> by congruence.
  apply resolved_options_augment in Hres as (d & Haug).
  apply augment_log_pattern in Haug. rewrite Hv, Htruthy in Haug.
  destruct Haug as [Hn Hm]. split; [done|]. split; [done|].
  intros maximum a Ha.
  pose proof (construct_optional_fields _ _ _ Ha) as (_ & _ & _ & Hlog).
  apply construct_fields in Ha as (Hna & Hma & _).
  rewrite Hv in Hlog. simpl in Hlog. rewrite Htruthy in Hlog.
  split; [congruence|]. split; [congruence|].
  unfold DiscoAlarmConfig.dimensions. by rewrite Hlog.
Qed.

(** An Elasticsearch metric: with an Elasticsearch collaborator, the options
    resolved for a section of namespace AWS/ES hold the domain name the
    collaborator gives for the hostclass and the client id it gives for that
    domain; an alarm built from them, unless it is marked as made from a log
    pattern, has exactly these two as dimensions. *)
Lemma search_domain_dimensions team metric_name hostclass (specific : bool)
    (asg : option string) w l w' o es :
  defaults_memo_ok w →
  elasticsearch (self w) = Some es →
  DiscoAlarmsConfig._get_alarm_specification_dict team "AWS/ES" metric_name hostclass
    specific asg w = (Ok (Some l), w') →
  heap w' !! l = Some o →
  ∃ domain_name client_id,
    get_domain_name es hostclass = Ok domain_name ∧
    get_client_id es domain_name = Ok client_id ∧
    o !! "es_domain_name" = Some domain_name ∧ o !! "es_client_id" = Some client_id ∧
    ∀ (maximum : bool) a,
      construct o maximum = Ok a →
      is_truthy (o !! "log_pattern_metric") = false →
      DiscoAlarmConfig.log_pattern_metric a = false →
      DiscoAlarmConfig.dimensions a
      = Ok (<["DomainName" := Some domain_name]> {["ClientId" := Some client_id]}).
Proof.
  intros Hmemo Hes Hrun Hl.
  destruct (specification_run _ _ _ _ _ _ _ _ _ Hmemo Hrun) as (o' & Hl' & _ & Hres).
  assert (o' = o) as -> by congruence.
  apply resolved_options_augment in Hres as (d & Haug).
  destruct (augment_search_domain _ _ _ _ _ _ _ _ Haug Hes eq_refl)
    as (domain_name & client_id & Hdomain & Hclient & Hod & Hoc).
  exists domain_name, client_id. repeat (split; [done|]).
  intros maximum a Ha Hnot Hlog.
  apply augment_log_pattern in Haug. rewrite Hnot in Haug. destruct Haug as [Hn _].
  rewrite <- synthesized_union in Hn. revert Hn. lookup_inserts. intros Hn.
  pose proof (construct_optional_fields _ _ _ Ha) as (_ & Hd & Hc & _).
  apply construct_fields in Ha as (Hna & _).
  assert (DiscoAlarmConfig.namespace a = "AWS/ES") as Hns by congruence.
  unfold DiscoAlarmConfig.dimensions. rewrite Hlog, Hns, Hd, Hc, Hod, Hoc. done.
Qed.
End augmentation.

(** ** Sections [get_alarms] skips, and what it needs *)

Section skipped_sections.
Context `{!Externals}.
Implicit Types (w : world) (s : resolver) (o d : gmap string string)
  (a : DiscoAlarmConfig.t) (alarms : list DiscoAlarmConfig.t).

(** A section of another hostclass adds no alarm and changes nothing, the
    log included. *)
Lemma other_hostclass_section_skipped (hostclass : string) (asg : option string)
    (section : string) alarms w (team namespace metric_name other : string) :
  DiscoAlarmsConfig._decode_section_name section
    = Ok (team, namespace, metric_name, Some other) →
  other ≠ EmptyString → other ≠ hostclass →
  DiscoAlarmsConfig.get_alarms_section hostclass asg section alarms w = (Ok alarms, w).
Proof.
  intros Hdecode Hne Hother. unfold DiscoAlarmsConfig.get_alarms_section.
  rewrite Hdecode. simpl. unfold str_truthy.
  rewrite (bool_decide_eq_false_2 (other = "")) by done.
  rewrite (bool_decide_eq_false_2 (Some other = Some hostclass)) by congruence.
  done.
Qed.

(** Without an Elasticsearch collaborator, a section of namespace AWS/ES
    that applies to the hostclass adds no alarm: it is skipped with one INFO
    record in the log, whatever it holds, and no section is read. *)
Lemma search_section_skipped (hostclass : string) (asg : option string)
    (section : string) alarms w (team metric_name : string)
    (section_hostclass : option string) :
  DiscoAlarmsConfig._decode_section_name section
    = Ok (team, "AWS/ES", metric_name, section_hostclass) →
  opt_truthy section_hostclass = false ∨ section_hostclass = Some hostclass →
  elasticsearch (self w) = None →
  DiscoAlarmsConfig.get_alarms_section hostclass asg section alarms w
  = (Ok alarms,
     World (heap w)
       (log w ++ [LogRecord INFO
          "Skipping creation of %s.%s.%s.%s because no Elasticsearch object was provided"
          [FStr team; FStr "AWS/ES"; FStr metric_name; FOpt section_hostclass]])
       (self w)).
Proof.
  intros Hdecode Happlies Hes. unfold DiscoAlarmsConfig.get_alarms_section.
  rewrite Hdecode.
  assert (opt_truthy section_hostclass
          && negb (bool_decide (section_hostclass = Some hostclass)) = false) as ->.
  { destruct Happlies as [->| ->]; [done|].
    rewrite bool_decide_eq_true_2 by done. apply andb_false_r. }
  rewrite bind_run. unfold get_self at 1. cbv beta iota.
  rewrite Hes. rewrite (bool_decide_eq_true_2 ("AWS/ES" = "AWS/ES")) by done.
  rewrite (bool_decide_eq_false_2 (is_Some None)) by (by intros [? ?]).
  done.
Qed.

End skipped_sections.

(** ** The memoized defaults and the given group name *)

Section memo.
Context `{!Externals}.
Implicit Types (w : world) (s : resolver) (o d : gmap string string)
  (a : DiscoAlarmConfig.t) (alarms : list DiscoAlarmConfig.t).

(** World [w] once [_defaults] is set to [l]. *)
Definition memoized (l : loc) w : world :=
  World (heap w) (log w)
    (Resolver (config (self w)) (environment (self w)) (elasticsearch (self w))
       (_autoscale (self w)) (Some l)).

Lemma defaults_hit w l d :
  _defaults (self w) = Some l → heap w !! l = Some d → dict_truthy d = true →
  DiscoAlarmsConfig.defaults w = (Ok l, memoized l w).
Proof.
  intros Hl Hd Htruthy.
  unfold DiscoAlarmsConfig.defaults, DiscoAlarmsConfig.set__defaults.
  rewrite bind_run. unfold get_self at 1. cbv beta iota. rewrite Hl.
  rewrite !bind_run. unfold deref at 1. cbv beta iota. rewrite Hd. simpl.
  rewrite Htruthy. done.
Qed.

Lemma get_defaults_run w kvs :
  items (config (self w)) DEFAULT_SECTION_NAME = Ok kvs →
  let l := fresh (dom (heap w)) in
  let w1 := World (<[l := dict_of_items kvs]> (heap w)) (log w) (self w) in
  DiscoAlarmsConfig.get_defaults w
  = if dict_truthy (dict_of_items kvs) then (Ok l, w1)
    else (Ok (fresh (dom (heap w1))),
          World (<[fresh (dom (heap w1)) := ∅]> (heap w1)) (log w) (self w)).
Proof.
  intros Hkvs l w1.
  unfold DiscoAlarmsConfig.get_defaults, DiscoAlarmsConfig.config_items.
  rewrite !bind_run. unfold get_self at 1, lift. cbv beta iota. rewrite Hkvs.
  rewrite !bind_run. unfold new_dict at 1. cbv beta iota zeta.
  rewrite bind_run. unfold deref at 1. simpl. rewrite lookup_insert_eq. simpl.
  by destruct (dict_truthy (dict_of_items kvs)).
Qed.

Lemma defaults_miss w kvs :
  items (config (self w)) DEFAULT_SECTION_NAME = Ok kvs →
  (∀ l, _defaults (self w) = Some l → dict_truthy (default ∅ (heap w !! l)) = false) →
  ∃ l w1, DiscoAlarmsConfig.get_defaults w = (Ok l, w1) ∧ self w1 = self w ∧
          DiscoAlarmsConfig.defaults w = (Ok l, memoized l w1).
Proof.
  intros Hkvs Hstale.
  pose proof (get_defaults_run w kvs Hkvs) as Hget. cbv zeta in Hget.
  assert (∃ l w1, DiscoAlarmsConfig.get_defaults w = (Ok l, w1) ∧ self w1 = self w)
    as (l & w1 & Hrun & Hself).
  { rewrite Hget. destruct (dict_truthy (dict_of_items kvs)); eauto. }
  exists l, w1. split; [done|]. split; [done|].
  unfold DiscoAlarmsConfig.defaults, DiscoAlarmsConfig.set__defaults.
  rewrite bind_run. unfold get_self at 1. cbv beta iota.
  destruct (_defaults (self w)) as [l0|] eqn:Hl0.
  - specialize (Hstale l0 eq_refl).
    rewrite !bind_run. unfold deref at 1. cbv beta iota. simpl.
    rewrite Hstale. rewrite !bind_run, Hrun. reflexivity.
  - rewrite !bind_run. simpl. rewrite !bind_run, Hrun. reflexivity.
Qed.

(** The [defaults] property.  With a defaults section that holds at least
    one option, the dictionary is built once: the call returns an object that
    holds the section and memoizes it, and a second call returns the same
    object and changes nothing.  With an empty defaults section nothing is
    ever reused: the call returns an object that did not exist before, so
    every call builds a new dictionary. *)
Lemma defaults_memoized w kvs :
  defaults_memo_ok w →
  items (config (self w)) DEFAULT_SECTION_NAME = Ok kvs →
  ∃ l w1,
    DiscoAlarmsConfig.defaults w = (Ok l, w1) ∧
    heap w1 !! l = Some (dict_of_items kvs) ∧
    _defaults (self w1) = Some l ∧
    if dict_truthy (dict_of_items kvs)
    then DiscoAlarmsConfig.defaults w1 = (Ok l, w1)
    else heap w !! l = None.
Proof.
  intros Hmemo Hkvs.
  destruct (dict_truthy (dict_of_items kvs)) eqn:Htruthy.
  - assert (∀ w' l, heap w' !! l = Some (dict_of_items kvs) →
              DiscoAlarmsConfig.defaults (memoized l w') = (Ok l, memoized l w')) as Hagain.
    { intros w' l Hl. by rewrite (defaults_hit (memoized l w') l (dict_of_items kvs)). }
    destruct (_defaults (self w)) as [l0|] eqn:Hl0.
    + destruct (Hmemo l0 Hl0) as (kvs' & Hkvs' & Hd). assert (kvs' = kvs) as -> by congruence.
      exists l0, (memoized l0 w).
      split; [by apply (defaults_hit w l0 (dict_of_items kvs))|].
      split; [done|]. split; [done|]. by apply (Hagain w).
    + destruct (defaults_miss w kvs Hkvs) as (l & w1 & Hget & Hself & Hrun);
        [intros l Hl; congruence|].
      rewrite (get_defaults_run w kvs Hkvs) in Hget. cbv zeta in Hget.
      rewrite Htruthy in Hget. injection Hget as <- <-.
      eexists _, _. split; [exact Hrun|].
      split; [simpl; by rewrite lookup_insert_eq|]. split; [done|].
      apply Hagain. simpl. by rewrite lookup_insert_eq.
  - assert (dict_of_items kvs = ∅) as Hempty.
    { apply negb_false_iff in Htruthy. by apply bool_decide_eq_true in Htruthy. }
    destruct (defaults_miss w kvs Hkvs) as (l & w1 & Hget & Hself & Hrun).
    { intros l Hl. destruct (Hmemo l Hl) as (kvs' & Hkvs' & Hd).
      assert (kvs' = kvs) as -> by congruence. by rewrite Hd. }
    rewrite (get_defaults_run w kvs Hkvs) in Hget. cbv zeta in Hget.
    rewrite Htruthy in Hget. injection Hget as <- <-.
    eexists _, _. split; [exact Hrun|].
    split; [simpl; by rewrite lookup_insert_eq, Hempty|]. split; [done|].
    match goal with
    | |- heap w !! fresh (dom ?h) = None =>
        pose proof (is_fresh (dom h)) as Hfresh; set (l' := fresh (dom h)) in *
    end.
    apply not_elem_of_dom. intros Hin. apply Hfresh. simpl.
    rewrite dom_insert. apply elem_of_union. by right.
Qed.
End memo.

Section given_group.
Context `{!Externals}.
Implicit Types (w : world) (s : resolver) (o d : gmap string string)
  (a : DiscoAlarmConfig.t) (alarms : list DiscoAlarmConfig.t).

(** Resolver [s] with another autoscaling collaborator, or none. *)
Definition with_autoscale (collaborator : option Autoscale) s : resolver :=
  Resolver (config s) (environment s) (elasticsearch s) collaborator (_defaults s).

Lemma resolved_options_given_group s collaborator team namespace metric_name hostclass
    specific (asg : option string) :
  opt_truthy asg = true →
  resolved_options (with_autoscale collaborator s) team namespace metric_name hostclass
    specific asg
  = resolved_options s team namespace metric_name hostclass specific asg.
Proof.
  intros Hasg. unfold resolved_options, augment, with_autoscaling_group. by rewrite Hasg.
Qed.

Lemma sections_alarms_given_group s collaborator hostclass (asg : option string)
    (ss : list string) alarms :
  opt_truthy asg = true →
  sections_alarms (with_autoscale collaborator s) hostclass asg ss alarms
  = sections_alarms s hostclass asg ss alarms.
Proof.
  intros Hasg. revert alarms. induction ss as [|section ss IH]; intros alarms; [done|].
  cbn [sections_alarms].
  assert (section_alarms (with_autoscale collaborator s) hostclass asg section alarms
          = section_alarms s hostclass asg section alarms) as ->.
  { unfold section_alarms.
    destruct (DiscoAlarmsConfig._decode_section_name section)
      as [[[[team namespace] metric_name] section_hostclass]|e]; [|done].
    by rewrite resolved_options_given_group. }
  destruct (section_alarms s hostclass asg section alarms);
    cbv beta iota delta [mbind result_bind_inst result_bind]; [apply IH|done].
Qed.

(** With an autoscaling group name given, [get_alarms] does not depend on
    the autoscaling collaborator: the outcome is the same with any other
    collaborator, or with none, and every alarm returned carries the given
    name. *)
Lemma get_alarms_given_group_name (hostclass group_name : string) w
    (collaborator : option Autoscale) :
  defaults_memo_ok w →
  group_name ≠ EmptyString →
  (DiscoAlarmsConfig.get_alarms hostclass (Some group_name)
     (World (heap w) (log w) (with_autoscale collaborator (self w)))).1
  = (DiscoAlarmsConfig.get_alarms hostclass (Some group_name) w).1 ∧
  ∀ alarms,
    (DiscoAlarmsConfig.get_alarms hostclass (Some group_name) w).1 = Ok alarms →
    Forall (λ a, DiscoAlarmConfig.autoscaling_group_name a = Some group_name) alarms.
Proof.
  intros Hmemo Hname.
  assert (opt_truthy (Some group_name) = true) as Hasg.
  { simpl. unfold str_truthy. by rewrite bool_decide_eq_false_2. }
  destruct (wp_get_alarms hostclass (Some group_name) w Hmemo) as (_ & Hr).
  destruct (wp_get_alarms hostclass (Some group_name)
              (World (heap w) (log w) (with_autoscale collaborator (self w))) Hmemo)
    as (_ & Hr').
  split.
  - rewrite Hr, Hr'. unfold all_alarms. simpl.
    by apply sections_alarms_given_group.
  - intros alarms Hrun. rewrite Hrun in Hr. symmetry in Hr.
    apply all_alarms_inv in Hr as (_ & Hmade).
    eapply Forall_impl; [done|].
    intros a (section & _ & team & namespace & metric_name & section_hostclass & o & key &
              _ & _ & Hres & _ & v & _ & _ & Ha).
    apply resolved_options_augment in Hres as (d & Haug).
    apply augment_group_name in Haug; [|done].
    apply construct_optional_fields in Ha as (-> & _). done.
Qed.
End given_group.

(** A configuration with a generic alarm in namespace AWS/EC2, an alarm on a
    metric made from a log pattern for hostclass [mhcweb], and an
    Elasticsearch alarm for hostclass [logs]. *)
Definition alarms_config : ConfigStore :=
  [("defaults",
    [("period", "60"); ("duration", "5"); ("statistic", "Average");
     ("custom_metric", "false"); ("level", "critical")]);
   ("notifications", [("team_prod_critical", "a@x.com")]);
   ("team.AWS/EC2.CPUUtilization", [("threshold_max", "80"); ("threshold_min", "10")]);
   ("team.LogMetrics.errors.mhcweb", [("threshold_max", "5"); ("log_pattern_metric", "true")]);
   ("team.AWS/ES.ClusterStatus.red.logs", [("threshold_max", "0")])].

(** An Elasticsearch collaborator for the examples. *)
Definition sample_elasticsearch : Elasticsearch :=
  {| get_domain_name name := Ok ("es-" ++ name ++ "-prod");
     get_client_id domain_name := Ok "123456789012" |}.

Lemma get_alarms_alarm_fields_witness :
  ∃ alarms,
    (@DiscoAlarmsConfig.get_alarms sample_externals "mhcweb" None
       (fresh_world "prod" alarms_config)).1 = Ok alarms ∧
    length alarms = 3%nat ∧
    Forall (λ a,
      DiscoAlarmConfig.hostclass a = "mhcweb" ∧
      DiscoAlarmConfig.environment a = "prod" ∧
      DiscoAlarmConfig.threshold_type a ∈ ["max"; "min"] ∧
      DiscoAlarmConfig._level a ∈ NOTIFICATION_LEVELS ∧
      (0 ≤ DiscoAlarmConfig.threshold a)%Z ∧
      ∃ section team namespace metric_name section_hostclass,
        section ∈ sections alarms_config ∧
        DiscoAlarmsConfig._decode_section_name section
          = Ok (team, namespace, metric_name, section_hostclass) ∧
        DiscoAlarmConfig.team a = team) alarms.
Proof.
  destruct (@DiscoAlarmsConfig.get_alarms sample_externals "mhcweb" None
              (fresh_world "prod" alarms_config)).1 as [alarms|e] eqn:Hrun;
    [|vm_compute in Hrun; discriminate Hrun].
  exists alarms. split; [done|]. split.
  - vm_compute in Hrun. injection Hrun as <-. reflexivity.
  - exact (proj2 (@get_alarms_alarm_fields sample_externals "mhcweb" None
                    (fresh_world "prod" alarms_config) alarms
                    (@fresh_world_memo_ok sample_externals _ _) Hrun)).
Defined.

Lemma get_alarms_given_group_name_witness :
  (@DiscoAlarmsConfig.get_alarms sample_externals "mhcweb" (Some "mhcweb_group")
     (World ∅ [] (@with_autoscale
                    (Some {| get_existing_group_name := λ _, Raise (LookupFailure "group") |})
                    (DiscoAlarmsConfig.__init__ "prod" alarms_config None None)))).1
  = (@DiscoAlarmsConfig.get_alarms sample_externals "mhcweb" (Some "mhcweb_group")
       (fresh_world "prod" alarms_config)).1.
Proof.
  exact (proj1 (@get_alarms_given_group_name sample_externals "mhcweb" "mhcweb_group"
                  (fresh_world "prod" alarms_config)
                  (Some {| get_existing_group_name := λ _, Raise (LookupFailure "group") |})
                  (@fresh_world_memo_ok sample_externals _ _) ltac:(discriminate))).
Defined.

Lemma get_notifications_missing_section_witness :
  @DiscoAlarmsConfig.get_notifications sample_externals (fresh_world "prod" merge_config)
  = (Raise (NoSectionError "notifications"), fresh_world "prod" merge_config).
Proof.
  exact (@get_notifications_missing_section sample_externals
           (fresh_world "prod" merge_config) eq_refl).
Defined.

Lemma get_notifications_returned_witness :
  let options := dict_of_items [("team1_prod_critical", "a@x.com,b@x.com");
                                ("team1_ci_info", "c@x.com")] in
  let ns := [Notification "team1_prod_critical" ["a@x.com"; "b@x.com"]] in
  (∀ k v, options !! k = Some v → ¬ @rejected "prod" (k, v)) ∧
  (∀ n, n ∈ ns →
     key_env (notification_name n) = "prod" ∧
     key_level (notification_name n) ∈ NOTIFICATION_LEVELS ∧
     endpoints n ≠ [] ∧
     ∃ v, options !! notification_name n = Some v ∧ endpoints n = PyStr.split "," v) ∧
  NoDup (notification_name <$> ns).
Proof.
  exact (@get_notifications_returned sample_externals
           (fresh_world "prod"
              [("notifications",
                [("team1_prod_critical", "a@x.com,b@x.com"); ("team1_ci_info", "c@x.com")])])
           _ _ eq_refl ltac:(vm_compute; reflexivity)).
Defined.

Lemma notification_topic_accepted_witness :
  let topic := "ops_prod_critical" in
  ¬ malformed_key topic ∧
  key_level topic = "critical" ∧
  (no_underscore "ops" → no_underscore "prod" →
   key_env topic = "prod" ∧
   ¬ rejected "prod" (topic, "a@x.com") ∧
   DiscoAlarmsConfig.notifications_loop "prod" [(topic, "a@x.com")] []
   = Ok [Notification topic ["a@x.com"]]).
Proof.
  destruct (@construct sample_externals both_thresholds true) as [a|e] eqn:Ha;
    [|vm_compute in Ha; discriminate Ha].
  pose proof (@notification_topic_accepted sample_externals both_thresholds true a "a@x.com" Ha)
    as Htopic.
  vm_compute in Ha. injection Ha as <-. exact Htopic.
Defined.

Lemma other_hostclass_section_skipped_witness :
  @DiscoAlarmsConfig.get_alarms_section sample_externals "mhcweb" None
    "team.AWS/ES.ClusterStatus.red.logs" [] (fresh_world "prod" alarms_config)
  = (Ok [], fresh_world "prod" alarms_config).
Proof.
  exact (@other_hostclass_section_skipped sample_externals "mhcweb" None
           "team.AWS/ES.ClusterStatus.red.logs" [] (fresh_world "prod" alarms_config)
           "team" "AWS/ES" "ClusterStatus.red" "logs" eq_refl
           ltac:(discriminate) ltac:(discriminate)).
Defined.

Lemma search_section_skipped_witness :
  @DiscoAlarmsConfig.get_alarms_section sample_externals "logs" None
    "team.AWS/ES.ClusterStatus.red.logs" [] (fresh_world "prod" alarms_config)
  = (Ok [],
     World ∅
       [LogRecord INFO
          "Skipping creation of %s.%s.%s.%s because no Elasticsearch object was provided"
          [FStr "team"; FStr "AWS/ES"; FStr "ClusterStatus.red"; FOpt (Some "logs")]]
       (DiscoAlarmsConfig.__init__ "prod" alarms_config None None)).
Proof.
  exact (@search_section_skipped sample_externals "logs" None
           "team.AWS/ES.ClusterStatus.red.logs" [] (fresh_world "prod" alarms_config)
           "team" "ClusterStatus.red" (Some "logs") eq_refl (or_intror eq_refl) eq_refl).
Defined.


Lemma defaults_memoized_witness :
  ∃ l w1,
    DiscoAlarmsConfig.defaults (fresh_world "prod" merge_config) = (Ok l, w1) ∧
    heap w1 !! l = Some (dict_of_items [("period", "60")]) ∧
    _defaults (self w1) = Some l ∧
    DiscoAlarmsConfig.defaults w1 = (Ok l, w1).
Proof.
  destruct (defaults_memoized (fresh_world "prod" merge_config)
              [("period", "60")] (@fresh_world_memo_ok sample_externals _ _) eq_refl)
    as (l & w1 & Hrun & Hl & Hmemo & Hagain).
  assert (dict_truthy (dict_of_items [("period", "60")]) = true) as Htruthy
    by (vm_compute; reflexivity).
  rewrite Htruthy in Hagain. exists l, w1.
  exact (conj Hrun (conj Hl (conj Hmemo Hagain))).
Defined.

(** The world of a resolver over [alarms_config] with an Elasticsearch
    collaborator. *)
Definition search_world : world :=
  World ∅ [] (DiscoAlarmsConfig.__init__ "prod" alarms_config None (Some sample_elasticsearch)).

Lemma log_pattern_metric_names_witness :
  ∃ l w' o,
    @DiscoAlarmsConfig._get_alarm_specification_dict sample_externals
      "team" "LogMetrics" "errors" "mhcweb" true None (fresh_world "prod" alarms_config)
    = (Ok (Some l), w') ∧
    heap w' !! l = Some o ∧
    o !! "namespace" = Some "LogMetrics/prod" ∧
    o !! "metric_name" = Some "mhcweb-errors".
Proof.
  pose proof (@specification_run sample_externals "team" "LogMetrics" "errors" "mhcweb" true None
                (fresh_world "prod" alarms_config)) as Hspec.
  destruct (@DiscoAlarmsConfig._get_alarm_specification_dict sample_externals
              "team" "LogMetrics" "errors" "mhcweb" true None
              (fresh_world "prod" alarms_config)) as [r w'] eqn:Hrun.
  assert (∃ l, r = Ok (Some l)) as [l ->].
  { apply (f_equal (λ p, match p.1 with Ok (Some l) => Some l | _ => None end)) in Hrun.
    vm_compute in Hrun. destruct r as [[l|]|e]; [eauto|discriminate Hrun..]. }
  destruct (Hspec l w' (@fresh_world_memo_ok sample_externals _ _) eq_refl)
    as (o & Hl & _ & Hres).
  assert (o !! "log_pattern_metric" = Some "true") as Hv.
  { apply (f_equal (λ r, match r with Ok (Some d) => d !! "log_pattern_metric" | _ => None end))
      in Hres. vm_compute in Hres. by rewrite Hres. }
  destruct (@log_pattern_metric_names sample_externals "team" "LogMetrics" "errors" "mhcweb"
              true None (fresh_world "prod" alarms_config) l w' o "true"
              (@fresh_world_memo_ok sample_externals _ _) Hrun Hl Hv eq_refl)
    as (Hn & Hm & _).
  exists l, w', o. exact (conj eq_refl (conj Hl (conj Hn Hm))).
Defined.

Lemma search_domain_dimensions_witness :
  ∃ l w' o,
    @DiscoAlarmsConfig._get_alarm_specification_dict sample_externals
      "team" "AWS/ES" "ClusterStatus.red" "logs" true None search_world = (Ok (Some l), w') ∧
    heap w' !! l = Some o ∧
    o !! "es_domain_name" = Some "es-logs-prod" ∧
    o !! "es_client_id" = Some "123456789012".
Proof.
  assert (defaults_memo_ok search_world) as Hmemo by (by intros l).
  pose proof (@specification_run sample_externals "team" "AWS/ES" "ClusterStatus.red" "logs"
                true None search_world) as Hspec.
  destruct (@DiscoAlarmsConfig._get_alarm_specification_dict sample_externals
              "team" "AWS/ES" "ClusterStatus.red" "logs" true None search_world)
    as [r w'] eqn:Hrun.
  assert (∃ l, r = Ok (Some l)) as [l ->].
  { apply (f_equal (λ p, match p.1 with Ok (Some l) => Some l | _ => None end)) in Hrun.
    vm_compute in Hrun. destruct r as [[l|]|e]; [eauto|discriminate Hrun..]. }
  destruct (Hspec l w' Hmemo eq_refl) as (o & Hl & _ & _).
  destruct (@search_domain_dimensions sample_externals "team" "ClusterStatus.red" "logs"
              true None search_world l w' o sample_elasticsearch Hmemo eq_refl Hrun Hl)
    as (domain_name & client_id & Hdomain & Hclient & Hod & Hoc & _).
  injection Hdomain as <-. injection Hclient as <-.
  exists l, w', o. exact (conj eq_refl (conj Hl (conj Hod Hoc))).
Defined.
